(** * Sales-Pulse: inventory ledger, anchored balance, FIFO aging,
      sell-out admission check, posting and customer status recompute.

    Shallow embedding of the core of the Sales-Pulse application.

    Conventions of the embedding
    - a calendar date is its day ordinal, an integer ([Z]); the difference of
      two dates in days is integer subtraction;
    - a quantity is an exact rational ([Q]): the queries cast the ledger
      quantity to Float and Python reads every sum through [float(...)];
      rounding of binary floating point is not modelled;
    - a table is the list of its rows; a SQL [WHERE] is [List.filter] with a
      boolean predicate, an aggregate over an empty set of rows is NULL
      ([None]) and [coalesce] replaces NULL by a default;
    - Python sets of status ids are [gset Z], tables looked up by primary key
      are [gmap Z _]. *)

From Stdlib Require Import ZArith QArith Qabs Lqa Lia String List Permutation.
From stdpp Require Import base decidable option list sorting gmap strings pretty.
From Equations.Prop Require Import Equations Logic.

Open Scope Z_scope.

(* ===================================================================== *)
(** ** Tables (models.py)                                                 *)
(* ===================================================================== *)

(** SP_InventoryLedger; the CreatedAt timestamp is left out. *)
Module SP_InventoryLedger.
Record row := mk {
  LedgerID : Z;
  CustomerID : Z;
  SKU_ID : Z;
  DocDate : Z;
  MovementType : string;
  MovementSubType : option string;
  Qty : Q;
  UploadID : option Z;
  RefTable : option string;
  RefID : option string;
  IdempotencyKey : option string
}.
End SP_InventoryLedger.

(** SP_SOH_Detail joined with its header SP_SOH_Uploads (CustomerID, Brand). *)
Module SP_SOH_Detail.
Record row := mk {
  SOHUploadID : Z;
  CustomerID : Z;
  Brand : option string;
  SKU_ID : Z;
  RowNumber : Z;
  SOHDate : Z;
  SOHQty : Q;
  IsActive : bool
}.
End SP_SOH_Detail.

(** SP_MCSI_SellOut: one line of a sell-out upload. *)
Module SP_MCSI_SellOut.
Record row := mk {
  UploadID : Z;
  SKU_ID : Z;
  RowNumber : Z;
  DocumentDate : Z;
  SellOutQty : Q;
  IsActive : bool
}.
End SP_MCSI_SellOut.

(** SP_SellOutUploads: the header of a sell-out upload.  ApprovedBy is an
    Integer column, a foreign key to SP_Users.UserID; NULL is [None]. *)
Module SP_SellOutUploads.
Record row := mk {
  UploadID : Z;
  CustomerID : Z;
  Brand : option string;
  Status : string;
  ApprovedBy : option Z
}.
End SP_SellOutUploads.

(** SP_SellOutApproval: the audit trail of approvals.  Actor is an Integer
    column that takes no NULL. *)
Module SP_SellOutApproval.
Record row := mk {
  UploadID : Z;
  Action : string;
  Actor : Z;
  Comment : option string
}.
End SP_SellOutApproval.

Definition MOVT_ADJUST : string := "ADJUST".
Definition MOVT_SELLIN : string := "SELLIN".
Definition MOVT_SELLOUT : string := "SELLOUT".

(* ===================================================================== *)
(** ** SQL and Python helpers                                             *)
(* ===================================================================== *)

Definition Qltb (a b : Q) : bool := negb (Qle_bool b a).

Definition Qsum (l : list Q) : Q := fold_right Qplus 0%Q l.

(** SQL [SUM]: NULL over no rows. *)
Definition sql_sum (l : list Q) : option Q :=
  match l with
  | [] => None
  | _ :: _ => Some (Qsum l)
  end.

(** SQL [MIN] and [MAX] over dates: NULL over no rows. *)
Definition sql_min (l : list Z) : option Z :=
  match l with
  | [] => None
  | x :: xs => Some (fold_right Z.min x xs)
  end.

Definition sql_max (l : list Z) : option Z :=
  match l with
  | [] => None
  | x :: xs => Some (fold_right Z.max x xs)
  end.

(** SQL [MAX] over a nullable column: NULLs are ignored. *)
Definition sql_max_nullable (l : list (option Z)) : option Z :=
  sql_max (omap id l).

Definition coalesce {A : Type} (o : option A) (d : A) : A :=
  match o with
  | Some x => x
  | None => d
  end.

(** Python truth value of an optional integer argument
    ([if customer_id:]): [None] and [0] are false. *)
Definition truthy (o : option Z) : bool :=
  match o with
  | Some z => negb (z =? 0)
  | None => false
  end.

(** [if arg: pred.append(col == arg)]. *)
Definition opt_eq_filter (arg : option Z) (col : Z) : bool :=
  match arg with
  | Some z => if z =? 0 then true else col =? z
  | None => true
  end.

(** [GROUP BY key]: the keys of the groups, and the rows of one group. *)
Definition group_keys {A K : Type} `{EqDecision K} (key : A -> K) (l : list A) : list K :=
  remove_dups (List.map key l).

Definition group_rows {A K : Type} `{EqDecision K} (key : A -> K) (k : K) (l : list A) : list A :=
  List.filter (fun x => bool_decide (key x = k)) l.

(* ===================================================================== *)
(** ** FIFO aging (blueprints/reports_blueprint/fifo_aging_sqlalchemy.py) *)
(* ===================================================================== *)

(** The arguments of [build_fifo_ctes] that reach the CTEs.  The filters on
    master data (brand access, article code, sales office and group) only
    restrict which finished rows are shown; they are the predicate
    [visible] on (CustomerID, SKU_ID). *)
Record fifo_args := mk_fifo_args {
  as_of_date : Z;
  customer_id : option Z;
  sku_id : option Z;
  min_age : option Z;
  max_age : option Z;
  only_positive_soh : bool;
  visible : Z -> Z -> bool
}.

Module AdjustDates.
Record row := mk { CustomerID : Z; adjust_date : option Z }.
End AdjustDates.

Module Totals.
Record row := mk {
  CustomerID : Z;
  SKU_ID : Z;
  total_issues : Q;
  total_receipts : Q;
  last_movement_date : option Z;
  last_sellout_date : option Z
}.
End Totals.

Module Receipts.
Record row := mk {
  CustomerID : Z;
  SKU_ID : Z;
  lot_date : Z;
  LedgerID : Z;
  lot_qty : Q;
  cum_in_including : option Q;
  cum_in_prev : option Q
}.
End Receipts.

Module Allocated.
Record row := mk {
  CustomerID : Z;
  SKU_ID : Z;
  lot_date : Z;
  LedgerID : Z;
  lot_qty : Q;
  cum_in_prev : Q;
  total_issues : Q;
  consumed_qty : option Q;
  remaining_qty : option Q
}.
End Allocated.

Module LiveLayers.
Record row := mk {
  CustomerID : Z;
  SKU_ID : Z;
  lot_date : Z;
  remaining_qty : Q;
  age_days : Z
}.
End LiveLayers.

Module Buckets.
Record row := mk {
  CustomerID : Z;
  SKU_ID : Z;
  b_0_30 : Q;
  b_31_60 : Q;
  b_61_90 : Q;
  b_90p : Q;
  soh_qty : Q;
  weighted_age_sum : Q;
  oldest_lot_date : option Z;
  newest_lot_date : option Z
}.
End Buckets.

(** 1) customer-level earliest ADJUST date on or before the as-of date. *)
Definition adj_pred (a : fifo_args) (l : SP_InventoryLedger.row) : bool :=
  String.eqb (SP_InventoryLedger.MovementType l) MOVT_ADJUST
  && (SP_InventoryLedger.DocDate l <=? as_of_date a)
  && opt_eq_filter (customer_id a) (SP_InventoryLedger.CustomerID l).

Definition AdjustDates (a : fifo_args) (L : list SP_InventoryLedger.row) : list AdjustDates.row :=
  let rows := List.filter (adj_pred a) L in
  List.map
    (fun c => AdjustDates.mk c
       (sql_min (List.map SP_InventoryLedger.DocDate
                   (group_rows SP_InventoryLedger.CustomerID c rows))))
    (group_keys SP_InventoryLedger.CustomerID rows).

(** 2) movements window [adjust_date .. as_of_date]. *)
Definition base_pred (a : fifo_args) (l : SP_InventoryLedger.row) (d : AdjustDates.row) : bool :=
  (SP_InventoryLedger.DocDate l <=? as_of_date a)
  && match AdjustDates.adjust_date d with
     | Some ad => ad <=? SP_InventoryLedger.DocDate l
     | None => false
     end
  && (SP_InventoryLedger.CustomerID l =? AdjustDates.CustomerID d)
  && opt_eq_filter (sku_id a) (SP_InventoryLedger.SKU_ID l)
  && opt_eq_filter (customer_id a) (SP_InventoryLedger.CustomerID l).

Definition Movements (a : fifo_args) (L : list SP_InventoryLedger.row) : list SP_InventoryLedger.row :=
  flat_map
    (fun l =>
       flat_map
         (fun d =>
            if (SP_InventoryLedger.CustomerID l =? AdjustDates.CustomerID d)
               && base_pred a l d
            then [l] else [])
         (AdjustDates a L))
    L.

Definition pair_of (l : SP_InventoryLedger.row) : Z * Z :=
  (SP_InventoryLedger.CustomerID l, SP_InventoryLedger.SKU_ID l).

(** 3) totals per (Customer, SKU) over the window. *)
Definition issue_of (l : SP_InventoryLedger.row) : Q :=
  if Qltb (SP_InventoryLedger.Qty l) 0 then Qopp (SP_InventoryLedger.Qty l) else 0%Q.

Definition receipt_of (l : SP_InventoryLedger.row) : Q :=
  if Qltb 0 (SP_InventoryLedger.Qty l) then SP_InventoryLedger.Qty l else 0%Q.

Definition Totals_of_group (k : Z * Z) (g : list SP_InventoryLedger.row) : Totals.row :=
  Totals.mk (fst k) (snd k)
    (coalesce (sql_sum (List.map issue_of g)) 0%Q)
    (coalesce (sql_sum (List.map receipt_of g)) 0%Q)
    (sql_max (List.map SP_InventoryLedger.DocDate g))
    (sql_max_nullable
       (List.map (fun l => if Qltb (SP_InventoryLedger.Qty l) 0
                           then Some (SP_InventoryLedger.DocDate l) else None) g)).

Definition Totals (a : fifo_args) (L : list SP_InventoryLedger.row) : list Totals.row :=
  let M := Movements a L in
  List.map (fun k => Totals_of_group k (group_rows pair_of k M)) (group_keys pair_of M).

(** 4) receipts (positive Qty) with their running sums.  The window is
    partitioned by (CustomerID, SKU_ID) and ordered by (DocDate, LedgerID). *)
Definition fifo_leb (x y : SP_InventoryLedger.row) : bool :=
  (SP_InventoryLedger.DocDate x <? SP_InventoryLedger.DocDate y)
  || ((SP_InventoryLedger.DocDate x =? SP_InventoryLedger.DocDate y)
      && (SP_InventoryLedger.LedgerID x <=? SP_InventoryLedger.LedgerID y)).

Definition fifo_le (x y : SP_InventoryLedger.row) : Prop := fifo_leb x y = true.

#[global] Instance fifo_le_dec : RelDecision fifo_le.
Proof. intros x y. unfold fifo_le. apply _. Defined.

(** [SUM(Qty) OVER (... ORDER BY ...)] and the same with
    [ROWS BETWEEN UNBOUNDED PRECEDING AND 1 PRECEDING]: [before] is the sum
    over the rows already passed, NULL while there is none. *)
Fixpoint window_scan (before : option Q) (rows : list SP_InventoryLedger.row) : list Receipts.row :=
  match rows with
  | [] => []
  | l :: rest =>
      let incl := (coalesce before 0%Q + SP_InventoryLedger.Qty l)%Q in
      Receipts.mk (SP_InventoryLedger.CustomerID l) (SP_InventoryLedger.SKU_ID l)
        (SP_InventoryLedger.DocDate l) (SP_InventoryLedger.LedgerID l)
        (SP_InventoryLedger.Qty l) (Some incl) before
      :: window_scan (Some incl) rest
  end.

Definition is_receipt (l : SP_InventoryLedger.row) : bool := Qltb 0 (SP_InventoryLedger.Qty l).

Definition Receipts (a : fifo_args) (L : list SP_InventoryLedger.row) : list Receipts.row :=
  let P := List.filter is_receipt (Movements a L) in
  flat_map (fun k => window_scan None (merge_sort fifo_le (group_rows pair_of k P)))
    (group_keys pair_of P).

(** 5) FIFO allocation.  A comparison with NULL is not true, and arithmetic
    on NULL is NULL. *)
Definition consumed_expr (total_issues : option Q) (cum_in_prev : option Q) (lot_qty : Q) : option Q :=
  match total_issues with
  | None => None
  | Some ti =>
      if Qle_bool ti (coalesce cum_in_prev 0%Q) then Some 0%Q
      else if Qle_bool (coalesce cum_in_prev 0%Q + lot_qty)%Q ti then Some lot_qty
      else Some (ti - coalesce cum_in_prev 0%Q)%Q
  end.

Definition Allocated_row (r : Receipts.row) (t : option Totals.row) : Allocated.row :=
  let ti := option_map Totals.total_issues t in
  let consumed := consumed_expr ti (Receipts.cum_in_prev r) (Receipts.lot_qty r) in
  Allocated.mk (Receipts.CustomerID r) (Receipts.SKU_ID r) (Receipts.lot_date r)
    (Receipts.LedgerID r) (Receipts.lot_qty r)
    (coalesce (Receipts.cum_in_prev r) 0%Q)
    (coalesce ti 0%Q)
    consumed
    (option_map (fun c => (Receipts.lot_qty r - c)%Q) consumed).

(** [Receipts LEFT OUTER JOIN Totals] on (CustomerID, SKU_ID). *)
Definition Allocated (a : fifo_args) (L : list SP_InventoryLedger.row) : list Allocated.row :=
  flat_map
    (fun r =>
       match List.filter
               (fun t => (Totals.CustomerID t =? Receipts.CustomerID r)
                         && (Totals.SKU_ID t =? Receipts.SKU_ID r))
               (Totals a L) with
       | [] => [Allocated_row r None]
       | ts => List.map (fun t => Allocated_row r (Some t)) ts
       end)
    (Receipts a L).

(** 6) live layers: the lots with something left, and their age. *)
Definition LiveLayers_of (a : fifo_args) (r : Allocated.row) : list LiveLayers.row :=
  match Allocated.remaining_qty r with
  | Some q =>
      if Qltb 0 q
      then [LiveLayers.mk (Allocated.CustomerID r) (Allocated.SKU_ID r)
              (Allocated.lot_date r) q (as_of_date a - Allocated.lot_date r)]
      else []
  | None => []
  end.

Definition LiveLayers (a : fifo_args) (L : list SP_InventoryLedger.row) : list LiveLayers.row :=
  flat_map (LiveLayers_of a) (Allocated a L).

Definition live_pred (a : fifo_args) (r : LiveLayers.row) : bool :=
  match min_age a with Some m => m <=? LiveLayers.age_days r | None => true end
  && match max_age a with Some m => LiveLayers.age_days r <=? m | None => true end.

Definition LiveLayersFiltered (a : fifo_args) (L : list SP_InventoryLedger.row) : list LiveLayers.row :=
  List.filter (live_pred a) (LiveLayers a L).

(** 7) age buckets and stock on hand per (Customer, SKU). *)
Definition live_pair (r : LiveLayers.row) : Z * Z :=
  (LiveLayers.CustomerID r, LiveLayers.SKU_ID r).

Definition bucket_sum (lo hi : option Z) (g : list LiveLayers.row) : Q :=
  coalesce
    (sql_sum
       (List.map
          (fun r =>
             if match lo with Some b => b <=? LiveLayers.age_days r | None => true end
                && match hi with Some b => LiveLayers.age_days r <=? b | None => true end
             then LiveLayers.remaining_qty r else 0%Q)
          g))
    0%Q.

Definition Buckets_of_group (k : Z * Z) (g : list LiveLayers.row) : Buckets.row :=
  Buckets.mk (fst k) (snd k)
    (bucket_sum (Some 0) (Some 30) g)
    (bucket_sum (Some 31) (Some 60) g)
    (bucket_sum (Some 61) (Some 90) g)
    (bucket_sum (Some 91) None g)
    (coalesce (sql_sum (List.map LiveLayers.remaining_qty g)) 0%Q)
    (coalesce
       (sql_sum (List.map (fun r => (LiveLayers.remaining_qty r * inject_Z (LiveLayers.age_days r))%Q) g))
       0%Q)
    (sql_min (List.map LiveLayers.lot_date g))
    (sql_max (List.map LiveLayers.lot_date g)).

Definition Buckets (a : fifo_args) (L : list SP_InventoryLedger.row) : list Buckets.row :=
  let F := LiveLayersFiltered a L in
  List.map (fun k => Buckets_of_group k (group_rows live_pair k F)) (group_keys live_pair F).

(** 8, 9) the two statements [build_fifo_ctes] returns, as the rows they
    select (the columns joined in from the master data are left out). *)
Definition bucket_stmt (a : fifo_args) (L : list SP_InventoryLedger.row) : list Buckets.row :=
  List.filter
    (fun b =>
       visible a (Buckets.CustomerID b) (Buckets.SKU_ID b)
       && opt_eq_filter (customer_id a) (Buckets.CustomerID b)
       && opt_eq_filter (sku_id a) (Buckets.SKU_ID b)
       && (if only_positive_soh a then Qltb 0 (Buckets.soh_qty b) else true))
    (Buckets a L).

Definition layer_stmt (a : fifo_args) (L : list SP_InventoryLedger.row) : list LiveLayers.row :=
  List.filter
    (fun r =>
       visible a (LiveLayers.CustomerID r) (LiveLayers.SKU_ID r)
       && opt_eq_filter (customer_id a) (LiveLayers.CustomerID r)
       && opt_eq_filter (sku_id a) (LiveLayers.SKU_ID r))
    (LiveLayers a L).

(** The CTEs seen from one (Customer, SKU) pair: its movements in the
    window, and its receipts in window order. *)
Definition rcp_pair (r : Receipts.row) : Z * Z :=
  (Receipts.CustomerID r, Receipts.SKU_ID r).

Definition tot_pair (t : Totals.row) : Z * Z :=
  (Totals.CustomerID t, Totals.SKU_ID t).

Definition alloc_pair (r : Allocated.row) : Z * Z :=
  (Allocated.CustomerID r, Allocated.SKU_ID r).

Definition pair_movements (a : fifo_args) (L : list SP_InventoryLedger.row) (k : Z * Z)
  : list SP_InventoryLedger.row :=
  group_rows pair_of k (Movements a L).

Definition pair_lots (a : fifo_args) (L : list SP_InventoryLedger.row) (k : Z * Z)
  : list SP_InventoryLedger.row :=
  merge_sort fifo_le (group_rows pair_of k (List.filter is_receipt (Movements a L))).

(* ===================================================================== *)
(** ** Anchored balance
       (blueprints/reports_blueprint/sales_pulse_general_working before
        muliple brand soh change.py)                                      *)
(* ===================================================================== *)

(** [query.order_by(...).first()]: the first row in the given order, None
    when there is no row. *)
Definition first_by {A : Type} (R : relation A) `{RelDecision A A R} (rows : list A) : option A :=
  head (merge_sort R rows).

(** Python truth value of an optional string ([if brand:]). *)
Definition truthy_str (o : option string) : bool :=
  match o with
  | Some b => negb (String.eqb b EmptyString)
  | None => false
  end.

(** A nullable string column compared with a value: NULL matches nothing. *)
Definition col_eq_str (col : option string) (v : option string) : bool :=
  match col, v with
  | Some x, Some y => String.eqb x y
  | _, _ => false
  end.

(** ORDER BY SOHDate DESC, SOHUploadID DESC. *)
Definition snap_desc_b (x y : SP_SOH_Detail.row) : bool :=
  (SP_SOH_Detail.SOHDate y <? SP_SOH_Detail.SOHDate x)
  || ((SP_SOH_Detail.SOHDate y =? SP_SOH_Detail.SOHDate x)
      && (SP_SOH_Detail.SOHUploadID y <=? SP_SOH_Detail.SOHUploadID x)).

Definition snap_desc (x y : SP_SOH_Detail.row) : Prop := snap_desc_b x y = true.

#[global] Instance snap_desc_dec : RelDecision snap_desc.
Proof. intros x y. unfold snap_desc. apply _. Defined.

(** ORDER BY SOHUploadID DESC. *)
Definition upload_desc (x y : SP_SOH_Detail.row) : Prop :=
  (SP_SOH_Detail.SOHUploadID y <=? SP_SOH_Detail.SOHUploadID x) = true.

#[global] Instance upload_desc_dec : RelDecision upload_desc.
Proof. intros x y. unfold upload_desc. apply _. Defined.

Definition _latest_active_snapshot (S : list SP_SOH_Detail.row)
    (customer_id : Z) (brand : option string) (sku_id : Z) (as_of : Z) : option Z * Q :=
  let q := List.filter
             (fun r => (SP_SOH_Detail.CustomerID r =? customer_id)
                       && (SP_SOH_Detail.SKU_ID r =? sku_id)
                       && SP_SOH_Detail.IsActive r
                       && (SP_SOH_Detail.SOHDate r <=? as_of)) S in
  let q := if truthy_str brand
           then List.filter (fun r => col_eq_str (SP_SOH_Detail.Brand r) brand) q
           else q in
  match first_by snap_desc q with
  | Some row => (Some (SP_SOH_Detail.SOHDate row), SP_SOH_Detail.SOHQty row)
  | None => (None, 0%Q)
  end.

Definition _signed_qty_expr (l : SP_InventoryLedger.row) : Q :=
  let mt := SP_InventoryLedger.MovementType l in
  let q := SP_InventoryLedger.Qty l in
  if String.eqb mt "SELLOUT" then Qopp (Qabs q)
  else if String.eqb mt "SELLIN" then q
  else if String.eqb mt "ADJUST" then q
  else q.

Definition _sum_signed_after_date (L : list SP_InventoryLedger.row)
    (customer_id sku_id : Z) (day until_incl : Z) : Q :=
  coalesce
    (sql_sum
       (List.map _signed_qty_expr
          (List.filter
             (fun l => (SP_InventoryLedger.CustomerID l =? customer_id)
                       && (SP_InventoryLedger.SKU_ID l =? sku_id)
                       && (day <? SP_InventoryLedger.DocDate l)
                       && (SP_InventoryLedger.DocDate l <=? until_incl)) L)))
    0%Q.

Definition _sum_signed_on_date_excl_adjust (L : list SP_InventoryLedger.row)
    (customer_id sku_id : Z) (day : Z) : Q :=
  coalesce
    (sql_sum
       (List.map _signed_qty_expr
          (List.filter
             (fun l => (SP_InventoryLedger.CustomerID l =? customer_id)
                       && (SP_InventoryLedger.SKU_ID l =? sku_id)
                       && (SP_InventoryLedger.DocDate l =? day)
                       && negb (String.eqb (SP_InventoryLedger.MovementType l) "ADJUST")) L)))
    0%Q.

Definition _sum_signed_inclusive (L : list SP_InventoryLedger.row)
    (customer_id sku_id : Z) (start_incl end_incl : Z) : Q :=
  coalesce
    (sql_sum
       (List.map _signed_qty_expr
          (List.filter
             (fun l => (SP_InventoryLedger.CustomerID l =? customer_id)
                       && (SP_InventoryLedger.SKU_ID l =? sku_id)
                       && (start_incl <=? SP_InventoryLedger.DocDate l)
                       && (SP_InventoryLedger.DocDate l <=? end_incl)) L)))
    0%Q.

Definition _anchor_adjust_date_customer (L : list SP_InventoryLedger.row)
    (customer_id : Z) (as_of : Z) : option Z :=
  sql_max
    (List.map SP_InventoryLedger.DocDate
       (List.filter
          (fun l => (SP_InventoryLedger.CustomerID l =? customer_id)
                    && String.eqb (SP_InventoryLedger.MovementType l) "ADJUST"
                    && (SP_InventoryLedger.DocDate l <=? as_of)) L)).

Definition _anchor_adjust_date_sku_only (L : list SP_InventoryLedger.row)
    (customer_id sku_id : Z) (as_of : Z) : option Z :=
  sql_max
    (List.map SP_InventoryLedger.DocDate
       (List.filter
          (fun l => (SP_InventoryLedger.CustomerID l =? customer_id)
                    && (SP_InventoryLedger.SKU_ID l =? sku_id)
                    && String.eqb (SP_InventoryLedger.MovementType l) "ADJUST"
                    && (SP_InventoryLedger.DocDate l <=? as_of)) L)).

(** [if ca and sa: return max(ca, sa)]; [return sa or ca].  A date is
    always true in Python, so only None is false. *)
Definition _effective_anchor_for_sku (L : list SP_InventoryLedger.row)
    (customer_id sku_id : Z) (as_of : Z) : option Z :=
  let ca := _anchor_adjust_date_customer L customer_id as_of in
  let sa := _anchor_adjust_date_sku_only L customer_id sku_id as_of in
  match ca, sa with
  | Some c, Some s => Some (Z.max c s)
  | _, _ => match sa with
            | Some s => Some s
            | None => ca
            end
  end.

Definition _snapshot_qty_on_date (S : list SP_SOH_Detail.row)
    (customer_id sku_id : Z) (snap_date : Z) : Q * bool :=
  let q := List.filter
             (fun r => (SP_SOH_Detail.CustomerID r =? customer_id)
                       && (SP_SOH_Detail.SKU_ID r =? sku_id)
                       && SP_SOH_Detail.IsActive r
                       && (SP_SOH_Detail.SOHDate r =? snap_date)) S in
  match first_by upload_desc q with
  | Some row => (SP_SOH_Detail.SOHQty row, true)
  | None => (0%Q, false)
  end.

Definition _closing_soh_anchored (L : list SP_InventoryLedger.row) (S : list SP_SOH_Detail.row)
    (customer_id sku_id : Z) (as_of : Z) : Q :=
  match _effective_anchor_for_sku L customer_id sku_id as_of with
  | Some anchor =>
      let '(base_qty, had_snap) := _snapshot_qty_on_date S customer_id sku_id anchor in
      if had_snap then
        let same_day_non_adjust := _sum_signed_on_date_excl_adjust L customer_id sku_id anchor in
        let after_anchor := _sum_signed_after_date L customer_id sku_id anchor as_of in
        (base_qty + same_day_non_adjust + after_anchor)%Q
      else
        _sum_signed_inclusive L customer_id sku_id anchor as_of
  | None =>
      let '(snap_date, snap_qty) := _latest_active_snapshot S customer_id None sku_id as_of in
      match snap_date with
      | Some sd =>
          let delta :=
            coalesce
              (sql_sum
                 (List.map _signed_qty_expr
                    (List.filter
                       (fun l => (SP_InventoryLedger.CustomerID l =? customer_id)
                                 && (SP_InventoryLedger.SKU_ID l =? sku_id)
                                 && (sd <? SP_InventoryLedger.DocDate l)
                                 && (SP_InventoryLedger.DocDate l <=? as_of)) L)))
              0%Q in
          (snap_qty + delta)%Q
      | None => 0%Q
      end
  end.

(* ===================================================================== *)
(** ** Sell-out approvals
       (blueprints/sell_out_blueprint/sell_out_approvals.py)              *)
(* ===================================================================== *)

(** [_latest_active_snapshot] of this file is the same function as above. *)

Definition _sum_ledger_between (L : list SP_InventoryLedger.row)
    (customer_id sku_id : Z) (since_excl : option Z) (until_incl : Z) : Q :=
  let q := List.filter
             (fun l => (SP_InventoryLedger.CustomerID l =? customer_id)
                       && (SP_InventoryLedger.SKU_ID l =? sku_id)
                       && (SP_InventoryLedger.DocDate l <=? until_incl)) L in
  let q := match since_excl with
           | Some since => List.filter (fun l => since <? SP_InventoryLedger.DocDate l) q
           | None => q
           end in
  coalesce (sql_sum (List.map SP_InventoryLedger.Qty q)) 0%Q.

Definition _balance_as_of (L : list SP_InventoryLedger.row) (S : list SP_SOH_Detail.row)
    (customer_id : Z) (brand : option string) (sku_id : Z) (as_of : Z) : Q :=
  let '(snap_date, snap_qty) := _latest_active_snapshot S customer_id brand sku_id as_of in
  let delta := _sum_ledger_between L customer_id sku_id snap_date as_of in
  (snap_qty + delta)%Q.

(** *** Negative-balance preview *)

(** One entry of [per_line]. *)
Module PreviewLine.
Record row := mk {
  RowNumber : Z;
  SKU_ID : Z;
  DocumentDate : Z;
  SellOutQty : Q;
  AvailableBefore : Q;
  CumulativeFromUpload : Q;
  ResultingBalance : Q;
  IsNegative : bool
}.
End PreviewLine.

(** ORDER BY SKU_ID, DocumentDate, RowNumber (the query) and the sort key
    (DocumentDate, RowNumber) of [rows.sort]. *)
Definition detail_leb (x y : SP_MCSI_SellOut.row) : bool :=
  (SP_MCSI_SellOut.SKU_ID x <? SP_MCSI_SellOut.SKU_ID y)
  || ((SP_MCSI_SellOut.SKU_ID x =? SP_MCSI_SellOut.SKU_ID y)
      && ((SP_MCSI_SellOut.DocumentDate x <? SP_MCSI_SellOut.DocumentDate y)
          || ((SP_MCSI_SellOut.DocumentDate x =? SP_MCSI_SellOut.DocumentDate y)
              && (SP_MCSI_SellOut.RowNumber x <=? SP_MCSI_SellOut.RowNumber y)))).

Definition detail_le (x y : SP_MCSI_SellOut.row) : Prop := detail_leb x y = true.

#[global] Instance detail_le_dec : RelDecision detail_le.
Proof. intros x y. unfold detail_le. apply _. Defined.

Definition line_leb (x y : SP_MCSI_SellOut.row) : bool :=
  (SP_MCSI_SellOut.DocumentDate x <? SP_MCSI_SellOut.DocumentDate y)
  || ((SP_MCSI_SellOut.DocumentDate x =? SP_MCSI_SellOut.DocumentDate y)
      && (SP_MCSI_SellOut.RowNumber x <=? SP_MCSI_SellOut.RowNumber y)).

Definition line_le (x y : SP_MCSI_SellOut.row) : Prop := line_leb x y = true.

#[global] Instance line_le_dec : RelDecision line_le.
Proof. intros x y. unfold line_le. apply _. Defined.

(** The active detail rows of an upload, as the query returns them. *)
Definition active_details (D : list SP_MCSI_SellOut.row) (upload_id : Z) : list SP_MCSI_SellOut.row :=
  merge_sort detail_le
    (List.filter (fun d => (SP_MCSI_SellOut.UploadID d =? upload_id)
                           && SP_MCSI_SellOut.IsActive d) D).










(** *** Posting a sell-out upload *)

(** The tables a posting touches.  SP_SellOutUploads is looked up by its
    primary key: the key of the map is the UploadID of the row.  Of SP_Users
    the UserIDs are kept: the approvals never change them. *)
Record database := mk_db {
  db_uploads : gmap Z SP_SellOutUploads.row;
  db_details : list SP_MCSI_SellOut.row;
  db_ledger : list SP_InventoryLedger.row;
  db_approvals : list SP_SellOutApproval.row;
  db_users : gset Z
}.

(** The unique index UX_InvLedger_Idempotent. *)
Definition ledger_unique_key (l : SP_InventoryLedger.row)
  : Z * Z * Z * string * option string * option Z :=
  (SP_InventoryLedger.CustomerID l, SP_InventoryLedger.SKU_ID l,
   SP_InventoryLedger.DocDate l, SP_InventoryLedger.MovementType l,
   SP_InventoryLedger.IdempotencyKey l, SP_InventoryLedger.UploadID l).

Definition unique_index_ok (L : list SP_InventoryLedger.row) : bool :=
  bool_decide (NoDup (List.map ledger_unique_key L)).

(** LedgerID is an autoincrement key: an inserted row gets the next one. *)
Definition next_LedgerID (L : list SP_InventoryLedger.row) : Z :=
  1 + fold_right Z.max 0 (List.map SP_InventoryLedger.LedgerID L).

Definition ledger_insert (L : list SP_InventoryLedger.row) (r : SP_InventoryLedger.row)
  : list SP_InventoryLedger.row :=
  L ++ [SP_InventoryLedger.mk (next_LedgerID L)
          (SP_InventoryLedger.CustomerID r) (SP_InventoryLedger.SKU_ID r)
          (SP_InventoryLedger.DocDate r) (SP_InventoryLedger.MovementType r)
          (SP_InventoryLedger.MovementSubType r) (SP_InventoryLedger.Qty r)
          (SP_InventoryLedger.UploadID r) (SP_InventoryLedger.RefTable r)
          (SP_InventoryLedger.RefID r) (SP_InventoryLedger.IdempotencyKey r)].

(** [x or default] on a string. *)
Definition str_or (x d : string) : string :=
  if String.eqb x EmptyString then d else x.

(** A field of the body of a request ([data.get("actor")]): the JSON body
    gives an integer or a string, a form gives a string, and [PyNone] stands
    for a missing field.  The other JSON values are not modelled. *)
Inductive py_value : Type :=
  | PyNone
  | PyInt (n : Z)
  | PyStr (s : string).

(** [x or default]: None, 0 and the empty string are false. *)
Definition py_or (x : py_value) (d : string) : py_value :=
  match x with
  | PyNone => PyStr d
  | PyInt n => if n =? 0 then PyStr d else PyInt n
  | PyStr s => if String.eqb s EmptyString then PyStr d else PyStr s
  end.

(** [str(e)] of the exception of a turn: the message of a ValueError or of
    an [abort], or the text of the database driver, which is not
    modelled. *)
Inductive error_text : Type :=
  | Message (s : string)
  | DriverMessage.

(** What a transaction leaves in the session for the commit: the
    attributes set on a header, and the ledger rows and audit rows added.
    ApprovedBy and Actor hold the value taken from the request. *)
Inductive pending : Type :=
  | SetStatus (upload_id : Z) (status : string)
  | SetApprovedBy (upload_id : Z) (v : py_value)
  | AddLedger (r : SP_InventoryLedger.row)
  | AddApproval (upload_id : Z) (action : string) (actor : py_value)
      (comment : option string).

Section approvals.

(** What the server makes of a character string sent for an Integer column:
    the integer, or None when it refuses the string.  Which strings it
    converts is left open; the definitions below hold for each such
    conversion. *)
Variable int_of_varchar : string -> option Z.

(** The value an Integer column stores for the value sent, None when the
    statement fails: an integer must fit the 32 bits of the column, and the
    column of the audit trail takes no NULL. *)
Definition Integer_column (v : py_value) : option Z :=
  match v with
  | PyNone => None
  | PyInt n => if (-2147483648 <=? n) && (n <=? 2147483647) then Some n else None
  | PyStr s => int_of_varchar s
  end.

(** ApprovedBy takes NULL, and else the UserID of a row of SP_Users. *)
Definition ApprovedBy_column (users : gset Z) (v : py_value) : option (option Z) :=
  match v with
  | PyNone => Some None
  | _ =>
      match Integer_column v with
      | Some n => if bool_decide (n ∈ users) then Some (Some n) else None
      | None => None
      end
  end.

(** The flush of one pending change, None when the server refuses it.  The
    rows written refer to the upload just loaded, so that their foreign key
    UploadID holds. *)
Definition flush_one (db : database) (w : pending) : option database :=
  match w with
  | SetStatus upload_id status =>
      match db_uploads db !! upload_id with
      | Some h =>
          Some (mk_db
                  (<[upload_id :=
                       SP_SellOutUploads.mk upload_id (SP_SellOutUploads.CustomerID h)
                         (SP_SellOutUploads.Brand h) status (SP_SellOutUploads.ApprovedBy h)]>
                     (db_uploads db))
                  (db_details db) (db_ledger db) (db_approvals db) (db_users db))
      | None => None
      end
  | SetApprovedBy upload_id v =>
      match db_uploads db !! upload_id, ApprovedBy_column (db_users db) v with
      | Some h, Some approved_by =>
          Some (mk_db
                  (<[upload_id :=
                       SP_SellOutUploads.mk upload_id (SP_SellOutUploads.CustomerID h)
                         (SP_SellOutUploads.Brand h) (SP_SellOutUploads.Status h) approved_by]>
                     (db_uploads db))
                  (db_details db) (db_ledger db) (db_approvals db) (db_users db))
      | _, _ => None
      end
  | AddLedger r =>
      let L := ledger_insert (db_ledger db) r in
      if unique_index_ok L
      then Some (mk_db (db_uploads db) (db_details db) L (db_approvals db) (db_users db))
      else None
  | AddApproval upload_id action actor comment =>
      match Integer_column actor with
      | Some a =>
          Some (mk_db (db_uploads db) (db_details db) (db_ledger db)
                  (db_approvals db ++ [SP_SellOutApproval.mk upload_id action a comment])
                  (db_users db))
      | None => None
      end
  end.

(** [model.commit()]: the pending changes are flushed; None when one of
    them is refused, and the transaction is then rolled back. *)
Definition commit (db : database) (ws : list pending) : option database :=
  fold_left (fun st w => match st with
                         | Some d => flush_one d w
                         | None => None
                         end) ws (Some db).

Definition _get_upload_or_404 (db : database) (upload_id : Z) : option SP_SellOutUploads.row :=
  match db_uploads db !! upload_id with
  | Some h => Some (SP_SellOutUploads.mk upload_id (SP_SellOutUploads.CustomerID h)
                      (SP_SellOutUploads.Brand h) (SP_SellOutUploads.Status h)
                      (SP_SellOutUploads.ApprovedBy h))
  | None => None
  end.

(** The claim: [UPDATE SP_SellOutUploads SET Status = 'Posting'
    WHERE UploadID = :id AND Status = 'Draft'], with the number of rows it
    affected. *)
Definition claim_draft (db : database) (upload_id : Z) : database * Z :=
  match db_uploads db !! upload_id with
  | Some h =>
      if String.eqb (SP_SellOutUploads.Status h) "Draft"
      then (mk_db (<[upload_id :=
                       SP_SellOutUploads.mk (SP_SellOutUploads.UploadID h)
                         (SP_SellOutUploads.CustomerID h) (SP_SellOutUploads.Brand h)
                         "Posting" (SP_SellOutUploads.ApprovedBy h)]> (db_uploads db))
              (db_details db) (db_ledger db) (db_approvals db) (db_users db), 1)
      else (db, 0)
  | None => (db, 0)
  end.

(** The SELLOUT ledger row written for one detail line. *)
Definition sellout_ledger_row (upload : SP_SellOutUploads.row) (d : SP_MCSI_SellOut.row)
  : SP_InventoryLedger.row :=
  SP_InventoryLedger.mk 0
    (SP_SellOutUploads.CustomerID upload)
    (SP_MCSI_SellOut.SKU_ID d)
    (SP_MCSI_SellOut.DocumentDate d)
    "SELLOUT"
    None
    (Qopp (SP_MCSI_SellOut.SellOutQty d))
    (Some (SP_SellOutUploads.UploadID upload))
    (Some "SP_SellOutUploads"%string)
    (Some (pretty (SP_SellOutUploads.UploadID upload)))
    (Some ("SO_APPROVE:" +:+ pretty (SP_SellOutUploads.UploadID upload)
             +:+ ":" +:+ pretty (SP_MCSI_SellOut.RowNumber d))).

(** [_post_sellout_running]: [upload] is the object of the session, with
    the attributes it was loaded with; an exception is [inl], and [inr] is
    what the function leaves in the session: a ledger row per active line,
    the header Posted and approved by the actor, and the audit row. *)
Definition _post_sellout_running (db : database) (upload : SP_SellOutUploads.row)
    (actor : py_value) (comment : option string) : string + list pending :=
  if String.eqb (SP_SellOutUploads.Status upload) "Posted"
  then inl ("Upload " +:+ pretty (SP_SellOutUploads.UploadID upload) +:+ " already posted")
  else
    match active_details (db_details db) (SP_SellOutUploads.UploadID upload) with
    | [] => inl "No active detail rows to post"%string
    | details =>
        inr (List.map (fun d => AddLedger (sellout_ledger_row upload d)) details
             ++ [SetStatus (SP_SellOutUploads.UploadID upload) "Posted";
                 SetApprovedBy (SP_SellOutUploads.UploadID upload) (py_or actor "approver");
                 AddApproval (SP_SellOutUploads.UploadID upload) "APPROVE"
                   (py_or actor "approver") comment])
    end.

(** What a turn of the loop of [approve_uploads] does with the id: with
    [CommitFailed] the id is already in [posted] when the commit fails, and
    it is added to [failed] as well. *)
Inductive outcome : Type :=
  | Posted
  | Skipped (status : string)
  | Failed (error : error_text)
  | CommitFailed.

(** One turn of the loop of [approve_uploads]: a transaction that is
    committed on success and on [continue], and rolled back on an
    exception, that of a failed commit included. *)
Definition approve_one (actor : py_value) (comment : option string)
    (db : database) (upload_id : Z) : database * outcome :=
  match _get_upload_or_404 db upload_id with
  | None => (db, Failed (Message "404 Not Found: Upload not found"))
  | Some u =>
      let '(db1, affected) := claim_draft db (SP_SellOutUploads.UploadID u) in
      if negb (affected =? 1) then (db1, Skipped (SP_SellOutUploads.Status u))
      else
        match _post_sellout_running db1 u actor comment with
        | inl e => (db, Failed (Message e))
        | inr ws =>
            match commit db1 ws with
            | Some db2 => (db2, Posted)
            | None => (db, CommitFailed)
            end
        end
  end.

(** [approve_uploads]: the uploads are processed in turn; the result lists
    the posted, skipped and failed ones.  [posted.append] stands before the
    end of the transaction. *)
Definition approve_step (actor : py_value) (comment : option string)
    (st : database * (list Z * list (Z * string) * list (Z * error_text))) (upload_id : Z)
  : database * (list Z * list (Z * string) * list (Z * error_text)) :=
  let '(db, (posted, skipped, failed)) := st in
  match approve_one actor comment db upload_id with
  | (db', Posted) => (db', (posted ++ [upload_id], skipped, failed))
  | (db', Skipped status) => (db', (posted, skipped ++ [(upload_id, status)], failed))
  | (db', Failed e) => (db', (posted, skipped, failed ++ [(upload_id, e)]))
  | (db', CommitFailed) =>
      (db', (posted ++ [upload_id], skipped, failed ++ [(upload_id, DriverMessage)]))
  end.

(** [approve_uploads], after [actor = data.get("actor") or "approver"]. *)
Definition approve_uploads (actor : py_value) (comment : option string)
    (db : database) (ids : list Z)
  : database * (list Z * list (Z * string) * list (Z * error_text)) :=
  fold_left (approve_step (py_or actor "approver") comment) ids (db, ([], [], [])).

(** The rows a posting of the upload adds to the ledger, and the database
    it leaves when user [a] approves. *)
Definition posting_rows_of (db : database) (upload_id : Z) (h : SP_SellOutUploads.row)
  : list SP_InventoryLedger.row :=
  List.map (sellout_ledger_row
              (SP_SellOutUploads.mk upload_id (SP_SellOutUploads.CustomerID h)
                 (SP_SellOutUploads.Brand h) (SP_SellOutUploads.Status h)
                 (SP_SellOutUploads.ApprovedBy h)))
    (active_details (db_details db) upload_id).

Definition posted_db (db : database) (upload_id : Z) (h : SP_SellOutUploads.row) (a : Z)
    (comment : option string) : database :=
  mk_db
    (<[upload_id :=
         SP_SellOutUploads.mk upload_id (SP_SellOutUploads.CustomerID h)
           (SP_SellOutUploads.Brand h) "Posted" (Some a)]> (db_uploads db))
    (db_details db)
    (fold_left ledger_insert (posting_rows_of db upload_id h) (db_ledger db))
    (db_approvals db ++ [SP_SellOutApproval.mk upload_id "APPROVE" a comment])
    (db_users db).

(** The user id that the commit of an approval stores for the actor of the
    request: the actor must be the UserID of a row of SP_Users. *)
Definition approver_id (db : database) (actor : py_value) : option Z :=
  match Integer_column (py_or actor "approver") with
  | Some a => if bool_decide (a ∈ db_users db) then Some a else None
  | None => None
  end.

End approvals.

(* ===================================================================== *)
(** ** Sell-out upload (blueprints/sell_out_blueprint/sell_out.py)        *)
(* ===================================================================== *)

(** The result of [_resolve_sku_id] on a row of the file. *)
Inductive sku_resolution : Type :=
  | SkuFound (sku_id : Z)
  | SkuNone
  | SkuError (message : string).

(** A row of the parsed file; a date or quantity that did not parse is
    None (NaT, NaN). *)
Module SellOutFile.
Record row := mk {
  RowNumber : Z;
  DocumentDate : option Z;
  SKU : sku_resolution;
  SellOutQty : option Q
}.
End SellOutFile.








(* ===================================================================== *)
(** ** Sell-in capture (blueprints/sell_in.py) and SOH upload
       (blueprints/soh.py)                                                *)
(* ===================================================================== *)

(** SP_MCSI_SellIn, the columns the ledger needs; an empty string stands
    for a missing name. *)
Module SP_MCSI_SellIn.
Record row := mk {
  SoldToParty : string;
  Article : string;
  BillingDocument : option string;
  DocumentDate : Z;
  GrossSale : option Q;
  ReturnQty : option Q
}.
End SP_MCSI_SellIn.

(** The date is written as its day ordinal. *)
Definition _idempotency_key_for_si (article billing_doc : string) (doc_date : Z) (sold_to : string)
  : string :=
  "SI:" +:+ article +:+ ":" +:+ billing_doc +:+ ":" +:+ sold_to +:+ ":" +:+ pretty doc_date.

Definition key_exists (L : list SP_InventoryLedger.row) (idem : string) : bool :=
  existsb (fun l => bool_decide (SP_InventoryLedger.IdempotencyKey l = Some idem)) L.

(** [_ensure_ledger_for_si_row]; the two look-ups of the master data are
    arguments.  The session flushes a pending row before the next query, so
    the rows are inserted as they are added. *)
Definition _ensure_ledger_for_si_row (resolve_customer resolve_sku : string -> option Z)
    (L : list SP_InventoryLedger.row) (si_row : SP_MCSI_SellIn.row)
  : list SP_InventoryLedger.row * (bool * option string) :=
  let cust_id := resolve_customer (SP_MCSI_SellIn.SoldToParty si_row) in
  let sku_id := resolve_sku (SP_MCSI_SellIn.Article si_row) in
  if negb (truthy cust_id) || negb (truthy sku_id)
  then (L, (false, Some "Mapping not found"%string))
  else
    let cust := coalesce cust_id 0 in
    let sku := coalesce sku_id 0 in
    let billing := coalesce (SP_MCSI_SellIn.BillingDocument si_row) EmptyString in
    let idem := _idempotency_key_for_si (SP_MCSI_SellIn.Article si_row) billing
                  (SP_MCSI_SellIn.DocumentDate si_row) (SP_MCSI_SellIn.SoldToParty si_row) in
    let qty := coalesce (SP_MCSI_SellIn.GrossSale si_row) 0%Q in
    let '(L1, posted1) :=
      if Qltb 0 qty && negb (key_exists L idem)
      then (ledger_insert L
              (SP_InventoryLedger.mk 0 cust sku (SP_MCSI_SellIn.DocumentDate si_row)
                 "SELLIN" None qty None (Some "SP_MCSI_SellIn"%string)
                 (Some (SP_MCSI_SellIn.Article si_row +:+ "/" +:+ billing))
                 (Some idem)), true)
      else (L, false) in
    let ret_q := coalesce (SP_MCSI_SellIn.ReturnQty si_row) 0%Q in
    let ret_qty := if Qltb ret_q 0 then ret_q else Qopp ret_q in
    let idem_ret := idem +:+ ":RET" in
    let '(L2, posted2) :=
      if negb (Qeq_bool ret_q 0) && negb (key_exists L1 idem_ret)
      then (ledger_insert L1
              (SP_InventoryLedger.mk 0 cust sku (SP_MCSI_SellIn.DocumentDate si_row)
                 "SELLIN" (Some "RETURN"%string) ret_qty None (Some "SP_MCSI_SellIn"%string)
                 (Some (SP_MCSI_SellIn.Article si_row +:+ "/" +:+ billing +:+ ":RET"))
                 (Some idem_ret)), true)
      else (L1, posted1) in
    (L2, (posted2, if posted2 then None else Some "No rows posted"%string)).


(** [_post_ledger_adjust] of the SOH upload: the ledger gets the difference
    between the declared and the previous quantity. *)
Definition _post_ledger_adjust (L : list SP_InventoryLedger.row)
    (customer_id sku_id d : Z) (new_qty old_qty : Q) (hdr_id row_num : Z)
    (movement_type : string) : list SP_InventoryLedger.row :=
  let diff := (new_qty - old_qty)%Q in
  let idem := "SOH_" +:+ movement_type +:+ ":" +:+ pretty hdr_id +:+ ":" +:+ pretty row_num in
  ledger_insert L
    (SP_InventoryLedger.mk 0 customer_id sku_id d movement_type None diff None
       (Some "SP_SOH_Uploads"%string) (Some (pretty hdr_id)) (Some idem)).

(* ===================================================================== *)
(** ** Customer status recompute (blueprints/customer_management.py)      *)
(* ===================================================================== *)

(** SP_Customer by its primary key CustomerID: the status columns. *)
Module SP_Customer.
Record row := mk {
  StatusID : Z;
  StatusDate : option Z
}.
End SP_Customer.

(** What [_recompute_customer_statuses] reads before its loop: the three
    thresholds of SP_GlobalConfig and the ids of the five statuses. *)
Record status_config := mk_status_config {
  dead_days : Z;
  hib_in_days : Z;
  hib_out_days : Z;
  sid_active : Z;
  sid_dead : Z;
  sid_disabled : Z;
  tag_in : Z;
  tag_out : Z
}.

(** The customers and SP_CustomerStatusTag, a set of (CustomerID, StatusID). *)
Record customer_db := mk_customer_db {
  customers : gmap Z SP_Customer.row;
  status_tags : gset (Z * Z)
}.

Record status_tally := mk_tally {
  PrimaryUpdated : Z;
  TagsUpdated : Z;
  SkippedDisabled : Z
}.

(** The sub-queries [last_in] and [last_out] outer-joined to a customer:
    the latest DocDate of the movement type, NULL when it never occurred. *)
Definition last_movement (L : list SP_InventoryLedger.row) (movement_type : string) (cid : Z)
  : option Z :=
  sql_max
    (List.map SP_InventoryLedger.DocDate
       (List.filter
          (fun l => String.eqb (SP_InventoryLedger.MovementType l) movement_type
                    && (SP_InventoryLedger.CustomerID l =? cid)) L)).

(** [(today - d).days if d else 10**9]. *)
Definition days_since (today : Z) (d : option Z) : Z :=
  match d with
  | Some x => today - x
  | None => 10 ^ 9
  end.

Definition want_tags (cfg : status_config) (ds_in ds_out : Z) : gset Z :=
  (if hib_in_days cfg <? ds_in then {[tag_in cfg]} else ∅)
  ∪ (if hib_out_days cfg <? ds_out then {[tag_out cfg]} else ∅).

Definition new_primary (cfg : status_config) (ds_in ds_out : Z) : Z :=
  if (dead_days cfg <? ds_in) && (dead_days cfg <? ds_out) then sid_dead cfg else sid_active cfg.

(** The StatusIDs tagged on a customer. *)
Definition tags_of (T : gset (Z * Z)) (cid : Z) : gset Z :=
  set_map snd (filter (fun p : Z * Z => p.1 = cid) T).

(** [_sync_tags]: ids that are false in Python (0) are dropped, the tags not
    wanted are deleted (all of them when nothing is wanted) and each wanted
    one is merged in. *)
Definition _sync_tags (T : gset (Z * Z)) (customer_id : Z) (want_ids : gset Z) : gset (Z * Z) :=
  let want : gset Z := filter (fun s : Z => s <> 0) want_ids in
  let T1 : gset (Z * Z) :=
    if decide (want = ∅)
    then filter (fun p : Z * Z => p.1 <> customer_id) T
    else filter (fun p : Z * Z => ~ (p.1 = customer_id /\ p.2 ∉ want)) T in
  T1 ∪ set_map (fun sid : Z => (customer_id, sid)) want.

(** One turn of the loop, for the row (cid, cur_sid, d_in, d_out). *)
Definition recompute_row (today : Z) (cfg : status_config) (L : list SP_InventoryLedger.row)
    (st : customer_db * status_tally) (row : Z * SP_Customer.row)
  : customer_db * status_tally :=
  let '(db, tally) := st in
  let cid := row.1 in
  let cur_sid := SP_Customer.StatusID row.2 in
  if cur_sid =? sid_disabled cfg
  then (db, mk_tally (PrimaryUpdated tally) (TagsUpdated tally) (SkippedDisabled tally + 1))
  else
    let ds_in := days_since today (last_movement L "SELLIN" cid) in
    let ds_out := days_since today (last_movement L "SELLOUT" cid) in
    let want := want_tags cfg ds_in ds_out in
    let primary := new_primary cfg ds_in ds_out in
    let before := tags_of (status_tags db) cid in
    let '(T, tags_updated) :=
      if decide (before <> want)
      then (_sync_tags (status_tags db) cid want, TagsUpdated tally + 1)
      else (status_tags db, TagsUpdated tally) in
    let '(C, primary_updated) :=
      if negb (cur_sid =? primary)
      then (match customers db !! cid with
            | Some _ => <[cid := SP_Customer.mk primary (Some today)]> (customers db)
            | None => customers db
            end, PrimaryUpdated tally + 1)
      else (customers db, PrimaryUpdated tally) in
    (mk_customer_db C T, mk_tally primary_updated tags_updated (SkippedDisabled tally)).

Definition _recompute_customer_statuses (today : Z) (cfg : status_config)
    (L : list SP_InventoryLedger.row) (db : customer_db) : customer_db * status_tally :=
  fold_left (recompute_row today cfg L) (map_to_list (customers db)) (db, mk_tally 0 0 0).

(* ===================================================================== *)
(** ** Vocabulary of the statements                                       *)
(* ===================================================================== *)

(** [d] is the earliest DocDate among the ledger rows selected by [p]. *)
Definition is_earliest_date (p : SP_InventoryLedger.row -> bool)
    (L : list SP_InventoryLedger.row) (d : Z) : Prop :=
  (exists l, In l L /\ p l = true /\ SP_InventoryLedger.DocDate l = d)
  /\ (forall l, In l L -> p l = true -> d <= SP_InventoryLedger.DocDate l).

(** The anchor of the aging report for customer [c]: an ADJUST row of the
    customer counted by [adj_pred]. *)
Definition aging_adjust (a : fifo_args) (c : Z) (l : SP_InventoryLedger.row) : bool :=
  adj_pred a l && (SP_InventoryLedger.CustomerID l =? c).

(** [d] is the latest DocDate among the ledger rows selected by [p]. *)
Definition is_latest_date (p : SP_InventoryLedger.row -> bool)
    (L : list SP_InventoryLedger.row) (d : Z) : Prop :=
  (exists l, In l L /\ p l = true /\ SP_InventoryLedger.DocDate l = d)
  /\ (forall l, In l L -> p l = true -> SP_InventoryLedger.DocDate l <= d).

(** An ADJUST row of the customer (of any SKU) on or before [as_of]. *)
Definition customer_adjust (c as_of : Z) (l : SP_InventoryLedger.row) : bool :=
  (SP_InventoryLedger.CustomerID l =? c)
  && String.eqb (SP_InventoryLedger.MovementType l) MOVT_ADJUST
  && (SP_InventoryLedger.DocDate l <=? as_of).

(** An ADJUST row of the customer for this SKU on or before [as_of]. *)
Definition sku_adjust (c s as_of : Z) (l : SP_InventoryLedger.row) : bool :=
  customer_adjust c as_of l && (SP_InventoryLedger.SKU_ID l =? s).

(** The signed sum of the ledger rows of (customer, SKU) selected by [p]. *)
Definition signed_sum (c s : Z) (p : SP_InventoryLedger.row -> bool)
    (L : list SP_InventoryLedger.row) : Q :=
  Qsum (List.map _signed_qty_expr
          (List.filter (fun l => (SP_InventoryLedger.CustomerID l =? c)
                                 && (SP_InventoryLedger.SKU_ID l =? s) && p l) L)).

(** The sum of the stored quantities of the ledger rows of (customer, SKU)
    selected by [p]. *)
Definition stored_sum (c s : Z) (p : SP_InventoryLedger.row -> bool)
    (L : list SP_InventoryLedger.row) : Q :=
  Qsum (List.map SP_InventoryLedger.Qty
          (List.filter (fun l => (SP_InventoryLedger.CustomerID l =? c)
                                 && (SP_InventoryLedger.SKU_ID l =? s) && p l) L)).

(** An active snapshot row of (customer, SKU). *)
Definition active_snapshot (c s : Z) (r : SP_SOH_Detail.row) : Prop :=
  SP_SOH_Detail.CustomerID r = c /\ SP_SOH_Detail.SKU_ID r = s
  /\ SP_SOH_Detail.IsActive r = true.












(** [l] is the row [r] as inserted: the same in all but its LedgerID. *)
Definition inserted_as (r l : SP_InventoryLedger.row) : Prop :=
  SP_InventoryLedger.CustomerID l = SP_InventoryLedger.CustomerID r
  /\ SP_InventoryLedger.SKU_ID l = SP_InventoryLedger.SKU_ID r
  /\ SP_InventoryLedger.DocDate l = SP_InventoryLedger.DocDate r
  /\ SP_InventoryLedger.MovementType l = SP_InventoryLedger.MovementType r
  /\ SP_InventoryLedger.MovementSubType l = SP_InventoryLedger.MovementSubType r
  /\ SP_InventoryLedger.Qty l = SP_InventoryLedger.Qty r
  /\ SP_InventoryLedger.UploadID l = SP_InventoryLedger.UploadID r
  /\ SP_InventoryLedger.RefTable l = SP_InventoryLedger.RefTable r
  /\ SP_InventoryLedger.RefID l = SP_InventoryLedger.RefID r
  /\ SP_InventoryLedger.IdempotencyKey l = SP_InventoryLedger.IdempotencyKey r.

(** The five statuses have their own, positive ids: StatusID is an
    autoincrement primary key and StatusName is unique. *)
Definition status_ids_ok (cfg : status_config) : Prop :=
  0 < tag_in cfg /\ 0 < tag_out cfg /\ tag_in cfg <> tag_out cfg
  /\ sid_active cfg <> sid_dead cfg
  /\ sid_disabled cfg <> sid_active cfg /\ sid_disabled cfg <> sid_dead cfg.

(* ===================================================================== *)
(** ** Sample data                                                        *)
(* ===================================================================== *)

Definition ledger_row (id c s d : Z) (mt : string) (q : Q) : SP_InventoryLedger.row :=
  SP_InventoryLedger.mk id c s d mt None q None None None None.

(** Customer 1 goes live on day 1 with an ADJUST of 40 on SKU 1, receives 60
    on day 10 and sells 70 on day 12; it also receives 7 of SKU 2, for which
    it never had an ADJUST.  Customer 2 has a receipt but no ADJUST at all. *)
Definition fifo_ledger : list SP_InventoryLedger.row :=
  [ ledger_row 1 1 1 1 MOVT_ADJUST 40;
    ledger_row 2 1 1 10 MOVT_SELLIN 60;
    ledger_row 3 1 1 12 MOVT_SELLOUT (-70);
    ledger_row 4 1 2 5 MOVT_SELLIN 7;
    ledger_row 5 2 1 5 MOVT_SELLIN 9 ].

Definition fifo_day20 : fifo_args :=
  mk_fifo_args 20 None None None None false (fun _ _ => true).

(** The balance scenario of the specification: ADJUST +100 on day 1,
    SELLIN +50 on day 5, SELLOUT -30 on day 10, for customer 7 and SKU 3;
    two active snapshots declared on day 1 by uploads 1 and 2. *)
Definition balance_ledger : list SP_InventoryLedger.row :=
  [ ledger_row 1 7 3 1 MOVT_ADJUST 100;
    ledger_row 2 7 3 5 MOVT_SELLIN 50;
    ledger_row 3 7 3 10 MOVT_SELLOUT (-30) ].

Definition balance_snapshots : list SP_SOH_Detail.row :=
  [ SP_SOH_Detail.mk 1 7 None 3 1 1 100 true;
    SP_SOH_Detail.mk 2 7 None 3 1 1 90 true ].


(** The preview scenario of the specification: customer 7 has 10 of SKU 3
    (snapshot of day 1, empty ledger); upload 1 holds two lines for SKU 3
    on day 5, of 4 (row 1) and 8 (row 2). *)
Definition preview_snapshots : list SP_SOH_Detail.row :=
  [ SP_SOH_Detail.mk 1 7 None 3 1 1 10 true ].

Definition preview_details : list SP_MCSI_SellOut.row :=
  [ SP_MCSI_SellOut.mk 1 3 2 5 8 true;
    SP_MCSI_SellOut.mk 1 3 1 5 4 true ].

Definition preview_upload : SP_SellOutUploads.row :=
  SP_SellOutUploads.mk 1 7 None "Draft" None.


Definition draft_db : database :=
  mk_db (<[1 := preview_upload]> ∅) preview_details [] [] {[5]}.

(** A server that converts no character string to an integer. *)
Definition no_varchar : string -> option Z := fun _ => None.




(** The status scenario of the specification: thresholds dead = 90,
    hib_in = 30, hib_out = 30; statuses Active = 1, DEAD = 2, Disabled = 3,
    Hibernating-Sell-in = 4, Hibernating-Sell-out = 5; today is day 1000;
    customer 1, Active, last bought 40 days ago and last sold 100 days ago;
    customer 2 is Disabled. *)
Definition status_cfg : status_config := mk_status_config 90 30 30 1 2 3 4 5.

Definition status_ledger : list SP_InventoryLedger.row :=
  [ ledger_row 1 1 3 960 MOVT_SELLIN 10;
    ledger_row 2 1 3 900 MOVT_SELLOUT (-5) ].

Definition status_db : customer_db :=
  mk_customer_db
    (<[1 := SP_Customer.mk 1 None]> (<[2 := SP_Customer.mk 3 None]> ∅))
    ∅.

(* ===================================================================== *)
(** ** Further definitions: the columns and routes around the core        *)
(* ===================================================================== *)

(** Conventions of this part, besides those above
    - the session of models.py is made with autoflush=False: a query reads
      the rows of the database, not the objects added to the session and not
      yet flushed; [Query.update] and [Query.delete] run at once, and
      [Query.get] returns the object of the session with its attributes as
      last set;
    - the queries are those of a caller who sees every row: the criteria that
      models.py adds for the other roles are not modelled;
    - an autoincrement key gets the value after the largest one of the
      table;
    - a request starts with a session that holds nothing uncommitted, so
      that a rollback undoes the changes of the transaction and no more;
    - the sizes of the character columns are not modelled: the comment of a
      request fits the 1000 characters of its column. *)

(** *** FIFO aging: the computed column of [bucket_stmt] *)

(** [avg_age_days]: weighted_age_sum / soh_qty when soh_qty > 0, else NULL. *)
Definition avg_age_days (b : Buckets.row) : option Q :=
  if Qltb 0 (Buckets.soh_qty b)
  then Some (Buckets.weighted_age_sum b / Buckets.soh_qty b)%Q
  else None.

Definition bucket_pair (b : Buckets.row) : Z * Z :=
  (Buckets.CustomerID b, Buckets.SKU_ID b).

(** The arguments [a] with another value of the flag only_positive_soh. *)
Definition with_only_positive_soh (a : fifo_args) (flag : bool) : fifo_args :=
  mk_fifo_args (as_of_date a) (customer_id a) (sku_id a) (min_age a) (max_age a) flag
    (visible a).

(** The arguments [a] with other age filters. *)
Definition with_ages (a : fifo_args) (mn mx : option Z) : fifo_args :=
  mk_fifo_args (as_of_date a) (customer_id a) (sku_id a) mn mx (only_positive_soh a)
    (visible a).

(** What is left of [total] after [x] was taken from it, but not below 0
    nor above [total]: how much of the receipts the issues consume. *)
Definition clampQ (x total : Q) : Q :=
  if Qle_bool x 0 then 0%Q else if Qle_bool total x then total else x.

(** *** The general report: chunks, sums, initial bucket, prices
        (blueprints/reports_blueprint/sales_pulse_general_working before
         muliple brand soh change.py) *)

(** [_chunks]: the generator, as the list of the chunks it yields;
    [islice(it, size)] takes the next [size] items. *)
Equations? _chunks {A : Type} (iterable : list A) (size : nat) : list (list A)
  by wf (length iterable) lt :=
  _chunks l size with inspect (take size l) := {
    | exist _ [] _ => [];
    | exist _ (x :: chunk) H => (x :: chunk) :: _chunks (drop size l) size }.
Proof.
  rewrite length_drop.
  assert (Hl : length (take size l) = S (length chunk)) by (rewrite H; reflexivity).
  rewrite length_take in Hl. lia.
Qed.

(** [_sum_movement_abs]: the quantity of one movement type in the window;
    for SELLIN only the positive rows count, for the others the magnitude
    of every row.  [if start_date:] is false for None only. *)
Definition _sum_movement_abs (L : list SP_InventoryLedger.row)
    (customer_id sku_id : Z) (start_date end_date : option Z) (movement_type : string) : Q :=
  let expr : SP_InventoryLedger.row -> Q :=
    if String.eqb movement_type "SELLIN"
    then fun l => if Qltb 0 (SP_InventoryLedger.Qty l) then SP_InventoryLedger.Qty l else 0%Q
    else fun l => Qabs (SP_InventoryLedger.Qty l) in
  let q := List.filter
             (fun l => (SP_InventoryLedger.CustomerID l =? customer_id)
                       && (SP_InventoryLedger.SKU_ID l =? sku_id)
                       && String.eqb (SP_InventoryLedger.MovementType l) movement_type) L in
  let q := match start_date with
           | Some d => List.filter (fun l => d <=? SP_InventoryLedger.DocDate l) q
           | None => q
           end in
  let q := match end_date with
           | Some d => List.filter (fun l => SP_InventoryLedger.DocDate l <=? d) q
           | None => q
           end in
  coalesce (sql_sum (List.map expr q)) 0%Q.

(** [_sum_returns_abs]: the magnitude of the negative SELLIN rows. *)
Definition _sum_returns_abs (L : list SP_InventoryLedger.row)
    (customer_id sku_id : Z) (start_date end_date : option Z) : Q :=
  let q := List.filter
             (fun l => (SP_InventoryLedger.CustomerID l =? customer_id)
                       && (SP_InventoryLedger.SKU_ID l =? sku_id)
                       && String.eqb (SP_InventoryLedger.MovementType l) "SELLIN"
                       && Qltb (SP_InventoryLedger.Qty l) 0) L in
  let q := match start_date with
           | Some d => List.filter (fun l => d <=? SP_InventoryLedger.DocDate l) q
           | None => q
           end in
  let q := match end_date with
           | Some d => List.filter (fun l => SP_InventoryLedger.DocDate l <=? d) q
           | None => q
           end in
  coalesce (sql_sum (List.map (fun l => Qabs (SP_InventoryLedger.Qty l)) q)) 0%Q.

(** [_sum_consumers_since_anchor]: all SELLOUT and all returns (negative
    SELLIN) between the anchor and [until_incl], in magnitude. *)
Definition _sum_consumers_since_anchor (L : list SP_InventoryLedger.row)
    (customer_id sku_id : Z) (anchor_date until_incl : Z) : Q :=
  let selout_abs :=
    coalesce
      (sql_sum
         (List.map (fun l => Qabs (SP_InventoryLedger.Qty l))
            (List.filter
               (fun l => (SP_InventoryLedger.CustomerID l =? customer_id)
                         && (SP_InventoryLedger.SKU_ID l =? sku_id)
                         && String.eqb (SP_InventoryLedger.MovementType l) "SELLOUT"
                         && (anchor_date <=? SP_InventoryLedger.DocDate l)
                         && (SP_InventoryLedger.DocDate l <=? until_incl)) L)))
      0%Q in
  let returns_abs :=
    coalesce
      (sql_sum
         (List.map (fun l => Qabs (SP_InventoryLedger.Qty l))
            (List.filter
               (fun l => (SP_InventoryLedger.CustomerID l =? customer_id)
                         && (SP_InventoryLedger.SKU_ID l =? sku_id)
                         && String.eqb (SP_InventoryLedger.MovementType l) "SELLIN"
                         && Qltb (SP_InventoryLedger.Qty l) 0
                         && (anchor_date <=? SP_InventoryLedger.DocDate l)
                         && (SP_InventoryLedger.DocDate l <=? until_incl)) L)))
      0%Q in
  (selout_abs + returns_abs)%Q.

(** Python's [min(a, b)] and [max(a, b)] on two numbers: the first
    argument unless the second is smaller (larger). *)
Definition py_min (a b : Q) : Q := if Qltb b a then b else a.
Definition py_max (a b : Q) : Q := if Qltb a b then b else a.

(** The dictionary [_initial_bucket_numbers] returns. *)
Module InitialBucket.
Record row := mk {
  InitialSOHDate : option Z;
  InitialSOHTotal : option Q;
  InitialSOHConsumed : option Q;
  InitialSOHBalance : option Q;
  SellOutSinceAnchor : option Q
}.
End InitialBucket.

Definition _initial_bucket_numbers (L : list SP_InventoryLedger.row)
    (S : list SP_SOH_Detail.row) (customer_id sku_id : Z) (as_of : Z) : InitialBucket.row :=
  match _effective_anchor_for_sku L customer_id sku_id as_of with
  | None => InitialBucket.mk None None None None None
  | Some anchor_date =>
      let consumers_abs :=
        _sum_consumers_since_anchor L customer_id sku_id anchor_date as_of in
      let '(base_qty, had_snap) := _snapshot_qty_on_date S customer_id sku_id anchor_date in
      let init_total :=
        if had_snap
        then (base_qty + _sum_signed_on_date_excl_adjust L customer_id sku_id anchor_date)%Q
        else
          let has_adj_on_anchor :=
            (0 <? Z.of_nat
                    (length
                       (List.filter
                          (fun l => (SP_InventoryLedger.CustomerID l =? customer_id)
                                    && (SP_InventoryLedger.SKU_ID l =? sku_id)
                                    && String.eqb (SP_InventoryLedger.MovementType l) "ADJUST"
                                    && (SP_InventoryLedger.DocDate l =? anchor_date)) L))) in
          if has_adj_on_anchor
          then _sum_signed_inclusive L customer_id sku_id anchor_date anchor_date
          else 0%Q in
      let consumed := py_min consumers_abs init_total in
      let balance := py_max 0%Q (init_total - consumed)%Q in
      InitialBucket.mk (Some anchor_date) (Some init_total) (Some consumed) (Some balance)
        (Some consumers_abs)
  end.

(** ORDER BY DocDate ASC. *)
Definition docdate_le (x y : SP_InventoryLedger.row) : Prop :=
  (SP_InventoryLedger.DocDate x <=? SP_InventoryLedger.DocDate y) = true.

#[global] Instance docdate_le_dec : RelDecision docdate_le.
Proof. intros x y. unfold docdate_le. apply _. Defined.

(** [a or b] on optional numbers: [a] unless it is None or 0. *)
Definition py_or_Q (a b : option Q) : option Q :=
  match a with
  | Some x => if Qeq_bool x 0 then b else a
  | None => b
  end.

(** The local variables of the loop of [_sellin_price_stats_in_range]. *)
Record price_state := mk_price_state {
  sum_qty : Q;
  sum_pxq : Q;
  hi : option Q;
  lo : option Q;
  last_price : option Q;
  last_dt : option Z
}.

(** One turn of the loop.  [unit_price_col] and [value_col] are what
    [getattr(SP_InventoryLedger, ..., None)] gives: the column when the model
    has it (its value may be NULL), None otherwise. *)
Definition price_row (unit_price_col value_col : option (SP_InventoryLedger.row -> option Q))
    (st : price_state) (row : SP_InventoryLedger.row) : price_state :=
  let qty := SP_InventoryLedger.Qty row in
  let docdate := SP_InventoryLedger.DocDate row in
  let unit_price := match unit_price_col with Some col => col row | None => None end in
  let total_value := match value_col with Some col => col row | None => None end in
  let up :=
    match unit_price with
    | Some p => Some p
    | None =>
        match total_value with
        | Some v => if Qeq_bool qty 0 then None else Some (v / qty)%Q
        | None => None
        end
    end in
  match up with
  | None => st
  | Some up =>
      let '(sq, sp) :=
        if Qltb 0 qty then ((sum_qty st + qty)%Q, (sum_pxq st + qty * up)%Q)
        else (sum_qty st, sum_pxq st) in
      let hi' := match hi st with
                 | None => Some up
                 | Some h => if Qltb h up then Some up else Some h
                 end in
      let lo' := match lo st with
                 | None => Some up
                 | Some l => if Qltb up l then Some up else Some l
                 end in
      let '(lp, ld) :=
        match last_dt st with
        | None => (Some up, Some docdate)
        | Some d => if d <? docdate then (Some up, Some docdate) else (last_price st, last_dt st)
        end in
      mk_price_state sq sp hi' lo' lp ld
  end.

(** [_sellin_price_stats_in_range]: (avg_price, hi, lo, last_price). *)
Definition _sellin_price_stats_in_range
    (unit_price_col value_col : option (SP_InventoryLedger.row -> option Q))
    (L : list SP_InventoryLedger.row) (customer_id sku_id : Z)
    (start_date end_date : option Z) : option Q * option Q * option Q * option Q :=
  let q := List.filter
             (fun l => (SP_InventoryLedger.CustomerID l =? customer_id)
                       && (SP_InventoryLedger.SKU_ID l =? sku_id)
                       && String.eqb (SP_InventoryLedger.MovementType l) MOVT_SELLIN) L in
  let q := match start_date with
           | Some d => List.filter (fun l => d <=? SP_InventoryLedger.DocDate l) q
           | None => q
           end in
  let q := match end_date with
           | Some d => List.filter (fun l => SP_InventoryLedger.DocDate l <=? d) q
           | None => q
           end in
  match merge_sort docdate_le q with
  | [] => (None, None, None, None)
  | rows =>
      let st := fold_left (price_row unit_price_col value_col) rows
                  (mk_price_state 0 0 None None None None) in
      let avg_price :=
        if Qltb 0 (sum_qty st) then Some (sum_pxq st / sum_qty st)%Q
        else py_or_Q (py_or_Q (last_price st) (hi st)) (lo st) in
      (avg_price, hi st, lo st, last_price st)
  end.

(** SP_InventoryLedger of models.py has neither a UnitPrice nor a Value
    column. *)
Definition ledger_UnitPrice : option (SP_InventoryLedger.row -> option Q) := None.
Definition ledger_Value : option (SP_InventoryLedger.row -> option Q) := None.

(** The price block of one row of [list_rows]: the four prices and
    [sellin_value = sellin_qty * avg_p] when there is an average. *)
Definition list_rows_prices (L : list SP_InventoryLedger.row) (cid sid : Z)
    (date_from date_to : option Z) : option Q * option Q * option Q * option Q * option Q :=
  let '(avg_p, hi_p, lo_p, last_p) :=
    _sellin_price_stats_in_range ledger_UnitPrice ledger_Value L cid sid date_from date_to in
  let sellin_qty := _sum_movement_abs L cid sid date_from date_to MOVT_SELLIN in
  let sellin_value := match avg_p with
                      | Some p => Some (sellin_qty * p)%Q
                      | None => None
                      end in
  (avg_p, hi_p, lo_p, last_p, sellin_value).

(** The optional bounds [date_from, date_to] of the report. *)
Definition in_window (start_date end_date : option Z) (d : Z) : bool :=
  match start_date with Some d0 => d0 <=? d | None => true end
  && match end_date with Some d1 => d <=? d1 | None => true end.

(** What the active lines of an upload sell of one SKU on the dates
    selected by [p], in magnitude. *)
Definition upload_sold (details : list SP_MCSI_SellOut.row) (sku : Z) (p : Z -> bool) : Q :=
  Qsum (List.map (fun d => Qabs (SP_MCSI_SellOut.SellOutQty d))
          (List.filter (fun d => (SP_MCSI_SellOut.SKU_ID d =? sku)
                                 && p (SP_MCSI_SellOut.DocumentDate d)) details)).

(** [l] is the SELLOUT row that customer [cu] gets for the line [d]. *)
Definition posted_for (cu : Z) (d : SP_MCSI_SellOut.row) (l : SP_InventoryLedger.row) : Prop :=
  SP_InventoryLedger.CustomerID l = cu
  /\ SP_InventoryLedger.SKU_ID l = SP_MCSI_SellOut.SKU_ID d
  /\ SP_InventoryLedger.DocDate l = SP_MCSI_SellOut.DocumentDate d
  /\ SP_InventoryLedger.MovementType l = MOVT_SELLOUT
  /\ SP_InventoryLedger.Qty l = Qopp (SP_MCSI_SellOut.SellOutQty d).

(** *** Sell-out approvals: reject and submit
        (blueprints/sell_out_blueprint/sell_out_approvals.py) *)

(** [x or default] on an optional string. *)
Definition opt_str_or (x : option string) (d : string) : string :=
  match x with
  | Some s => str_or s d
  | None => d
  end.

(** What [reject_uploads] answers: 400 when no id is given, 404 when an id
    is unknown, the exception of a failed commit, which [_tx] raises again,
    else the list [rejected]. *)
Inductive reject_response : Type :=
  | RejectBadRequest
  | RejectNotFound
  | RejectCommitError
  | RejectOk (rejected : list Z).

(** The Status of an upload as the session holds it: as last set in the
    transaction, else as loaded. *)
Fixpoint session_status (ws : list pending) (upload_id : Z) (loaded : string) : string :=
  match ws with
  | [] => loaded
  | SetStatus id status :: rest =>
      session_status rest upload_id (if id =? upload_id then status else loaded)
  | _ :: rest => session_status rest upload_id loaded
  end.

Inductive submit_outcome : Type :=
  | Submitted
  | SubmitSkipped (status : string)
  | SubmitFailed (error : error_text).

Section reject_and_submit.

Variable int_of_varchar : string -> option Z.

(** [_write_approval]. *)
Definition _write_approval (upload_id : Z) (action : string) (actor : py_value)
    (comment : option string) : pending :=
  AddApproval upload_id action (py_or actor "system") comment.

(** One turn of the loop of [reject_uploads], from what the session holds
    already; None is the abort of [_get_upload_or_404]. *)
Definition reject_one (actor : py_value) (comment : string) (db : database)
    (ws : list pending) (upload_id : Z) : option (list pending) :=
  match _get_upload_or_404 db upload_id with
  | None => None
  | Some u =>
      if negb (String.eqb (session_status ws upload_id (SP_SellOutUploads.Status u)) "Draft")
      then Some ws
      else Some (ws ++ [SetStatus upload_id "Rejected";
                        SetApprovedBy upload_id PyNone;
                        _write_approval upload_id "REJECT" actor (Some comment)])
  end.

(** The loop of [reject_uploads]: once aborted, nothing more is done. *)
Definition reject_step (actor : py_value) (comment : string) (db : database)
    (st : option (list pending)) (upload_id : Z) : option (list pending) :=
  match st with
  | Some ws => reject_one actor comment db ws upload_id
  | None => None
  end.

(** [reject_uploads]: all the ids in one transaction, which an abort or a
    failed commit rolls back; the answer lists every id asked for. *)
Definition reject_uploads (actor : py_value) (comment : option string)
    (db : database) (ids : list Z) : database * reject_response :=
  let comment := opt_str_or comment "Rejected" in
  let actor := py_or actor "approver" in
  match ids with
  | [] => (db, RejectBadRequest)
  | _ :: _ =>
      match fold_left (reject_step actor comment db) ids (Some []) with
      | Some ws =>
          match commit int_of_varchar db ws with
          | Some db' => (db', RejectOk ids)
          | None => (db, RejectCommitError)
          end
      | None => (db, RejectNotFound)
      end
  end.

(** One turn of the loop of [submit_bulk], committed on its own; a failed
    commit is rolled back and the id is listed as failed. *)
Definition submit_one (actor : py_value) (comment : option string)
    (db : database) (upload_id : Z) : database * submit_outcome :=
  match db_uploads db !! upload_id with
  | None => (db, SubmitFailed (Message "not found"))
  | Some u =>
      if negb (String.eqb (SP_SellOutUploads.Status u) "Draft"
               || String.eqb (SP_SellOutUploads.Status u) "Rejected")
      then (db, SubmitSkipped (SP_SellOutUploads.Status u))
      else
        match commit int_of_varchar db
                [SetStatus upload_id "Draft"; AddApproval upload_id "SUBMIT" actor comment] with
        | Some db' => (db', Submitted)
        | None => (db, SubmitFailed DriverMessage)
        end
  end.

Definition submit_step (actor : py_value) (comment : option string)
    (st : database * (list Z * list (Z * string) * list (Z * error_text))) (upload_id : Z)
  : database * (list Z * list (Z * string) * list (Z * error_text)) :=
  let '(db, (submitted, skipped, failed)) := st in
  match submit_one actor comment db upload_id with
  | (db', Submitted) => (db', (submitted ++ [upload_id], skipped, failed))
  | (db', SubmitSkipped status) => (db', (submitted, skipped ++ [(upload_id, status)], failed))
  | (db', SubmitFailed e) => (db', (submitted, skipped, failed ++ [(upload_id, e)]))
  end.

(** [submit_bulk]; None is the answer 400 when no id is given. *)
Definition submit_bulk (actor : py_value) (comment : option string)
    (db : database) (ids : list Z)
  : database * option (list Z * list (Z * string) * list (Z * error_text)) :=
  match ids with
  | [] => (db, None)
  | _ :: _ =>
      let '(db', lists) :=
        fold_left (submit_step (py_or actor "uploader") comment) ids (db, ([], [], [])) in
      (db', Some lists)
  end.

End reject_and_submit.











(** What the lines [details] carry of a SKU, as entered, over the dates
    that [p] selects. *)
Definition upload_qty (details : list SP_MCSI_SellOut.row) (sku : Z) (p : Z -> bool) : Q :=
  Qsum (List.map SP_MCSI_SellOut.SellOutQty
          (List.filter (fun d => (SP_MCSI_SellOut.SKU_ID d =? sku)
                                 && p (SP_MCSI_SellOut.DocumentDate d)) details)).

(** *** Sell-in: back-fill and deletion of a date window
        (blueprints/sell_in.py) *)

(** ORDER BY DocumentDate of the captured rows. *)
Definition si_date_le (x y : SP_MCSI_SellIn.row) : Prop :=
  SP_MCSI_SellIn.DocumentDate x <= SP_MCSI_SellIn.DocumentDate y.

#[global] Instance si_date_le_dec : RelDecision si_date_le.
Proof. intros x y. unfold si_date_le. apply _. Defined.

Definition si_in_window (start end_ : Z) (r : SP_MCSI_SellIn.row) : bool :=
  (start <=? SP_MCSI_SellIn.DocumentDate r) && (SP_MCSI_SellIn.DocumentDate r <=? end_).

(** The captured rows of the window, as the query of [backfill_ledger]
    returns them. *)
Definition si_window (start end_ : Z) (SI : list SP_MCSI_SellIn.row) : list SP_MCSI_SellIn.row :=
  merge_sort si_date_le (List.filter (si_in_window start end_) SI).

(** The counters [created], [skipped] and [missing] of [backfill_ledger]. *)
Record backfill_counts := mk_backfill_counts {
  created : Z;
  skipped : Z;
  missing_mapping : Z
}.

(** [_ensure_ledger_for_si_row] inside a transaction: the rows it adds to
    the session and its answer, when the ledger in the database is [L].  The
    session is made with autoflush=False (models.py), so the two look-ups of
    the key read the database and not the rows added before the commit. *)
Definition _ensure_ledger_for_si_row_pending (resolve_customer resolve_sku : string -> option Z)
    (L : list SP_InventoryLedger.row) (si_row : SP_MCSI_SellIn.row)
  : list SP_InventoryLedger.row * (bool * option string) :=
  let cust_id := resolve_customer (SP_MCSI_SellIn.SoldToParty si_row) in
  let sku_id := resolve_sku (SP_MCSI_SellIn.Article si_row) in
  if negb (truthy cust_id) || negb (truthy sku_id)
  then ([], (false, Some "Mapping not found"%string))
  else
    let cust := coalesce cust_id 0 in
    let sku := coalesce sku_id 0 in
    let billing := coalesce (SP_MCSI_SellIn.BillingDocument si_row) EmptyString in
    let idem := _idempotency_key_for_si (SP_MCSI_SellIn.Article si_row) billing
                  (SP_MCSI_SellIn.DocumentDate si_row) (SP_MCSI_SellIn.SoldToParty si_row) in
    let qty := coalesce (SP_MCSI_SellIn.GrossSale si_row) 0%Q in
    let '(added1, posted1) :=
      if Qltb 0 qty && negb (key_exists L idem)
      then ([SP_InventoryLedger.mk 0 cust sku (SP_MCSI_SellIn.DocumentDate si_row)
               "SELLIN" None qty None (Some "SP_MCSI_SellIn"%string)
               (Some (SP_MCSI_SellIn.Article si_row +:+ "/" +:+ billing))
               (Some idem)], true)
      else ([], false) in
    let ret_q := coalesce (SP_MCSI_SellIn.ReturnQty si_row) 0%Q in
    let ret_qty := if Qltb ret_q 0 then ret_q else Qopp ret_q in
    let idem_ret := idem +:+ ":RET" in
    let '(added2, posted2) :=
      if negb (Qeq_bool ret_q 0) && negb (key_exists L idem_ret)
      then (added1 ++
              [SP_InventoryLedger.mk 0 cust sku (SP_MCSI_SellIn.DocumentDate si_row)
                 "SELLIN" (Some "RETURN"%string) ret_qty None (Some "SP_MCSI_SellIn"%string)
                 (Some (SP_MCSI_SellIn.Article si_row +:+ "/" +:+ billing +:+ ":RET"))
                 (Some idem_ret)], true)
      else (added1, posted1) in
    (added2, (posted2, if posted2 then None else Some "No rows posted"%string)).

(** One turn of the loop of [backfill_ledger]: [L] is the ledger in the
    database, the state holds the rows added to the session so far. *)
Definition backfill_step (resolve_customer resolve_sku : string -> option Z)
    (L : list SP_InventoryLedger.row)
    (st : list SP_InventoryLedger.row * backfill_counts) (si : SP_MCSI_SellIn.row)
  : list SP_InventoryLedger.row * backfill_counts :=
  let '(pending, n) := st in
  let '(added, (made, msg)) :=
    _ensure_ledger_for_si_row_pending resolve_customer resolve_sku L si in
  if made
  then (pending ++ added, mk_backfill_counts (created n + 1) (skipped n) (missing_mapping n))
  else if bool_decide (msg = Some "Mapping not found"%string)
       then (pending ++ added,
             mk_backfill_counts (created n) (skipped n) (missing_mapping n + 1))
       else (pending ++ added,
             mk_backfill_counts (created n) (skipped n + 1) (missing_mapping n)).

(** [backfill_ledger] on the window from [start] to [end_]; [commit_ok] is
    the answer of [_safe_commit], which inserts the rows of the session, and
    None the answer 500 after the rollback. *)
Definition backfill_ledger (resolve_customer resolve_sku : string -> option Z)
    (start end_ : Z) (SI : list SP_MCSI_SellIn.row) (commit_ok : bool)
    (L : list SP_InventoryLedger.row)
  : list SP_InventoryLedger.row * option backfill_counts :=
  let rows := si_window start end_ SI in
  let '(pending, n) := fold_left (backfill_step resolve_customer resolve_sku L) rows
                         ([], mk_backfill_counts 0 0 0) in
  if commit_ok then (fold_left ledger_insert pending L, Some n) else (L, None).

(** The ledger rows that [delete_sellin] and [capture_now] delete. *)
Definition from_sellin_in_window (start end_ : Z) (l : SP_InventoryLedger.row) : bool :=
  String.eqb (SP_InventoryLedger.MovementType l) "SELLIN"
  && bool_decide (SP_InventoryLedger.RefTable l = Some "SP_MCSI_SellIn"%string)
  && (start <=? SP_InventoryLedger.DocDate l)
  && (SP_InventoryLedger.DocDate l <=? end_).

(** [delete_sellin]: the captured rows and the ledger after the two DELETE
    statements. *)
Definition delete_sellin (start end_ : Z)
    (st : list SP_MCSI_SellIn.row * list SP_InventoryLedger.row)
  : list SP_MCSI_SellIn.row * list SP_InventoryLedger.row :=
  (List.filter (fun r => negb (si_in_window start end_ r)) (fst st),
   List.filter (fun l => negb (from_sellin_in_window start end_ l)) (snd st)).

(** The rows that [_ensure_ledger_for_si_row] adds for a captured row. *)
Definition si_posted (r : SP_MCSI_SellIn.row) (l : SP_InventoryLedger.row) : Prop :=
  SP_InventoryLedger.MovementType l = MOVT_SELLIN
  /\ SP_InventoryLedger.RefTable l = Some "SP_MCSI_SellIn"%string
  /\ SP_InventoryLedger.DocDate l = SP_MCSI_SellIn.DocumentDate r
  /\ SP_InventoryLedger.UploadID l = None.

(** The two keys of a captured row with a mapping are in the ledger where
    the row needs them. *)
Definition si_covered (resolve_customer resolve_sku : string -> option Z)
    (L : list SP_InventoryLedger.row) (r : SP_MCSI_SellIn.row) : Prop :=
  let idem := _idempotency_key_for_si (SP_MCSI_SellIn.Article r)
                (coalesce (SP_MCSI_SellIn.BillingDocument r) EmptyString)
                (SP_MCSI_SellIn.DocumentDate r) (SP_MCSI_SellIn.SoldToParty r) in
  negb (truthy (resolve_customer (SP_MCSI_SellIn.SoldToParty r)))
  || negb (truthy (resolve_sku (SP_MCSI_SellIn.Article r))) = false ->
  (Qltb 0 (coalesce (SP_MCSI_SellIn.GrossSale r) 0%Q) = true -> key_exists L idem = true)
  /\ (Qeq_bool (coalesce (SP_MCSI_SellIn.ReturnQty r) 0%Q) 0 = false ->
      key_exists L (idem +:+ ":RET") = true).

(** The answer of [_ensure_ledger_for_si_row] when it posts nothing. *)
Definition si_nothing (resolve_customer resolve_sku : string -> option Z)
    (r : SP_MCSI_SellIn.row) : bool * option string :=
  if negb (truthy (resolve_customer (SP_MCSI_SellIn.SoldToParty r)))
     || negb (truthy (resolve_sku (SP_MCSI_SellIn.Article r)))
  then (false, Some "Mapping not found"%string)
  else (false, Some "No rows posted"%string).

(** [not cust_id or not sku_id] for a captured row. *)
Definition si_unmapped (resolve_customer resolve_sku : string -> option Z)
    (r : SP_MCSI_SellIn.row) : bool :=
  negb (truthy (resolve_customer (SP_MCSI_SellIn.SoldToParty r)))
  || negb (truthy (resolve_sku (SP_MCSI_SellIn.Article r))).

(** *** Customer statuses: what a second recompute finds *)

(** The row of a customer needs no update: it is Disabled, or its primary
    status and its tags are what the recompute would set. *)
Definition status_settled (today : Z) (cfg : status_config) (L : list SP_InventoryLedger.row)
    (db : customer_db) (row : Z * SP_Customer.row) : Prop :=
  SP_Customer.StatusID row.2 = sid_disabled cfg
  \/ (SP_Customer.StatusID row.2
      = new_primary cfg (days_since today (last_movement L "SELLIN" row.1))
          (days_since today (last_movement L "SELLOUT" row.1))
      /\ tags_of (status_tags db) row.1
         = want_tags cfg (days_since today (last_movement L "SELLIN" row.1))
             (days_since today (last_movement L "SELLOUT" row.1))).

Definition is_disabled (cfg : status_config) (row : Z * SP_Customer.row) : bool :=
  SP_Customer.StatusID row.2 =? sid_disabled cfg.

(** *** The ids of the five statuses ([_get_status_id]) *)

(** SP_Status: StatusID is an autoincrement primary key. *)
Module SP_Status.
Record row := mk {
  StatusID : Z;
  StatusName : string
}.
End SP_Status.

Definition next_StatusID (T : list SP_Status.row) : Z :=
  1 + fold_right Z.max 0 (List.map SP_Status.StatusID T).

(** [_get_status_id]: the id of the status of that name, which is created
    when it is missing; the table comes back with the id. *)
Definition _get_status_id (T : list SP_Status.row) (name : string) : list SP_Status.row * Z :=
  match List.find (fun s => String.eqb (SP_Status.StatusName s) name) T with
  | Some s => (T, SP_Status.StatusID s)
  | None => (T ++ [SP_Status.mk (next_StatusID T) name], next_StatusID T)
  end.

(** The five look-ups at the head of [_recompute_customer_statuses], in
    their order, with the three thresholds already read. *)
Definition recompute_config (dead hib_in hib_out : Z) (T : list SP_Status.row)
  : list SP_Status.row * status_config :=
  let '(T1, sid_active) := _get_status_id T "Active" in
  let '(T2, sid_dead) := _get_status_id T1 "DEAD" in
  let '(T3, sid_disabled) := _get_status_id T2 "Disabled" in
  let '(T4, tag_in) := _get_status_id T3 "Hibernating-Sell-in" in
  let '(T5, tag_out) := _get_status_id T4 "Hibernating-Sell-out" in
  (T5, mk_status_config dead hib_in hib_out sid_active sid_dead sid_disabled tag_in tag_out).

(** The primary key of SP_Status: the ids are positive and differ. *)
Definition status_table_ok (T : list SP_Status.row) : Prop :=
  NoDup (List.map SP_Status.StatusID T) /\ Forall (fun s => 0 < SP_Status.StatusID s) T.

(** The first row of the table of that name has this id. *)
Definition status_named (T : list SP_Status.row) (name : string) (id : Z) : Prop :=
  exists s, List.find (fun s => String.eqb (SP_Status.StatusName s) name) T = Some s
            /\ SP_Status.StatusID s = id.

(** *** The customer hierarchy ([set_parent], [reparent_children]) *)

(** SP_Customer by its primary key CustomerID: the hierarchy columns. *)
Module SP_CustomerNode.
Record row := mk {
  LevelType : string;
  ParentCustID : option Z
}.
End SP_CustomerNode.

(** [_is_ho]. *)
Definition _is_ho (H : gmap Z SP_CustomerNode.row) (customer_id : Z) : bool :=
  match H !! customer_id with
  | Some r => String.eqb (SP_CustomerNode.LevelType r) "HO"
  | None => false
  end.

(** The answers of the two routes: 200, with the number of rows moved for
    [reparent_children], 400 and 404 with their message. *)
Inductive tree_response : Type :=
  | TreeOk (moved : option Z)
  | TreeBadRequest (error : string)
  | TreeNotFound (error : string).

(** [set_parent]; [parent_id] is the entry of the payload, None for null. *)
Definition set_parent (H : gmap Z SP_CustomerNode.row) (child_id : Z) (parent_id : option Z)
  : gmap Z SP_CustomerNode.row * tree_response :=
  match H !! child_id with
  | None => (H, TreeNotFound "Child not found")
  | Some child =>
      match parent_id with
      | None =>
          (<[child_id := SP_CustomerNode.mk (SP_CustomerNode.LevelType child) None]> H,
           TreeOk None)
      | Some p =>
          if p =? child_id then (H, TreeBadRequest "Cannot parent to self")
          else if negb (_is_ho H p) then (H, TreeBadRequest "Parent must be HO")
          else (<[child_id := SP_CustomerNode.mk (SP_CustomerNode.LevelType child) (Some p)]> H,
                TreeOk None)
      end
  end.

(** The rows that the UPDATE of [reparent_children] matches. *)
Definition child_of (old_pid : Z) (r : SP_CustomerNode.row) : bool :=
  bool_decide (SP_CustomerNode.ParentCustID r = Some old_pid).

(** [reparent_children]. *)
Definition reparent_children (H : gmap Z SP_CustomerNode.row) (old_parent_id new_parent_id : option Z)
  : gmap Z SP_CustomerNode.row * tree_response :=
  if negb (truthy old_parent_id && truthy new_parent_id)
  then (H, TreeBadRequest "old_parent_id and new_parent_id are required")
  else
    let old_pid := coalesce old_parent_id 0 in
    let new_pid := coalesce new_parent_id 0 in
    if old_pid =? new_pid then (H, TreeBadRequest "old and new cannot be same")
    else if negb (_is_ho H old_pid) || negb (_is_ho H new_pid)
         then (H, TreeBadRequest "Both must be HO")
         else
           (fmap (fun r => if child_of old_pid r
                           then SP_CustomerNode.mk (SP_CustomerNode.LevelType r) (Some new_pid)
                           else r) H,
            TreeOk (Some (Z.of_nat (length (List.filter (fun kr => child_of old_pid kr.2)
                                              (map_to_list H)))))).

(** Every parent is an HO customer of the table. *)
Definition parents_are_HO (H : gmap Z SP_CustomerNode.row) : Prop :=
  forall c r p, H !! c = Some r -> SP_CustomerNode.ParentCustID r = Some p -> _is_ho H p = true.

(** No customer is its own parent. *)
Definition no_self_parent (H : gmap Z SP_CustomerNode.row) : Prop :=
  forall c r, H !! c = Some r -> SP_CustomerNode.ParentCustID r <> Some c.

(** A head office with two branches, and a second head office under the
    first. *)
Definition sample_tree : gmap Z SP_CustomerNode.row :=
  <[1 := SP_CustomerNode.mk "HO" None]>
    (<[2 := SP_CustomerNode.mk "Branch" (Some 1)]>
       (<[3 := SP_CustomerNode.mk "Branch" (Some 1)]>
          (<[4 := SP_CustomerNode.mk "HO" (Some 1)]> ∅))).

(** *** SOH upload: one brand of the file (blueprints/soh.py) *)

(** SP_SOH_Uploads, the header of a snapshot. *)
Module SP_SOH_Uploads.
Record row := mk {
  SOHUploadID : Z;
  CustomerID : Z;
  SnapshotType : string;
  Brand : option string;
  Date : Z;
  Status : string;
  SupersededByUploadID : option Z
}.
End SP_SOH_Uploads.

(** The headers and the details (joined with their header, as above) of the
    snapshots, and the ledger. *)
Record soh_db := mk_soh_db {
  soh_uploads : list SP_SOH_Uploads.row;
  soh_details : list SP_SOH_Detail.row;
  soh_ledger : list SP_InventoryLedger.row
}.

(** One entry of [records_by_brand]. *)
Record soh_record := mk_soh_record {
  rec_SKU_ID : Z;
  rec_SOHQty : Q;
  rec_RowNumber : Z
}.

(** [_get_prior_active_qty_for_day]. *)
Definition _get_prior_active_qty_for_day (S : list SP_SOH_Detail.row)
    (customer_id : Z) (brand : option string) (sku_id : Z) (soh_date : Z) : Q :=
  let q := List.filter
             (fun r => (SP_SOH_Detail.CustomerID r =? customer_id)
                       && (SP_SOH_Detail.SKU_ID r =? sku_id)
                       && (SP_SOH_Detail.SOHDate r =? soh_date)
                       && SP_SOH_Detail.IsActive r) S in
  let q := match brand with
           | Some b => List.filter (fun r => col_eq_str (SP_SOH_Detail.Brand r) (Some b)) q
           | None => q
           end in
  match first_by upload_desc q with
  | Some row => SP_SOH_Detail.SOHQty row
  | None => 0%Q
  end.

(** SOHUploadID is an autoincrement key. *)
Definition next_SOHUploadID (U : list SP_SOH_Uploads.row) : Z :=
  1 + fold_right Z.max 0 (List.map SP_SOH_Uploads.SOHUploadID U).

(** The headers of the customer, the date and the brand ([prior_hdr_q]). *)
Definition prior_header (customer_id the_date : Z) (brand : string) (h : SP_SOH_Uploads.row)
  : bool :=
  (SP_SOH_Uploads.CustomerID h =? customer_id)
  && (SP_SOH_Uploads.Date h =? the_date)
  && col_eq_str (SP_SOH_Uploads.Brand h) (Some brand).

(** The details that step 2a deactivates. *)
Definition prior_detail (prior_hdr_ids : list Z) (the_date : Z) (r : SP_SOH_Detail.row) : bool :=
  existsb (Z.eqb (SP_SOH_Detail.SOHUploadID r)) prior_hdr_ids
  && (SP_SOH_Detail.SOHDate r =? the_date)
  && SP_SOH_Detail.IsActive r.

Definition deactivate (r : SP_SOH_Detail.row) : SP_SOH_Detail.row :=
  SP_SOH_Detail.mk (SP_SOH_Detail.SOHUploadID r) (SP_SOH_Detail.CustomerID r)
    (SP_SOH_Detail.Brand r) (SP_SOH_Detail.SKU_ID r) (SP_SOH_Detail.RowNumber r)
    (SP_SOH_Detail.SOHDate r) (SP_SOH_Detail.SOHQty r) false.

Definition supersede (hdr_id : Z) (h : SP_SOH_Uploads.row) : SP_SOH_Uploads.row :=
  SP_SOH_Uploads.mk (SP_SOH_Uploads.SOHUploadID h) (SP_SOH_Uploads.CustomerID h)
    (SP_SOH_Uploads.SnapshotType h) (SP_SOH_Uploads.Brand h) (SP_SOH_Uploads.Date h)
    "Superseded" (Some hdr_id).

(** What one turn of the loop over the brands adds to the totals of
    [upload]. *)
Record soh_turn_result := mk_soh_turn_result {
  turn_hdr_id : option Z;
  turn_deactivated : Z;
  turn_inserted : Z;
  turn_superseded : list Z
}.

(** One turn of the loop over the brands of [upload] (steps 2a to 2c): the
    details of the earlier headers of the customer, the date and the brand
    are deactivated, the new header is inserted and flushed, the earlier
    headers are superseded, and each record posts its ledger row before the
    details of the new header are added. *)
Definition soh_brand_turn (customer_id : Z) (snapshot_type : string) (the_date : Z)
    (movement_type : string) (db : soh_db) (brand : string) (brand_records : list soh_record)
  : soh_db * soh_turn_result :=
  match brand_records with
  | [] => (db, mk_soh_turn_result None 0 0 [])
  | _ :: _ =>
      let prior_hdr_ids :=
        List.map SP_SOH_Uploads.SOHUploadID
          (List.filter (prior_header customer_id the_date brand) (soh_uploads db)) in
      let details1 :=
        List.map (fun r => if prior_detail prior_hdr_ids the_date r then deactivate r else r)
          (soh_details db) in
      let deactivated :=
        Z.of_nat (length (List.filter (prior_detail prior_hdr_ids the_date) (soh_details db))) in
      let hdr_id := next_SOHUploadID (soh_uploads db) in
      let uploads1 :=
        List.map (fun h => if prior_header customer_id the_date brand h
                           then supersede hdr_id h else h) (soh_uploads db)
        ++ [SP_SOH_Uploads.mk hdr_id customer_id snapshot_type (Some brand) the_date
              "Draft" None] in
      let ledger1 :=
        fold_left
          (fun L rec =>
             let old_qty := _get_prior_active_qty_for_day details1 customer_id (Some brand)
                              (rec_SKU_ID rec) the_date in
             _post_ledger_adjust L customer_id (rec_SKU_ID rec) the_date (rec_SOHQty rec)
               old_qty hdr_id (rec_RowNumber rec) movement_type)
          brand_records (soh_ledger db) in
      let details2 :=
        details1
        ++ List.map (fun rec => SP_SOH_Detail.mk hdr_id customer_id (Some brand)
                                  (rec_SKU_ID rec) (rec_RowNumber rec) the_date
                                  (rec_SOHQty rec) true) brand_records in
      (mk_soh_db uploads1 details2 ledger1,
       mk_soh_turn_result (Some hdr_id) deactivated (Z.of_nat (length brand_records))
         prior_hdr_ids)
  end.

(** Every detail belongs to a header of the table and is dated as it. *)
Definition soh_consistent (db : soh_db) : Prop :=
  forall r, In r (soh_details db) ->
    exists h, In h (soh_uploads db)
      /\ SP_SOH_Uploads.SOHUploadID h = SP_SOH_Detail.SOHUploadID r
      /\ SP_SOH_Uploads.CustomerID h = SP_SOH_Detail.CustomerID r
      /\ SP_SOH_Uploads.Brand h = SP_SOH_Detail.Brand r
      /\ SP_SOH_Uploads.Date h = SP_SOH_Detail.SOHDate r.

(** A customer with two snapshots of brand B on day 5, the second one in
    force. *)
Definition sample_soh_db : soh_db :=
  mk_soh_db
    [ SP_SOH_Uploads.mk 1 7 "Initial" (Some "B"%string) 5 "Superseded" (Some 2);
      SP_SOH_Uploads.mk 2 7 "Supersede" (Some "B"%string) 5 "Draft" None ]
    [ SP_SOH_Detail.mk 1 7 (Some "B"%string) 3 1 5 10 false;
      SP_SOH_Detail.mk 2 7 (Some "B"%string) 3 1 5 12 true ]
    [].

(** *** The articles of the sell-out template
        ([_merge_items_preferring_mapping], blueprints/sell_out_blueprint/sell_out.py) *)

(** An entry of the three lists: a dict with the keys SKU_ID, ArticleCode
    and CustSKUCode, each of which may be None. *)
Module ArticleItem.
Record row := mk {
  SKU_ID : option Z;
  ArticleCode : option string;
  CustSKUCode : option string
}.
End ArticleItem.

(** [sorted] on strings: the order of the code points. *)
Definition string_le (s1 s2 : string) : Prop := String.leb s1 s2 = true.

#[global] Instance string_le_dec : RelDecision string_le.
Proof. intros x y. unfold string_le. apply _. Defined.

Section merge_items.

(** [str.strip]. *)
Variable strip : string -> string.

(** [(it.get("ArticleCode") or "").strip()]. *)
Definition item_article (it : ArticleItem.row) : string :=
  strip (match ArticleItem.ArticleCode it with
         | Some s => s
         | None => EmptyString
         end).

(** The dict stored under the article [ac]. *)
Definition merged_entry (it : ArticleItem.row) (ac : string) : ArticleItem.row :=
  ArticleItem.mk (ArticleItem.SKU_ID it) (Some ac) (ArticleItem.CustSKUCode it).

(** A turn of the first loop: the mapping overwrites. *)
Definition put_mapping (by_article : gmap string ArticleItem.row) (it : ArticleItem.row)
  : gmap string ArticleItem.row :=
  let ac := item_article it in
  if String.eqb ac EmptyString then by_article
  else <[ac := merged_entry it ac]> by_article.

(** A turn of the second and of the third loop: added only if not present. *)
Definition put_if_absent (by_article : gmap string ArticleItem.row) (it : ArticleItem.row)
  : gmap string ArticleItem.row :=
  let ac := item_article it in
  if String.eqb ac EmptyString || bool_decide (is_Some (by_article !! ac)) then by_article
  else <[ac := merged_entry it ac]> by_article.

Definition merged_by_article (mapping_items sellin_items soh_items : list ArticleItem.row)
  : gmap string ArticleItem.row :=
  fold_left put_if_absent soh_items
    (fold_left put_if_absent sellin_items
       (fold_left put_mapping mapping_items ∅)).

Definition _merge_items_preferring_mapping
    (mapping_items sellin_items soh_items : list ArticleItem.row) : list ArticleItem.row :=
  let by_article := merged_by_article mapping_items sellin_items soh_items in
  omap (fun k => by_article !! k)
    (merge_sort string_le (List.map fst (map_to_list by_article))).

(** The item that decides the entry of an article: the last one of the
    mapping, else the first one of the sell-in, else the first one of the
    SOH. *)
Definition has_article (ac : string) (it : ArticleItem.row) : bool :=
  String.eqb (item_article it) ac.

Definition chosen_item (mapping_items sellin_items soh_items : list ArticleItem.row)
    (ac : string) : option ArticleItem.row :=
  match List.find (has_article ac) (rev mapping_items) with
  | Some it => Some it
  | None =>
      match List.find (has_article ac) sellin_items with
      | Some it => Some it
      | None => List.find (has_article ac) soh_items
      end
  end.

End merge_items.

(** The article of an entry of the merged list. *)
Definition out_article (r : ArticleItem.row) : string :=
  match ArticleItem.ArticleCode r with
  | Some s => s
  | None => EmptyString
  end.

(** *** The pages of the general report ([list_rows], step 6) *)

(** [x or d] on an optional integer. *)
Definition py_or_Z (x : option Z) (d : Z) : Z := if truthy x then coalesce x 0 else d.

(** A bound of a Python slice on a list of [n] items: a negative index
    counts from the end, and the result is clamped to the list. *)
Definition py_slice_bound (n i : Z) : Z :=
  if i <? 0 then Z.max (i + n) 0 else Z.min i n.

(** [l[start:end]]. *)
Definition py_slice {A : Type} (l : list A) (start end_ : Z) : list A :=
  let n := Z.of_nat (length l) in
  let s := py_slice_bound n start in
  let e := py_slice_bound n end_ in
  take (Z.to_nat (e - s)) (drop (Z.to_nat s) l).

(** The answer of [list_rows] for the sorted rows: total, page, page_size
    and items. *)
Definition list_rows_page {A : Type} (page page_size : option Z) (rows : list A)
  : Z * Z * Z * list A :=
  let page := Z.max 1 (py_or_Z page 1) in
  let page_size := Z.min 500 (py_or_Z page_size 100) in
  let total := Z.of_nat (length rows) in
  let start := (page - 1) * page_size in
  let end_ := start + page_size in
  (total, page, page_size, py_slice rows start end_).

(** The items of a page. *)
Definition page_items {A : Type} (page_size : option Z) (rows : list A) (page : nat) : list A :=
  snd (list_rows_page (Some (Z.of_nat page)) page_size rows).

(** *** The routes of the approvals blueprint and their guards
        (sell_out_approvals.py, blueprints/auth.py) *)

(** What the guards and a view read of a request: the login and the role
    of the session, whether the media type the client likes best is
    application/json, and the payload.  The requests are POST requests, the
    method the three rules below are registered for. *)
Record request := mk_request {
  is_authenticated : bool;
  session_role : option string;
  best_is_json : bool;
  req_actor : py_value;
  req_comment : option string;
  req_ids : list Z
}.

(** [Redirect302] is the redirect to the login page; its [next] parameter
    is left out. *)
Inductive answer : Type :=
  | ApproveAnswer (lists : list Z * list (Z * string) * list (Z * error_text))
  | RejectAnswer (r : reject_response)
  | SubmitAnswer (lists : option (list Z * list (Z * string) * list (Z * error_text)))
  | BadRequest400
  | Unauthorized401
  | Redirect302
  | Forbidden403
  | NotFound404.

(** A view function: its [__name__] and what a call does. *)
Record view := mk_view {
  view_name : string;
  view_call : request -> database -> database * answer
}.

(** [r not in set(allowed)] is false only for a role of the list. *)
Definition role_in (allowed : list string) (r : option string) : bool :=
  match r with
  | Some s => existsb (String.eqb s) allowed
  | None => false
  end.

(** [require_role] with its list of roles, applied to [fn]: the wrapper
    that answers 403 or calls [fn]; [wraps] gives it the name of [fn]. *)
Definition require_role (allowed : list string) (fn : view) : view :=
  mk_view (view_name fn)
    (fun req db =>
       if negb (is_authenticated req)
          || (negb (bool_decide (allowed = [])) && negb (role_in allowed (session_role req)))
       then (db, Forbidden403)
       else view_call fn req db).

(** [bp.route(rule)(f)]: Flask records [f] as the view of the rule and
    gives [f] back. *)
Definition bp_route (rule : string) (f : view) (url_map : list (string * view))
  : list (string * view) * view :=
  (url_map ++ [(rule, f)], f).

Definition approval_roles : list string :=
  ["brand_manager"; "finance_manager"; "admin"; "developer"]%string.

(** [s.startswith(p)] and [s.endswith(p)]. *)
Definition startswith (s p : string) : bool := String.prefix p s.

Definition endswith (s p : string) : bool :=
  String.prefix (String.rev p) (String.rev s).

(** [_unauth], the answer of [login_manager.unauthorized()]. *)
Definition _unauth (path : string) (req : request) : answer :=
  if best_is_json req || startswith path "/api/" then Unauthorized401 else Redirect302.

(** [require_login_globally], which runs before every request: None lets
    the request through; [endpoint] is None when no rule matches. *)
Definition require_login_globally (endpoint : option string) (path : string) (req : request)
  : option answer :=
  match endpoint with
  | None => None
  | Some ep =>
      if String.eqb ep "static" then None
      else if startswith path "/static/" || startswith path "/favicon.ico"
              || startswith path "/robots.txt" then None
      else if endswith ep ".static" || String.eqb ep "static" || endswith ep "static"
      then None
      else if startswith ep "auth." then None
      else if negb (is_authenticated req) then Some (_unauth path req)
      else None
  end.

Section routes.

Variable int_of_varchar : string -> option Z.

(** The bodies of the three functions. *)
Definition submit_bulk_body : view :=
  mk_view "submit_bulk"
    (fun req db =>
       let '(db', lists) :=
         submit_bulk int_of_varchar (req_actor req) (req_comment req) db (req_ids req) in
       (db', SubmitAnswer lists)).

Definition approve_uploads_body : view :=
  mk_view "approve_uploads"
    (fun req db =>
       match req_ids req with
       | [] => (db, BadRequest400)
       | _ :: _ =>
           let '(db', lists) :=
             approve_uploads int_of_varchar (req_actor req) (req_comment req) db (req_ids req) in
           (db', ApproveAnswer lists)
       end).

Definition reject_uploads_body : view :=
  mk_view "reject_uploads"
    (fun req db =>
       let '(db', r) :=
         reject_uploads int_of_varchar (req_actor req) (req_comment req) db (req_ids req) in
       (db', RejectAnswer r)).

(** The three definitions of the module, in their order.  A decorator list
    is applied from the bottom: [submit_bulk] and [reject_uploads] are
    wrapped by [require_role] and then routed; [approve_uploads] is routed
    and then wrapped, so the wrapper is bound to the name but is not the
    view of the rule. *)
Definition approvals_module : list (string * view) * (view * view * view) :=
  let url_map0 : list (string * view) := [] in
  let '(url_map1, submit_bulk_name) :=
    bp_route "/approvals/submit-bulk" (require_role approval_roles submit_bulk_body) url_map0 in
  let '(url_map2, routed) := bp_route "/approvals/approve" approve_uploads_body url_map1 in
  let approve_uploads_name := require_role approval_roles routed in
  let '(url_map3, reject_uploads_name) :=
    bp_route "/approvals/reject" (require_role approval_roles reject_uploads_body) url_map2 in
  (url_map3, (submit_bulk_name, approve_uploads_name, reject_uploads_name)).

End routes.

(** The blueprint is registered under its name and url prefix. *)
Definition bp_name : string := "sell_out_approvals".

Definition url_prefix : string := "/sell-out-approvals".

(** A request for a path: the rule it matches gives the endpoint,
    [require_login_globally] runs, then the view of the rule; a path that
    matches no rule is answered 404. *)
Definition dispatch (url_map : list (string * view)) (path : string)
  : request -> database -> database * answer :=
  fun req db =>
    let matched := List.find (fun e => String.eqb (url_prefix +:+ fst e) path) url_map in
    let endpoint := option_map (fun e => bp_name +:+ "." +:+ view_name (snd e)) matched in
    match require_login_globally endpoint path req with
    | Some a => (db, a)
    | None =>
        match matched with
        | Some e => view_call (snd e) req db
        | None => (db, NotFound404)
        end
    end.

(** *** The export of the general report ([export_csv]) *)

(** The items that [export_csv] writes after the header line: it calls
    [list_rows] with page 1 and page_size 1000000. *)
Definition export_csv_items {A : Type} (rows : list A) : list A :=
  snd (list_rows_page (Some 1) (Some 1000000) rows).

(* ===================================================================== *)
(** * Part II: properties                                                 *)
(* ===================================================================== *)

(** ** Lists, groups and sums *)

Lemma Qltb_lt (a b : Q) : Qltb a b = true <-> (a < b)%Q.
Proof.
  unfold Qltb. rewrite negb_true_iff. split.
  - intros H. apply Qnot_le_lt. intros Hle. apply Qle_bool_iff in Hle. congruence.
  - intros H. destruct (Qle_bool b a) eqn:E; [|reflexivity].
    apply Qle_bool_iff in E. exfalso. apply (Qlt_not_le _ _ H E).
Qed.

Lemma Qltb_ge (a b : Q) : Qltb a b = false <-> (b <= a)%Q.
Proof.
  unfold Qltb. rewrite negb_false_iff. apply Qle_bool_iff.
Qed.

Lemma Qle_bool_false (a b : Q) : Qle_bool a b = false <-> (b < a)%Q.
Proof.
  rewrite <- (Qltb_lt b a). unfold Qltb. now rewrite negb_true_iff.
Qed.

Lemma Qsum_app (l1 l2 : list Q) : (Qsum (l1 ++ l2) == Qsum l1 + Qsum l2)%Q.
Proof.
  induction l1 as [|x l1 IH]; simpl.
  - ring.
  - rewrite IH. ring.
Qed.

Lemma Qsum_perm (l1 l2 : list Q) : l1 ≡ₚ l2 -> (Qsum l1 == Qsum l2)%Q.
Proof.
  induction 1 as [|x l1 l2 _ IH|x y l|l1 l2 l3 _ IH1 _ IH2]; simpl.
  - reflexivity.
  - rewrite IH. reflexivity.
  - ring.
  - rewrite IH1. exact IH2.
Qed.

Lemma Qsum_nonneg (l : list Q) : Forall (fun q => (0 <= q)%Q) l -> (0 <= Qsum l)%Q.
Proof.
  induction 1 as [|x l Hx _ IH]; simpl.
  - apply Qle_refl.
  - lra.
Qed.

Lemma coalesce_sql_sum (l : list Q) : coalesce (sql_sum l) 0%Q = Qsum l.
Proof. destruct l; reflexivity. Qed.

Lemma group_rows_In {A K : Type} `{EqDecision K} (key : A -> K) (k : K) (l : list A) (x : A) :
  In x (group_rows key k l) <-> In x l /\ key x = k.
Proof.
  unfold group_rows. rewrite filter_In, bool_decide_eq_true. reflexivity.
Qed.

Lemma group_keys_In {A K : Type} `{EqDecision K} (key : A -> K) (l : list A) (k : K) :
  In k (group_keys key l) <-> exists x, In x l /\ key x = k.
Proof.
  unfold group_keys. rewrite <- list_elem_of_In, elem_of_remove_dups, list_elem_of_In, in_map_iff.
  split; intros (x & H1 & H2); exists x; auto.
Qed.

Lemma group_keys_NoDup {A K : Type} `{EqDecision K} (key : A -> K) (l : list A) :
  NoDup (group_keys key l).
Proof. apply NoDup_remove_dups. Qed.

Lemma group_rows_nil_iff {A K : Type} `{EqDecision K} (key : A -> K) (k : K) (l : list A) :
  group_rows key k l = [] <-> ~ In k (group_keys key l).
Proof.
  rewrite group_keys_In. split.
  - intros Hnil (x & Hx & Hk).
    assert (Hin : In x (group_rows key k l)) by (apply group_rows_In; auto).
    rewrite Hnil in Hin. destruct Hin.
  - intros Hno. destruct (group_rows key k l) as [|x g] eqn:E; [reflexivity|].
    exfalso. apply Hno. exists x.
    apply (group_rows_In key k l x). rewrite E. left. reflexivity.
Qed.

Lemma filter_nil_iff {A : Type} (p : A -> bool) (l : list A) :
  List.filter p l = [] <-> forall x, In x l -> p x = false.
Proof.
  induction l as [|y l IH]; simpl.
  - split; [intros _ x []|reflexivity].
  - destruct (p y) eqn:E.
    + split; [discriminate|]. intros H. specialize (H y (or_introl eq_refl)). congruence.
    + rewrite IH. split.
      * intros H x [->|Hx]; auto.
      * intros H x Hx. apply H. right. exact Hx.
Qed.

Lemma filter_all {A : Type} (p : A -> bool) (l : list A) :
  (forall x, In x l -> p x = true) -> List.filter p l = l.
Proof.
  induction l as [|y l IH]; simpl; intros H; [reflexivity|].
  rewrite (H y (or_introl eq_refl)). f_equal. apply IH. intros x Hx. apply H. right. exact Hx.
Qed.

Lemma filter_filter_andb {A : Type} (f g : A -> bool) (l : list A) :
  List.filter f (List.filter g l) = List.filter (fun x => f x && g x) l.
Proof.
  induction l as [|x l IH]; simpl; [reflexivity|].
  destruct (g x) eqn:Eg; simpl.
  - destruct (f x); simpl; now rewrite IH.
  - rewrite andb_false_r. exact IH.
Qed.

(** Selecting one group out of a list built group by group. *)
Lemma group_rows_flat_map_other {B K : Type} `{EqDecision K}
    (key : B -> K) (f : K -> list B) (keys : list K) (k : K) :
  (forall k' x, In x (f k') -> key x = k') ->
  ~ In k keys ->
  group_rows key k (flat_map f keys) = [].
Proof.
  intros Hkey Hnot. unfold group_rows. apply filter_nil_iff.
  intros x Hx. apply in_flat_map in Hx as (k' & Hk' & Hx).
  apply bool_decide_eq_false. intros Heq.
  apply Hnot. rewrite <- Heq, (Hkey k' x Hx). exact Hk'.
Qed.

Lemma group_rows_flat_map_keys {B K : Type} `{EqDecision K}
    (key : B -> K) (f : K -> list B) (keys : list K) (k : K) :
  (forall k' x, In x (f k') -> key x = k') ->
  NoDup keys -> In k keys ->
  group_rows key k (flat_map f keys) = f k.
Proof.
  intros Hkey Hnd. induction Hnd as [|k0 keys Hnotin Hnd IH]; simpl; intros Hin.
  - destruct Hin.
  - unfold group_rows. rewrite List.filter_app.
    rewrite list_elem_of_In in Hnotin.
    destruct Hin as [->|Hin].
    + rewrite filter_all.
      2:{ intros x Hx. apply bool_decide_eq_true. eauto. }
      fold (group_rows key k (flat_map f keys)).
      rewrite (group_rows_flat_map_other key f keys k Hkey Hnotin). apply app_nil_r.
    + assert (Hne : k0 <> k) by (intros ->; contradiction).
      rewrite (proj2 (filter_nil_iff _ (f k0))).
      2:{ intros x Hx. apply bool_decide_eq_false. rewrite (Hkey k0 x Hx). exact Hne. }
      simpl. apply IH. exact Hin.
Qed.

(** One group of a list built row by row, when each row keeps its key. *)
Lemma group_rows_flat_map_rows {A B K : Type} `{EqDecision K}
    (keyA : A -> K) (keyB : B -> K) (g : A -> list B) (l : list A) (k : K) :
  (forall x y, In y (g x) -> keyB y = keyA x) ->
  group_rows keyB k (flat_map g l) = flat_map g (group_rows keyA k l).
Proof.
  intros Hkey. unfold group_rows. induction l as [|x l IH]; simpl; [reflexivity|].
  rewrite List.filter_app, IH. destruct (bool_decide (keyA x = k)) eqn:E; simpl.
  - apply bool_decide_eq_true in E. f_equal. apply filter_all.
    intros y Hy. apply bool_decide_eq_true. rewrite (Hkey x y Hy). exact E.
  - apply bool_decide_eq_false in E.
    rewrite (proj2 (filter_nil_iff _ (g x))); [reflexivity|].
    intros y Hy. apply bool_decide_eq_false. rewrite (Hkey x y Hy). exact E.
Qed.

Lemma flat_map_singleton {A B : Type} (f : A -> B) (l : list A) :
  flat_map (fun x => [f x]) l = List.map f l.
Proof. induction l as [|x l IH]; simpl; [reflexivity|]. now rewrite IH. Qed.

Lemma group_rows_map_keys {B K : Type} `{EqDecision K}
    (key : B -> K) (f : K -> B) (keys : list K) (k : K) :
  (forall k', key (f k') = k') ->
  NoDup keys -> In k keys ->
  group_rows key k (List.map f keys) = [f k].
Proof.
  intros Hkey Hnd Hin.
  rewrite <- (flat_map_singleton f keys).
  rewrite (group_rows_flat_map_keys key (fun k' => [f k']) keys k); auto.
  intros k' x [<-|[]]. apply Hkey.
Qed.

Lemma group_rows_filter_comm {A K : Type} `{EqDecision K}
    (key : A -> K) (k : K) (p : A -> bool) (l : list A) :
  group_rows key k (List.filter p l) = List.filter p (group_rows key k l).
Proof.
  unfold group_rows. induction l as [|x l IH]; simpl; [reflexivity|].
  destruct (p x) eqn:Ep, (bool_decide (key x = k)) eqn:Ek; simpl;
    rewrite ?Ep, ?Ek, IH; reflexivity.
Qed.

Lemma flat_map_ext_In {A B : Type} (f g : A -> list B) (l : list A) :
  (forall x, In x l -> f x = g x) -> flat_map f l = flat_map g l.
Proof.
  induction l as [|x l IH]; simpl; intros H; [reflexivity|].
  rewrite (H x (or_introl eq_refl)), IH; [reflexivity|].
  intros y Hy. apply H. right. exact Hy.
Qed.

(** ** FIFO aging *)

#[global] Instance fifo_le_total : Total fifo_le.
Proof.
  intros x y. unfold fifo_le, fifo_leb.
  destruct (Z.lt_trichotomy (SP_InventoryLedger.DocDate x) (SP_InventoryLedger.DocDate y))
    as [Hlt|[Heq|Hgt]].
  - left. apply orb_true_iff. left. apply Z.ltb_lt. exact Hlt.
  - destruct (Z.le_ge_cases (SP_InventoryLedger.LedgerID x) (SP_InventoryLedger.LedgerID y)).
    + left. apply orb_true_iff. right. apply andb_true_iff.
      split; [apply Z.eqb_eq|apply Z.leb_le]; assumption.
    + right. apply orb_true_iff. right. apply andb_true_iff.
      split; [apply Z.eqb_eq; symmetry|apply Z.leb_le]; assumption.
  - right. apply orb_true_iff. left. apply Z.ltb_lt. exact Hgt.
Qed.

Lemma window_scan_length (before : option Q) (rows : list SP_InventoryLedger.row) :
  length (window_scan before rows) = length rows.
Proof.
  revert before. induction rows as [|l rows IH]; intros before; simpl; [reflexivity|].
  now rewrite IH.
Qed.

Lemma window_scan_pair (before : option Q) (rows : list SP_InventoryLedger.row) (r : Receipts.row) :
  In r (window_scan before rows) -> exists l, In l rows /\ rcp_pair r = pair_of l.
Proof.
  revert before. induction rows as [|l rows IH]; intros before; simpl; [intros []|].
  intros [<-|Hin].
  - exists l. split; [left|]; reflexivity.
  - destruct (IH _ Hin) as (l' & Hl' & Hp). exists l'. split; [right|]; assumption.
Qed.

(** The running sum in front of the i-th lot is the sum of the lots before it. *)
Lemma window_scan_lookup (rows : list SP_InventoryLedger.row) :
  forall (before : option Q) (i : nat) (l : SP_InventoryLedger.row),
    rows !! i = Some l ->
    exists r, window_scan before rows !! i = Some r
      /\ rcp_pair r = pair_of l
      /\ Receipts.lot_date r = SP_InventoryLedger.DocDate l
      /\ Receipts.LedgerID r = SP_InventoryLedger.LedgerID l
      /\ Receipts.lot_qty r = SP_InventoryLedger.Qty l
      /\ (coalesce (Receipts.cum_in_prev r) 0
          == coalesce before 0 + Qsum (List.map SP_InventoryLedger.Qty (take i rows)))%Q.
Proof.
  induction rows as [|l0 rows IH]; intros before i l Hl.
  - destruct i; discriminate.
  - destruct i as [|i]; simpl in Hl.
    + injection Hl as <-. eexists. split; [reflexivity|]. simpl.
      repeat split; try reflexivity. ring.
    + destruct (IH (Some (coalesce before 0 + SP_InventoryLedger.Qty l0)%Q) i l Hl)
        as (r & Hr & Hp & Hd & Hid & Hq & Hsum).
      exists r. split; [exact Hr|]. repeat split; try assumption.
      rewrite Hsum. simpl. ring.
Qed.

Lemma pair_lots_perm (a : fifo_args) (L : list SP_InventoryLedger.row) (k : Z * Z) :
  pair_lots a L k ≡ₚ List.filter is_receipt (pair_movements a L k).
Proof.
  unfold pair_lots, pair_movements. rewrite merge_sort_Permutation.
  now rewrite group_rows_filter_comm.
Qed.

Lemma pair_lots_In (a : fifo_args) (L : list SP_InventoryLedger.row) (k : Z * Z)
    (l : SP_InventoryLedger.row) :
  In l (pair_lots a L k) <->
  In l (Movements a L) /\ pair_of l = k /\ (0 < SP_InventoryLedger.Qty l)%Q.
Proof.
  rewrite <- list_elem_of_In, (pair_lots_perm a L k), list_elem_of_In.
  unfold pair_movements. rewrite filter_In, group_rows_In.
  unfold is_receipt. rewrite Qltb_lt. tauto.
Qed.

Lemma Receipts_pair (a : fifo_args) (L : list SP_InventoryLedger.row) (k : Z * Z) :
  group_rows rcp_pair k (Receipts a L) = window_scan None (pair_lots a L k).
Proof.
  unfold Receipts, pair_lots.
  set (P := List.filter is_receipt (Movements a L)).
  assert (Hkey : forall k' x,
             In x (window_scan None (merge_sort fifo_le (group_rows pair_of k' P))) ->
             rcp_pair x = k').
  { intros k' x Hx. apply window_scan_pair in Hx as (l & Hl & ->).
    rewrite <- list_elem_of_In, merge_sort_Permutation, list_elem_of_In in Hl.
    apply group_rows_In in Hl. tauto. }
  destruct (decide (k ∈ group_keys pair_of P)) as [Hin|Hnot]; rewrite list_elem_of_In in *.
  - apply (group_rows_flat_map_keys rcp_pair _ _ k Hkey); [apply group_keys_NoDup|exact Hin].
  - rewrite (group_rows_flat_map_other rcp_pair _ _ k Hkey Hnot).
    apply group_rows_nil_iff in Hnot. rewrite Hnot. reflexivity.
Qed.

Lemma Totals_pair (a : fifo_args) (L : list SP_InventoryLedger.row) (k : Z * Z) :
  In k (group_keys pair_of (Movements a L)) ->
  List.filter (fun t => (Totals.CustomerID t =? fst k) && (Totals.SKU_ID t =? snd k)) (Totals a L)
  = [Totals_of_group k (pair_movements a L k)].
Proof.
  intros Hin.
  rewrite (List.filter_ext _ (fun t => bool_decide (tot_pair t = k))).
  2:{ intros t. destruct k as [c s]. unfold tot_pair. simpl.
      destruct (Z.eqb_spec (Totals.CustomerID t) c), (Z.eqb_spec (Totals.SKU_ID t) s); simpl;
        symmetry; [apply bool_decide_eq_true|apply bool_decide_eq_false..]; congruence. }
  unfold Totals.
  apply (group_rows_map_keys tot_pair
           (fun k' => Totals_of_group k' (group_rows pair_of k' (Movements a L)))).
  - intros [c s]. reflexivity.
  - apply group_keys_NoDup.
  - exact Hin.
Qed.

Lemma Allocated_pair (a : fifo_args) (L : list SP_InventoryLedger.row) (k : Z * Z) :
  group_rows alloc_pair k (Allocated a L)
  = List.map (fun r => Allocated_row r (Some (Totals_of_group k (pair_movements a L k))))
      (window_scan None (pair_lots a L k)).
Proof.
  unfold Allocated.
  rewrite (group_rows_flat_map_rows rcp_pair alloc_pair).
  2:{ intros r y Hy.
      destruct (List.filter _ (Totals a L)) as [|t ts].
      - destruct Hy as [<-|[]]. reflexivity.
      - apply in_map_iff in Hy as (t' & <- & _). reflexivity. }
  rewrite Receipts_pair, <- flat_map_singleton.
  apply flat_map_ext_In. intros r Hr.
  apply window_scan_pair in Hr as (l & Hl & Hp).
  apply pair_lots_In in Hl as (HM & Hk & _).
  assert (Hin : In k (group_keys pair_of (Movements a L))).
  { apply group_keys_In. exists l. auto. }
  assert (Hrk : (Receipts.CustomerID r, Receipts.SKU_ID r) = k) by (rewrite <- Hk, <- Hp; reflexivity).
  pose proof (Totals_pair a L k Hin) as HT.
  destruct k as [c s]. injection Hrk as -> ->. simpl in HT.
  rewrite HT. reflexivity.
Qed.

(** *** The window and the customer-level anchor *)

Lemma sql_min_Some (l : list Z) (m : Z) :
  sql_min l = Some m -> In m l /\ forall x, In x l -> m <= x.
Proof.
  destruct l as [|x0 xs]; [discriminate|]. simpl. intros [= <-].
  induction xs as [|y ys IH]; simpl.
  - split; [left; reflexivity|]. intros x [->|[]]. lia.
  - destruct IH as [Hin Hmin]. split.
    + destruct (Z.min_spec y (fold_right Z.min x0 ys)) as [[_ ->]|[_ ->]].
      * right. left. reflexivity.
      * destruct Hin as [Hin|Hin]; [left|right; right]; exact Hin.
    + intros x [->|[->|Hx]].
      * specialize (Hmin x (or_introl eq_refl)). lia.
      * lia.
      * specialize (Hmin x (or_intror Hx)). lia.
Qed.

Lemma AdjustDates_In (a : fifo_args) (L : list SP_InventoryLedger.row) (d : AdjustDates.row) :
  In d (AdjustDates a L) ->
  exists ad,
    AdjustDates.adjust_date d = Some ad
    /\ (exists x, In x L /\ adj_pred a x = true
                  /\ SP_InventoryLedger.CustomerID x = AdjustDates.CustomerID d
                  /\ SP_InventoryLedger.DocDate x = ad)
    /\ (forall y, In y L -> adj_pred a y = true ->
                  SP_InventoryLedger.CustomerID y = AdjustDates.CustomerID d ->
                  ad <= SP_InventoryLedger.DocDate y).
Proof.
  unfold AdjustDates. intros Hd. apply in_map_iff in Hd as (c & <- & Hc).
  apply group_keys_In in Hc as (x0 & Hx0 & Hc0). cbn [AdjustDates.adjust_date AdjustDates.CustomerID].
  set (g := group_rows SP_InventoryLedger.CustomerID c (List.filter (adj_pred a) L)).
  assert (Hg : In x0 g) by (apply group_rows_In; auto).
  destruct (sql_min (List.map SP_InventoryLedger.DocDate g)) as [ad|] eqn:E.
  2:{ destruct g; [destruct Hg|discriminate]. }
  apply sql_min_Some in E as [Hin Hmin]. exists ad. split; [reflexivity|]. split.
  - apply in_map_iff in Hin as (x & Hd & Hx). apply group_rows_In in Hx as [Hx Hcx].
    apply filter_In in Hx as [HxL Hp]. exists x. auto.
  - intros y Hy Hp Hcy. apply Hmin, in_map, group_rows_In. split; [|exact Hcy].
    apply filter_In. auto.
Qed.

(** AdjustDates holds, for each customer with an ADJUST on or before the
    as-of date, the earliest such date. *)
Lemma AdjustDates_earliest (a : fifo_args) (L : list SP_InventoryLedger.row) (c ad : Z) :
  In (AdjustDates.mk c (Some ad)) (AdjustDates a L)
  <-> is_earliest_date (aging_adjust a c) L ad.
Proof.
  assert (Hp : forall x, aging_adjust a c x = true
                         <-> adj_pred a x = true /\ SP_InventoryLedger.CustomerID x = c).
  { intros x. unfold aging_adjust. rewrite andb_true_iff, Z.eqb_eq. reflexivity. }
  split.
  - intros Hd. destruct (AdjustDates_In a L _ Hd) as (ad' & Had & (x & Hx & Hpx & Hcx & Hdx) & Hmin).
    cbn in Had, Hcx, Hmin. injection Had as <-. split.
    + exists x. split; [exact Hx|]. split; [apply Hp; auto|exact Hdx].
    + intros y Hy Hpy. apply Hp in Hpy as [Hpy Hcy]. auto.
  - intros [(x & Hx & Hpx & Hdx) Hmin]. apply Hp in Hpx as [Hpx Hcx].
    unfold AdjustDates. apply in_map_iff. exists c. split.
    + f_equal.
      set (g := group_rows SP_InventoryLedger.CustomerID c (List.filter (adj_pred a) L)).
      assert (Hg : In x g) by (apply group_rows_In; split; [apply filter_In|]; auto).
      destruct (sql_min (List.map SP_InventoryLedger.DocDate g)) as [ad'|] eqn:E.
      2:{ destruct g; [destruct Hg|discriminate]. }
      apply sql_min_Some in E as [Hin Hmin']. f_equal.
      apply in_map_iff in Hin as (y & Hdy & Hy).
      apply group_rows_In in Hy as [Hy Hcy]. apply filter_In in Hy as [HyL Hpy].
      assert (ad <= ad') by (rewrite <- Hdy; apply Hmin; [exact HyL|apply Hp; auto]).
      assert (ad' <= ad) by (rewrite <- Hdx; apply Hmin', in_map, Hg).
      lia.
    + apply group_keys_In. exists x. split; [apply filter_In; auto|exact Hcx].
Qed.

Lemma Movements_In (a : fifo_args) (L : list SP_InventoryLedger.row) (l : SP_InventoryLedger.row) :
  In l (Movements a L) <->
  In l L /\ exists d, In d (AdjustDates a L)
                      /\ SP_InventoryLedger.CustomerID l = AdjustDates.CustomerID d
                      /\ base_pred a l d = true.
Proof.
  unfold Movements. rewrite in_flat_map. split.
  - intros (l0 & Hl0 & Hin). apply in_flat_map in Hin as (d & Hd & Hin).
    destruct (_ && _) eqn:E in Hin; [|destruct Hin].
    destruct Hin as [<-|[]]. apply andb_true_iff in E as [E1 E2].
    split; [exact Hl0|]. exists d. repeat split; auto. now apply Z.eqb_eq.
  - intros (Hl & d & Hd & Hc & Hb). exists l. split; [exact Hl|].
    apply in_flat_map. exists d. split; [exact Hd|].
    rewrite Hb, (proj2 (Z.eqb_eq _ _) Hc). left. reflexivity.
Qed.


(** The window: a ledger row is a movement of the report exactly when it
    passes the customer and SKU arguments and is dated between the earliest
    ADJUST of its customer and the as-of date. *)
Lemma Movements_window_iff (a : fifo_args) (L : list SP_InventoryLedger.row)
    (l : SP_InventoryLedger.row) :
  In l (Movements a L)
  <-> In l L
      /\ opt_eq_filter (sku_id a) (SP_InventoryLedger.SKU_ID l) = true
      /\ opt_eq_filter (customer_id a) (SP_InventoryLedger.CustomerID l) = true
      /\ exists anchor_date,
           is_earliest_date (aging_adjust a (SP_InventoryLedger.CustomerID l)) L anchor_date
           /\ anchor_date <= SP_InventoryLedger.DocDate l <= as_of_date a.
Proof.
  rewrite Movements_In. split.
  - intros (Hl & d & Hd & Hc & Hb).
    destruct (AdjustDates_In a L d Hd) as (ad & Had & _).
    destruct d as [c' o]. cbn in Hc, Had. subst c' o.
    unfold base_pred in Hb. cbn in Hb.
    repeat (apply andb_true_iff in Hb as [Hb ?]).
    split; [exact Hl|]. split; [assumption|]. split; [assumption|].
    exists ad. split; [apply AdjustDates_earliest; exact Hd|lia].
  - intros (Hl & Hs & Hc & ad & Hearly & Hlo & Hhi). split; [exact Hl|].
    exists (AdjustDates.mk (SP_InventoryLedger.CustomerID l) (Some ad)).
    split; [apply AdjustDates_earliest; exact Hearly|]. split; [reflexivity|].
    unfold base_pred. cbn. rewrite Hs, Hc, Z.eqb_refl.
    rewrite (proj2 (Z.leb_le _ _) Hhi), (proj2 (Z.leb_le _ _) Hlo). reflexivity.
Qed.

Lemma map_lookup {A B : Type} (f : A -> B) (l : list A) (i : nat) :
  List.map f l !! i = option_map f (l !! i).
Proof.
  revert i. induction l as [|x l IH]; intros [|i]; simpl; auto.
Qed.

(** The three cases of the allocation, for a lot of positive quantity. *)
Lemma consumed_expr_cases (ti : Q) (prev : option Q) (qty : Q) :
  (0 < qty)%Q ->
  exists c,
    consumed_expr (Some ti) prev qty = Some c
    /\ ((ti <= coalesce prev 0)%Q -> c = 0%Q)
    /\ ((coalesce prev 0 + qty <= ti)%Q -> c = qty)
    /\ ((coalesce prev 0 < ti)%Q /\ (ti < coalesce prev 0 + qty)%Q ->
        c = (ti - coalesce prev 0)%Q)
    /\ (0 <= c)%Q /\ (c <= qty)%Q.
Proof.
  intros Hq. unfold consumed_expr.
  destruct (Qle_bool ti (coalesce prev 0%Q)) eqn:E1.
  - apply Qle_bool_iff in E1. exists 0%Q. repeat split; try reflexivity; lra.
  - apply Qle_bool_false in E1.
    destruct (Qle_bool (coalesce prev 0%Q + qty) ti) eqn:E2.
    + apply Qle_bool_iff in E2. exists qty. repeat split; try reflexivity; lra.
    + apply Qle_bool_false in E2. eexists. repeat split; try reflexivity; lra.
Qed.

Lemma LiveLayers_pair (a : fifo_args) (L : list SP_InventoryLedger.row) (k : Z * Z) :
  group_rows live_pair k (LiveLayers a L)
  = flat_map (LiveLayers_of a) (group_rows alloc_pair k (Allocated a L)).
Proof.
  unfold LiveLayers. apply group_rows_flat_map_rows.
  intros r y. unfold LiveLayers_of.
  destruct (Allocated.remaining_qty r) as [q|]; [|intros []].
  destruct (Qltb 0 q); [|intros []].
  intros [<-|[]]. reflexivity.
Qed.

Lemma Allocated_row_Some (r : Receipts.row) (k : Z * Z) (g : list SP_InventoryLedger.row) :
  let x := Allocated_row r (Some (Totals_of_group k g)) in
  let issues := Qsum (List.map issue_of g) in
  alloc_pair x = rcp_pair r
  /\ Allocated.lot_date x = Receipts.lot_date r
  /\ Allocated.LedgerID x = Receipts.LedgerID r
  /\ Allocated.lot_qty x = Receipts.lot_qty r
  /\ Allocated.cum_in_prev x = coalesce (Receipts.cum_in_prev r) 0%Q
  /\ Allocated.total_issues x = issues
  /\ Allocated.consumed_qty x
     = consumed_expr (Some issues) (Receipts.cum_in_prev r) (Receipts.lot_qty r)
  /\ Allocated.remaining_qty x
     = option_map (fun c => (Receipts.lot_qty r - c)%Q)
         (consumed_expr (Some issues) (Receipts.cum_in_prev r) (Receipts.lot_qty r)).
Proof.
  intros x issues. subst x issues. unfold Allocated_row. cbn [option_map Totals.total_issues
    Totals_of_group Allocated.lot_date Allocated.LedgerID Allocated.lot_qty
    Allocated.cum_in_prev Allocated.total_issues Allocated.consumed_qty
    Allocated.remaining_qty alloc_pair Allocated.CustomerID Allocated.SKU_ID].
  rewrite coalesce_sql_sum. repeat split; reflexivity.
Qed.

Lemma Allocated_pair_rows (a : fifo_args) (L : list SP_InventoryLedger.row) (k : Z * Z)
    (x : Allocated.row) :
  In x (group_rows alloc_pair k (Allocated a L)) ->
  alloc_pair x = k
  /\ (0 < Allocated.lot_qty x)%Q
  /\ exists cq,
       Allocated.consumed_qty x = Some cq
       /\ Allocated.remaining_qty x = Some (Allocated.lot_qty x - cq)%Q
       /\ (0 <= cq)%Q /\ (cq <= Allocated.lot_qty x)%Q.
Proof.
  intros Hx. split; [apply group_rows_In in Hx; tauto|].
  rewrite Allocated_pair in Hx. apply in_map_iff in Hx as (r & <- & Hr).
  destruct (Allocated_row_Some r k (pair_movements a L k))
    as (_ & _ & _ & Aq & _ & _ & Ac & Ar).
  assert (Hpos : (0 < Receipts.lot_qty r)%Q).
  { apply list_elem_of_In, list_elem_of_lookup in Hr as (i & Hi).
    assert (Hlen : (i < length (pair_lots a L k))%nat).
    { rewrite <- (window_scan_length None). eapply lookup_lt_Some. exact Hi. }
    apply lookup_lt_is_Some in Hlen as (l & Hl).
    destruct (window_scan_lookup _ None i l Hl) as (r' & Hr' & _ & _ & _ & Hq & _).
    rewrite Hi in Hr'. injection Hr' as <-. rewrite Hq.
    apply list_elem_of_lookup_2, list_elem_of_In, pair_lots_In in Hl. tauto. }
  destruct (consumed_expr_cases (Qsum (List.map issue_of (pair_movements a L k)))
              (Receipts.cum_in_prev r) _ Hpos)
    as (cq & Hc & _ & _ & _ & Hlo & Hhi).
  rewrite Aq, Ac, Ar, Hc. split; [exact Hpos|]. exists cq. repeat split; assumption.
Qed.

(** The live layers of a pair are its allocated rows with something left. *)
Lemma LiveLayers_pair_live (a : fifo_args) (L : list SP_InventoryLedger.row) (c s : Z) :
  group_rows live_pair (c, s) (LiveLayers a L)
  = List.map
      (fun r => LiveLayers.mk c s (Allocated.lot_date r)
                  (coalesce (Allocated.remaining_qty r) 0%Q)
                  (as_of_date a - Allocated.lot_date r))
      (List.filter (fun r => Qltb 0 (coalesce (Allocated.remaining_qty r) 0%Q))
         (group_rows alloc_pair (c, s) (Allocated a L))).
Proof.
  rewrite LiveLayers_pair.
  pose proof (Allocated_pair_rows a L (c, s)) as Hall.
  induction (group_rows alloc_pair (c, s) (Allocated a L)) as [|r rest IH]; simpl; [reflexivity|].
  destruct (Hall r (or_introl eq_refl)) as (Hp & _ & cq & _ & Hq & _).
  rewrite IH by (intros r' Hr'; apply Hall; right; exact Hr').
  unfold LiveLayers_of at 1. rewrite Hq. cbn [coalesce].
  injection Hp as Hc Hs.
  destruct (Qltb 0 _); simpl; [rewrite Hc, Hs, Hq|]; reflexivity.
Qed.

(** C1.  For every (customer, SKU) pair and as-of date: the lots of the pair
    are exactly its positive-quantity ledger rows dated in the window from
    the anchor date (the earliest ADJUST date of the customer) to the as-of
    date, in (DocDate, LedgerID) order;
    the allocation has one row per lot, in that order, whose [cum_in_prev] is
    the sum of the lots before it and whose consumed quantity is 0 when
    total_issues <= cum_in_prev, the whole lot when
    total_issues >= cum_in_prev + lot_qty, and total_issues - cum_in_prev in
    between; remaining = lot_qty - consumed; and the live layers of the pair
    are exactly the allocated rows with remaining > 0. *)
Theorem fifo_allocation_per_lot (a : fifo_args) (L : list SP_InventoryLedger.row) (c s : Z) :
  let lots := pair_lots a L (c, s) in
  let alloc := group_rows alloc_pair (c, s) (Allocated a L) in
  let issues := Qsum (List.map issue_of (pair_movements a L (c, s))) in
  lots ≡ₚ List.filter is_receipt (pair_movements a L (c, s))
  /\ (forall l, In l lots <->
        In l L /\ pair_of l = (c, s) /\ (0 < SP_InventoryLedger.Qty l)%Q
        /\ opt_eq_filter (sku_id a) s = true /\ opt_eq_filter (customer_id a) c = true
        /\ exists anchor_date,
             is_earliest_date (aging_adjust a c) L anchor_date
             /\ anchor_date <= SP_InventoryLedger.DocDate l <= as_of_date a)
  /\ Sorted fifo_le lots
  /\ length alloc = length lots
  /\ (forall (i : nat) (l : SP_InventoryLedger.row),
        lots !! i = Some l ->
        exists r consumed,
          alloc !! i = Some r
          /\ Allocated.lot_date r = SP_InventoryLedger.DocDate l
          /\ Allocated.LedgerID r = SP_InventoryLedger.LedgerID l
          /\ Allocated.lot_qty r = SP_InventoryLedger.Qty l
          /\ (Allocated.cum_in_prev r
              == Qsum (List.map SP_InventoryLedger.Qty (take i lots)))%Q
          /\ Allocated.total_issues r = issues
          /\ Allocated.consumed_qty r = Some consumed
          /\ Allocated.remaining_qty r = Some (Allocated.lot_qty r - consumed)%Q
          /\ ((issues <= Allocated.cum_in_prev r)%Q -> consumed = 0%Q)
          /\ ((Allocated.cum_in_prev r + Allocated.lot_qty r <= issues)%Q ->
              consumed = Allocated.lot_qty r)
          /\ ((Allocated.cum_in_prev r < issues)%Q
              /\ (issues < Allocated.cum_in_prev r + Allocated.lot_qty r)%Q ->
              consumed = (issues - Allocated.cum_in_prev r)%Q))
  /\ group_rows live_pair (c, s) (LiveLayers a L)
     = List.map
         (fun r => LiveLayers.mk c s (Allocated.lot_date r)
                     (coalesce (Allocated.remaining_qty r) 0%Q)
                     (as_of_date a - Allocated.lot_date r))
         (List.filter (fun r => Qltb 0 (coalesce (Allocated.remaining_qty r) 0%Q)) alloc).
Proof.
  intros lots alloc issues.
  assert (Halloc : alloc
            = List.map (fun r => Allocated_row r
                                   (Some (Totals_of_group (c, s) (pair_movements a L (c, s)))))
                (window_scan None lots)) by apply Allocated_pair.
  split; [apply pair_lots_perm|].
  split.
  { intros l. unfold lots. rewrite pair_lots_In, Movements_window_iff. split.
    - intros ((Hl & Hs & Hc & Hw) & Hk & Hq). injection Hk as Hc' Hs'.
      rewrite Hc' in Hc, Hw. rewrite Hs' in Hs. unfold pair_of. rewrite Hc', Hs'. auto 10.
    - intros (Hl & Hk & Hq & Hs & Hc & Hw). injection Hk as Hc' Hs'.
      rewrite <- Hc' in Hc, Hw. rewrite <- Hs' in Hs.
      split; [auto|]. split; [unfold pair_of; congruence|exact Hq]. }
  split; [apply Sorted_merge_sort; apply _|].
  split; [rewrite Halloc, length_map; apply window_scan_length|].
  split.
  - intros i l Hl.
    destruct (window_scan_lookup lots None i l Hl) as (r & Hr & Hp & Hd & Hid & Hq & Hsum).
    assert (Hpos : (0 < Receipts.lot_qty r)%Q).
    { rewrite Hq. apply list_elem_of_lookup_2 in Hl. rewrite list_elem_of_In in Hl.
      apply pair_lots_In in Hl. tauto. }
    destruct (consumed_expr_cases issues (Receipts.cum_in_prev r) (Receipts.lot_qty r) Hpos)
      as (cq & Hc & H1 & H2 & H3 & _).
    destruct (Allocated_row_Some r (c, s) (pair_movements a L (c, s)))
      as (_ & Ad & Aid & Aq & Ap & Ai & Ac & Ar).
    fold issues in Ai, Ac, Ar. rewrite Hc in Ac, Ar. cbn [option_map] in Ar.
    exists (Allocated_row r (Some (Totals_of_group (c, s) (pair_movements a L (c, s))))), cq.
    split; [rewrite Halloc, map_lookup, Hr; reflexivity|].
    rewrite Ad, Aid, Aq, Ap, Ai, Ac, Ar.
    repeat split; try assumption.
    rewrite Hsum. cbn [coalesce]. ring.
  - apply LiveLayers_pair_live.
Qed.

Lemma window_scan_qty (before : option Q) (rows : list SP_InventoryLedger.row) :
  List.map Receipts.lot_qty (window_scan before rows) = List.map SP_InventoryLedger.Qty rows.
Proof.
  revert before. induction rows as [|l rows IH]; intros before; simpl; [reflexivity|].
  now rewrite IH.
Qed.

Lemma Qsum_receipts (g : list SP_InventoryLedger.row) :
  (Qsum (List.map SP_InventoryLedger.Qty (List.filter is_receipt g))
   == Qsum (List.map receipt_of g))%Q.
Proof.
  induction g as [|l g IH]; simpl; [reflexivity|].
  unfold receipt_of at 1, is_receipt at 1.
  destruct (Qltb 0 (SP_InventoryLedger.Qty l)); simpl; rewrite IH; ring.
Qed.

(** What is left in the live layers and what was consumed add up to the lots. *)
Lemma live_plus_consumed (alloc : list Allocated.row) :
  (forall x, In x alloc ->
     exists cq, Allocated.consumed_qty x = Some cq
       /\ Allocated.remaining_qty x = Some (Allocated.lot_qty x - cq)%Q
       /\ (0 <= cq)%Q /\ (cq <= Allocated.lot_qty x)%Q) ->
  (Qsum (List.map (fun r => coalesce (Allocated.remaining_qty r) 0%Q)
           (List.filter (fun r => Qltb 0 (coalesce (Allocated.remaining_qty r) 0%Q)) alloc))
   + Qsum (List.map (fun r => coalesce (Allocated.consumed_qty r) 0%Q) alloc)
   == Qsum (List.map Allocated.lot_qty alloc))%Q.
Proof.
  induction alloc as [|r rest IH]; intros Hall; simpl; [ring|].
  destruct (Hall r (or_introl eq_refl)) as (cq & Hc & Hr & Hlo & Hhi).
  assert (IH' := IH (fun x Hx => Hall x (or_intror Hx))). clear IH.
  rewrite Hc, Hr. cbn [coalesce].
  destruct (Qltb 0 (Allocated.lot_qty r - cq)) eqn:E; simpl.
  - rewrite Hr. cbn [coalesce]. lra.
  - apply Qltb_ge in E. lra.
Qed.

Lemma Totals_In (a : fifo_args) (L : list SP_InventoryLedger.row) (t : Totals.row) :
  In t (Totals a L) ->
  t = Totals_of_group (tot_pair t) (pair_movements a L (tot_pair t)).
Proof.
  unfold Totals. intros Ht. apply in_map_iff in Ht as (k & <- & _).
  destruct k as [c s]. reflexivity.
Qed.

(** C2.  FIFO conservation: for every pair of the aging computation (every
    row of Totals), what remains in its live layers plus what was consumed
    from all its lots equals its total receipts. *)
Theorem fifo_conservation (a : fifo_args) (L : list SP_InventoryLedger.row) (t : Totals.row) :
  In t (Totals a L) ->
  (Qsum (List.map LiveLayers.remaining_qty (group_rows live_pair (tot_pair t) (LiveLayers a L)))
   + Qsum (List.map (fun r => coalesce (Allocated.consumed_qty r) 0%Q)
             (group_rows alloc_pair (tot_pair t) (Allocated a L)))
   == Totals.total_receipts t)%Q.
Proof.
  intros Ht. rewrite (Totals_In a L t Ht) at 3.
  destruct (tot_pair t) as [c s].
  cbn [Totals_of_group Totals.total_receipts]. rewrite coalesce_sql_sum.
  rewrite LiveLayers_pair_live, List.map_map. cbn [LiveLayers.remaining_qty].
  rewrite live_plus_consumed.
  2:{ intros x Hx. destruct (Allocated_pair_rows a L (c, s) x Hx) as (_ & _ & H). exact H. }
  rewrite Allocated_pair, List.map_map.
  rewrite (List.map_ext _ Receipts.lot_qty) by reflexivity.
  rewrite window_scan_qty, <- Qsum_receipts.
  apply Qsum_perm, Permutation_map, pair_lots_perm.
Qed.

Lemma fifo_conservation_witness :
  let t := Totals_of_group (1, 1) (pair_movements fifo_day20 fifo_ledger (1, 1)) in
  In t (Totals fifo_day20 fifo_ledger)
  /\ (Qsum (List.map LiveLayers.remaining_qty
              (group_rows live_pair (tot_pair t) (LiveLayers fifo_day20 fifo_ledger)))
      + Qsum (List.map (fun r => coalesce (Allocated.consumed_qty r) 0%Q)
                (group_rows alloc_pair (tot_pair t) (Allocated fifo_day20 fifo_ledger)))
      == Totals.total_receipts t)%Q.
Proof.
  assert (H : In (Totals_of_group (1, 1) (pair_movements fifo_day20 fifo_ledger (1, 1)))
                (Totals fifo_day20 fifo_ledger)) by (left; reflexivity).
  split; [exact H|].
  exact (fifo_conservation fifo_day20 fifo_ledger _ H).
Defined.





(** ** Anchor and balance *)

Lemma sql_max_Some (l : list Z) (m : Z) :
  sql_max l = Some m -> In m l /\ forall x, In x l -> x <= m.
Proof.
  destruct l as [|x0 xs]; [discriminate|]. simpl. intros [= <-].
  induction xs as [|y ys IH]; simpl.
  - split; [left; reflexivity|]. intros x [->|[]]. lia.
  - destruct IH as [Hin Hmax]. split.
    + destruct (Z.max_spec y (fold_right Z.max x0 ys)) as [[_ ->]|[_ ->]].
      * destruct Hin as [Hin|Hin]; [left|right; right]; exact Hin.
      * right. left. reflexivity.
    + intros x [->|[->|Hx]].
      * specialize (Hmax x (or_introl eq_refl)). lia.
      * lia.
      * specialize (Hmax x (or_intror Hx)). lia.
Qed.

Lemma sql_max_None (l : list Z) : sql_max l = None <-> l = [].
Proof. destruct l; simpl; split; congruence. Qed.

(** [MAX(DocDate)] over a filtered ledger is the latest selected date. *)
Lemma sql_max_latest (p : SP_InventoryLedger.row -> bool) (L : list SP_InventoryLedger.row) :
  (forall d, sql_max (List.map SP_InventoryLedger.DocDate (List.filter p L)) = Some d
             <-> is_latest_date p L d)
  /\ (sql_max (List.map SP_InventoryLedger.DocDate (List.filter p L)) = None
      <-> forall l, In l L -> p l = false).
Proof.
  assert (Hfwd : forall d, sql_max (List.map SP_InventoryLedger.DocDate (List.filter p L)) = Some d
                           -> is_latest_date p L d).
  { intros d Hd. apply sql_max_Some in Hd as [Hin Hmax]. split.
    - apply in_map_iff in Hin as (l & Hl & Hf). apply filter_In in Hf as [HL Hp].
      exists l. auto.
    - intros l HL Hp. apply Hmax, in_map, filter_In. auto. }
  assert (Hnone : sql_max (List.map SP_InventoryLedger.DocDate (List.filter p L)) = None
                  <-> forall l, In l L -> p l = false).
  { rewrite sql_max_None. rewrite <- filter_nil_iff. split.
    - apply map_eq_nil.
    - intros ->. reflexivity. }
  split; [|exact Hnone].
  intros d. split; [apply Hfwd|].
  intros [(l & HL & Hp & Hd) Hmax].
  destruct (sql_max _) as [d'|] eqn:E.
  - destruct (Hfwd d' eq_refl) as [(l' & HL' & Hp' & Hd') Hmax'].
    specialize (Hmax l' HL' Hp'). specialize (Hmax' l HL Hp). f_equal. lia.
  - rewrite (proj1 Hnone eq_refl l HL) in Hp. discriminate.
Qed.

(** C8.  The customer anchor is the latest ADJUST date of the customer on or
    before as_of, whatever the SKU; the SKU anchor is the same for rows of
    this SKU only; the effective anchor is the later of the two when both
    exist, the one that exists when only one does, and None when neither
    does. *)
Theorem effective_anchor_is_later_of_both
    (L : list SP_InventoryLedger.row) (c s as_of : Z) :
  let ca := _anchor_adjust_date_customer L c as_of in
  let sa := _anchor_adjust_date_sku_only L c s as_of in
  (forall d, ca = Some d <-> is_latest_date (customer_adjust c as_of) L d)
  /\ (ca = None <-> forall l, In l L -> customer_adjust c as_of l = false)
  /\ (forall d, sa = Some d <-> is_latest_date (sku_adjust c s as_of) L d)
  /\ (sa = None <-> forall l, In l L -> sku_adjust c s as_of l = false)
  /\ _effective_anchor_for_sku L c s as_of
     = match ca, sa with
       | Some x, Some y => Some (Z.max x y)
       | Some x, None => Some x
       | None, Some y => Some y
       | None, None => None
       end.
Proof.
  intros ca sa.
  assert (Eca : ca = sql_max (List.map SP_InventoryLedger.DocDate
                                (List.filter (customer_adjust c as_of) L))) by reflexivity.
  assert (Esa : sa = sql_max (List.map SP_InventoryLedger.DocDate
                                (List.filter (sku_adjust c s as_of) L))).
  { subst sa. unfold _anchor_adjust_date_sku_only. do 2 f_equal.
    apply List.filter_ext. intros l. unfold sku_adjust, customer_adjust, MOVT_ADJUST.
    destruct (SP_InventoryLedger.CustomerID l =? c), (SP_InventoryLedger.SKU_ID l =? s),
      (String.eqb (SP_InventoryLedger.MovementType l) "ADJUST"),
      (SP_InventoryLedger.DocDate l <=? as_of); reflexivity. }
  destruct (sql_max_latest (customer_adjust c as_of) L) as [Hc1 Hc2].
  destruct (sql_max_latest (sku_adjust c s as_of) L) as [Hs1 Hs2].
  rewrite <- Eca in Hc1, Hc2. rewrite <- Esa in Hs1, Hs2.
  split; [exact Hc1|]. split; [exact Hc2|]. split; [exact Hs1|]. split; [exact Hs2|].
  unfold _effective_anchor_for_sku. fold ca sa. destruct ca, sa; reflexivity.
Qed.

(** Every ADJUST row of the SKU is also an ADJUST row of its customer, so
    the SKU anchor is never later than the customer anchor: the effective
    anchor always is the customer anchor. *)
Lemma effective_anchor_is_customer_anchor (L : list SP_InventoryLedger.row) (c s as_of : Z) :
  _effective_anchor_for_sku L c s as_of = _anchor_adjust_date_customer L c as_of.
Proof.
  destruct (sql_max_latest (customer_adjust c as_of) L) as [Hc1 Hc2].
  assert (Esa : _anchor_adjust_date_sku_only L c s as_of
                = sql_max (List.map SP_InventoryLedger.DocDate
                             (List.filter (sku_adjust c s as_of) L))).
  { unfold _anchor_adjust_date_sku_only. do 2 f_equal.
    apply List.filter_ext. intros l. unfold sku_adjust, customer_adjust, MOVT_ADJUST.
    destruct (SP_InventoryLedger.CustomerID l =? c), (SP_InventoryLedger.SKU_ID l =? s),
      (String.eqb (SP_InventoryLedger.MovementType l) "ADJUST"),
      (SP_InventoryLedger.DocDate l <=? as_of); reflexivity. }
  destruct (sql_max_latest (sku_adjust c s as_of) L) as [Hs1 _].
  unfold _effective_anchor_for_sku. rewrite Esa.
  change (_anchor_adjust_date_customer L c as_of)
    with (sql_max (List.map SP_InventoryLedger.DocDate
                     (List.filter (customer_adjust c as_of) L))).
  destruct (sql_max (List.map SP_InventoryLedger.DocDate
                       (List.filter (sku_adjust c s as_of) L))) as [y|] eqn:Ey.
  - destruct (proj1 (Hs1 y) eq_refl) as [(l & Hl & Hp & Hd) _].
    assert (Hcust : customer_adjust c as_of l = true).
    { unfold sku_adjust in Hp. apply andb_true_iff in Hp. tauto. }
    destruct (sql_max (List.map SP_InventoryLedger.DocDate
                         (List.filter (customer_adjust c as_of) L))) as [x|] eqn:Ex.
    + destruct (proj1 (Hc1 x) eq_refl) as [_ Hmax].
      specialize (Hmax l Hl Hcust). f_equal. lia.
    + rewrite (proj1 Hc2 eq_refl l Hl) in Hcust. discriminate.
  - destruct (sql_max _); reflexivity.
Qed.

(** *** The first row of an ordered query *)

#[global] Instance snap_desc_total : Total snap_desc.
Proof. intros x y. unfold snap_desc, snap_desc_b. lia. Qed.

#[global] Instance snap_desc_trans : Transitive snap_desc.
Proof. intros x y z. unfold snap_desc, snap_desc_b. lia. Qed.

#[global] Instance upload_desc_total : Total upload_desc.
Proof. intros x y. unfold upload_desc. lia. Qed.

#[global] Instance upload_desc_trans : Transitive upload_desc.
Proof. intros x y z. unfold upload_desc. lia. Qed.

Lemma first_by_Some {A : Type} (R : relation A) `{RelDecision A A R}
    `{!Total R} `{!Transitive R} (rows : list A) (x : A) :
  first_by R rows = Some x -> In x rows /\ forall y, In y rows -> R x y.
Proof.
  unfold first_by. intros Hx.
  pose proof (merge_sort_Permutation R rows) as Hperm.
  pose proof (StronglySorted_merge_sort R rows) as Hsorted.
  destruct (merge_sort R rows) as [|x0 rest]; [discriminate|].
  injection Hx as ->. split.
  - apply list_elem_of_In. rewrite <- Hperm. left.
  - intros y Hy. apply list_elem_of_In in Hy. rewrite <- Hperm in Hy.
    apply StronglySorted_inv in Hsorted as [_ Hall].
    apply elem_of_cons in Hy as [->|Hy].
    + destruct (total R x x); assumption.
    + rewrite List.Forall_forall in Hall. apply Hall, list_elem_of_In, Hy.
Qed.

Lemma first_by_None {A : Type} (R : relation A) `{RelDecision A A R} (rows : list A) :
  first_by R rows = None <-> rows = [].
Proof.
  unfold first_by. split.
  - intros Hx. pose proof (merge_sort_Permutation R rows) as Hperm.
    destruct (merge_sort R rows); [|discriminate].
    apply Permutation_nil in Hperm. exact Hperm.
  - intros ->. reflexivity.
Qed.

(** *** Snapshots *)

Lemma snapshot_on_date_spec (S : list SP_SOH_Detail.row) (c s day : Z) :
  ((exists r, In r S /\ active_snapshot c s r /\ SP_SOH_Detail.SOHDate r = day) ->
   exists snap,
     In snap S /\ active_snapshot c s snap /\ SP_SOH_Detail.SOHDate snap = day
     /\ (forall r, In r S -> active_snapshot c s r -> SP_SOH_Detail.SOHDate r = day ->
                   SP_SOH_Detail.SOHUploadID r <= SP_SOH_Detail.SOHUploadID snap)
     /\ _snapshot_qty_on_date S c s day = (SP_SOH_Detail.SOHQty snap, true))
  /\ ((forall r, In r S -> active_snapshot c s r -> SP_SOH_Detail.SOHDate r <> day) ->
      _snapshot_qty_on_date S c s day = (0%Q, false)).
Proof.
  unfold _snapshot_qty_on_date.
  set (q := List.filter _ S).
  assert (Hq : forall r, In r q <->
                 In r S /\ active_snapshot c s r /\ SP_SOH_Detail.SOHDate r = day).
  { intros r. unfold q, active_snapshot. rewrite filter_In.
    rewrite !andb_true_iff, !Z.eqb_eq. tauto. }
  split.
  - intros (r0 & Hr0). apply Hq in Hr0.
    destruct (first_by upload_desc q) as [snap|] eqn:E.
    + apply first_by_Some in E as [Hin Hfirst]; try apply _.
      exists snap. apply Hq in Hin as (HS & Hact & Hday).
      repeat split; try assumption; try apply Hact.
      intros r Hr Ha Hd. specialize (Hfirst r (proj2 (Hq r) (conj Hr (conj Ha Hd)))).
      unfold upload_desc in Hfirst. lia.
    + apply first_by_None in E. rewrite E in Hr0. destruct Hr0.
  - intros Hno. destruct (first_by upload_desc q) as [snap|] eqn:E; [|reflexivity].
    apply first_by_Some in E as [Hin _]; try apply _.
    apply Hq in Hin as (HS & Hact & Hday). exfalso. exact (Hno snap HS Hact Hday).
Qed.


Lemma signed_sum_filter (c s : Z) (f p : SP_InventoryLedger.row -> bool)
    (L : list SP_InventoryLedger.row) :
  (forall l, f l = (SP_InventoryLedger.CustomerID l =? c)
                   && (SP_InventoryLedger.SKU_ID l =? s) && p l) ->
  coalesce (sql_sum (List.map _signed_qty_expr (List.filter f L))) 0%Q
  = signed_sum c s p L.
Proof.
  intros Hf. rewrite coalesce_sql_sum. unfold signed_sum.
  now rewrite (List.filter_ext _ _ Hf).
Qed.


(** The sign convention of the sums. *)
Lemma signed_qty_convention (l : SP_InventoryLedger.row) :
  (SP_InventoryLedger.MovementType l = MOVT_SELLOUT ->
   _signed_qty_expr l = Qopp (Qabs (SP_InventoryLedger.Qty l)))
  /\ (SP_InventoryLedger.MovementType l = MOVT_SELLIN
      \/ SP_InventoryLedger.MovementType l = MOVT_ADJUST ->
      _signed_qty_expr l = SP_InventoryLedger.Qty l).
Proof.
  unfold _signed_qty_expr. split.
  - intros ->. reflexivity.
  - intros [-> | ->]; reflexivity.
Qed.

(** C4.  When the effective anchor resolves and an active snapshot exists
    on the anchor date, the balance is the quantity of that snapshot (the
    one of the latest upload), plus the signed sum of the non-ADJUST entries
    dated on the anchor date, plus the signed sum of all entries with
    anchor < DocDate <= as_of; SELLOUT contributes -abs(qty), SELLIN and
    ADJUST contribute qty as stored. *)
Theorem closing_soh_on_anchor_snapshot
    (L : list SP_InventoryLedger.row) (S : list SP_SOH_Detail.row) (c s as_of anchor : Z) :
  _effective_anchor_for_sku L c s as_of = Some anchor ->
  (exists r, In r S /\ active_snapshot c s r /\ SP_SOH_Detail.SOHDate r = anchor) ->
  (exists snap,
     In snap S /\ active_snapshot c s snap /\ SP_SOH_Detail.SOHDate snap = anchor
     /\ (forall r, In r S -> active_snapshot c s r -> SP_SOH_Detail.SOHDate r = anchor ->
                   SP_SOH_Detail.SOHUploadID r <= SP_SOH_Detail.SOHUploadID snap)
     /\ _closing_soh_anchored L S c s as_of
        = (SP_SOH_Detail.SOHQty snap
           + signed_sum c s
               (fun l => (SP_InventoryLedger.DocDate l =? anchor)
                         && negb (String.eqb (SP_InventoryLedger.MovementType l) MOVT_ADJUST)) L
           + signed_sum c s
               (fun l => (anchor <? SP_InventoryLedger.DocDate l)
                         && (SP_InventoryLedger.DocDate l <=? as_of)) L)%Q)
  /\ (forall l,
        (SP_InventoryLedger.MovementType l = MOVT_SELLOUT ->
         _signed_qty_expr l = Qopp (Qabs (SP_InventoryLedger.Qty l)))
        /\ (SP_InventoryLedger.MovementType l = MOVT_SELLIN
            \/ SP_InventoryLedger.MovementType l = MOVT_ADJUST ->
            _signed_qty_expr l = SP_InventoryLedger.Qty l)).
Proof.
  intros Hanchor Hsnap. split; [|exact signed_qty_convention].
  destruct (proj1 (snapshot_on_date_spec S c s anchor) Hsnap)
    as (snap & HS & Hact & Hday & Hmax & Hq).
  exists snap. repeat split; try assumption; try apply Hact.
  unfold _closing_soh_anchored. rewrite Hanchor, Hq.
  unfold _sum_signed_on_date_excl_adjust, _sum_signed_after_date.
  rewrite (signed_sum_filter c s _
             (fun l => (SP_InventoryLedger.DocDate l =? anchor)
                       && negb (String.eqb (SP_InventoryLedger.MovementType l) MOVT_ADJUST)))
    by (intros l; now rewrite !andb_assoc).
  rewrite (signed_sum_filter c s _
             (fun l => (anchor <? SP_InventoryLedger.DocDate l)
                       && (SP_InventoryLedger.DocDate l <=? as_of)))
    by (intros l; now rewrite !andb_assoc).
  reflexivity.
Qed.

Lemma closing_soh_on_anchor_snapshot_witness :
  _effective_anchor_for_sku balance_ledger 7 3 10 = Some 1
  /\ (exists snap,
        In snap balance_snapshots /\ active_snapshot 7 3 snap
        /\ SP_SOH_Detail.SOHDate snap = 1
        /\ (forall r, In r balance_snapshots -> active_snapshot 7 3 r ->
                      SP_SOH_Detail.SOHDate r = 1 ->
                      SP_SOH_Detail.SOHUploadID r <= SP_SOH_Detail.SOHUploadID snap)
        /\ _closing_soh_anchored balance_ledger balance_snapshots 7 3 10
           = (SP_SOH_Detail.SOHQty snap
              + signed_sum 7 3
                  (fun l => (SP_InventoryLedger.DocDate l =? 1)
                            && negb (String.eqb (SP_InventoryLedger.MovementType l) MOVT_ADJUST))
                  balance_ledger
              + signed_sum 7 3
                  (fun l => (1 <? SP_InventoryLedger.DocDate l)
                            && (SP_InventoryLedger.DocDate l <=? 10))
                  balance_ledger)%Q).
Proof.
  assert (H1 : _effective_anchor_for_sku balance_ledger 7 3 10 = Some 1) by reflexivity.
  assert (H2 : exists r, In r balance_snapshots /\ active_snapshot 7 3 r
                         /\ SP_SOH_Detail.SOHDate r = 1).
  { exists (SP_SOH_Detail.mk 1 7 None 3 1 1 100 true).
    split; [left; reflexivity|]. repeat split. }
  split; [exact H1|].
  exact (proj1 (closing_soh_on_anchor_snapshot balance_ledger balance_snapshots 7 3 10 1 H1 H2)).
Defined.



(** ** Negative-balance preview *)

(** *** Grouping by SKU *)






(** *** The walk over the rows of one SKU *)


















#[global] Instance line_le_total : Total line_le.
Proof. intros x y. unfold line_le, line_leb. lia. Qed.

#[global] Instance line_le_trans : Transitive line_le.
Proof. intros x y z. unfold line_le, line_leb. lia. Qed.


(** *** The whole preview *)











(** ** Posting a sell-out upload *)



Lemma claim_draft_one (db db' : database) (id : Z) :
  claim_draft db id = (db', 1) ->
  exists h, db_uploads db !! id = Some h
    /\ SP_SellOutUploads.Status h = "Draft"%string
    /\ db_details db' = db_details db /\ db_ledger db' = db_ledger db
    /\ db_approvals db' = db_approvals db /\ db_users db' = db_users db
    /\ exists h', db_uploads db' !! id = Some h'
                  /\ SP_SellOutUploads.Status h' = "Posting"%string.
Proof.
  unfold claim_draft. destruct (db_uploads db !! id) as [h|] eqn:Hh; [|intros [= _ H]; discriminate].
  destruct (String.eqb_spec (SP_SellOutUploads.Status h) "Draft") as [Hs|_];
    [|intros [= _ H]; discriminate].
  intros [= <-]. exists h. repeat split; try assumption.
  eexists. split; [apply lookup_insert_eq|reflexivity].
Qed.

(** The unique index does not look at the LedgerID, so the keys of the
    ledger after a series of inserts are the old keys followed by those of
    the rows inserted. *)
Lemma ledger_keys_fold (rows : list SP_InventoryLedger.row) :
  forall L,
    List.map ledger_unique_key (fold_left ledger_insert rows L)
    = List.map ledger_unique_key L ++ List.map ledger_unique_key rows.
Proof.
  induction rows as [|r rows IH]; intros L; cbn [fold_left List.map].
  - symmetry. apply app_nil_r.
  - rewrite IH. unfold ledger_insert. rewrite List.map_app, <- app_assoc. reflexivity.
Qed.

Section posting_facts.

Variable int_of_varchar : string -> option Z.

Lemma commit_None (ws : list pending) :
  fold_left (fun st w => match st with
                         | Some d => flush_one int_of_varchar d w
                         | None => None
                         end) ws None = None.
Proof. induction ws as [|w ws IH]; [reflexivity|exact IH]. Qed.

Lemma commit_cons (db : database) (w : pending) (ws : list pending) :
  commit int_of_varchar db (w :: ws)
  = match flush_one int_of_varchar db w with
    | Some d => commit int_of_varchar d ws
    | None => None
    end.
Proof.
  unfold commit. cbn [fold_left].
  destruct (flush_one int_of_varchar db w); [reflexivity|apply commit_None].
Qed.

Lemma commit_app (db : database) (ws1 ws2 : list pending) :
  commit int_of_varchar db (ws1 ++ ws2)
  = match commit int_of_varchar db ws1 with
    | Some d => commit int_of_varchar d ws2
    | None => None
    end.
Proof.
  unfold commit. rewrite fold_left_app.
  destruct (fold_left _ ws1 (Some db)); [reflexivity|apply commit_None].
Qed.

(** The flush of ledger rows: it goes through when the unique index holds
    of the ledger with all the rows. *)
Lemma commit_add_ledger (rows : list SP_InventoryLedger.row) :
  forall db,
    commit int_of_varchar db (List.map AddLedger rows)
    = match rows with
      | [] => Some db
      | _ :: _ =>
          if unique_index_ok (fold_left ledger_insert rows (db_ledger db))
          then Some (mk_db (db_uploads db) (db_details db)
                       (fold_left ledger_insert rows (db_ledger db))
                       (db_approvals db) (db_users db))
          else None
      end.
Proof.
  induction rows as [|r rows IH]; intros db; [reflexivity|].
  cbn [List.map]. rewrite commit_cons. cbn [flush_one fold_left].
  destruct (unique_index_ok (ledger_insert (db_ledger db) r)) eqn:E.
  - rewrite IH. cbn [db_ledger db_uploads db_details db_approvals db_users].
    destruct rows as [|r' rows']; [cbn [fold_left]; rewrite E; reflexivity|reflexivity].
  - destruct (unique_index_ok (fold_left ledger_insert rows (ledger_insert (db_ledger db) r)))
      eqn:E'; [|reflexivity].
    exfalso. unfold unique_index_ok in E, E'.
    apply bool_decide_eq_true in E'. apply bool_decide_eq_false in E. apply E.
    rewrite ledger_keys_fold in E'. apply NoDup_app in E'. tauto.
Qed.

(** The commit of what [_post_sellout_running] leaves in the session. *)
Lemma commit_posting (db : database) (id : Z) (h : SP_SellOutUploads.row)
    (rows : list SP_InventoryLedger.row) (v : py_value) (comment : option string) :
  db_uploads db !! id = Some h ->
  rows <> [] ->
  commit int_of_varchar db
    (List.map AddLedger rows
     ++ [SetStatus id "Posted"; SetApprovedBy id v; AddApproval id "APPROVE" v comment])
  = match Integer_column int_of_varchar v with
    | Some a =>
        if bool_decide (a ∈ db_users db)
           && unique_index_ok (fold_left ledger_insert rows (db_ledger db))
        then Some (mk_db
                     (<[id := SP_SellOutUploads.mk id (SP_SellOutUploads.CustomerID h)
                                (SP_SellOutUploads.Brand h) "Posted" (Some a)]> (db_uploads db))
                     (db_details db)
                     (fold_left ledger_insert rows (db_ledger db))
                     (db_approvals db ++ [SP_SellOutApproval.mk id "APPROVE" a comment])
                     (db_users db))
        else None
    | None => None
    end.
Proof.
  intros Hh Hrows. rewrite commit_app, commit_add_ledger.
  destruct rows as [|r rows']; [contradiction|]. clear Hrows.
  set (rows := r :: rows').
  destruct (unique_index_ok (fold_left ledger_insert rows (db_ledger db))) eqn:Eu.
  2:{ destruct (Integer_column int_of_varchar v); [|reflexivity].
      rewrite andb_false_r. reflexivity. }
  rewrite commit_cons.
  cbn [flush_one db_uploads db_details db_ledger db_approvals db_users]. rewrite Hh.
  rewrite commit_cons.
  cbn [flush_one db_uploads db_details db_ledger db_approvals db_users].
  rewrite lookup_insert_eq.
  cbn [SP_SellOutUploads.CustomerID SP_SellOutUploads.Brand SP_SellOutUploads.Status
       SP_SellOutUploads.ApprovedBy].
  unfold ApprovedBy_column.
  destruct v as [|n|s].
  - reflexivity.
  - destruct (Integer_column int_of_varchar (PyInt n)) as [a|] eqn:E; [|reflexivity].
    rewrite andb_true_r.
    destruct (bool_decide (a ∈ db_users db)); [|reflexivity].
    rewrite commit_cons.
    cbn [flush_one db_uploads db_details db_ledger db_approvals db_users].
    rewrite E. rewrite insert_insert_eq. reflexivity.
  - destruct (Integer_column int_of_varchar (PyStr s)) as [a|] eqn:E; [|reflexivity].
    rewrite andb_true_r.
    destruct (bool_decide (a ∈ db_users db)); [|reflexivity].
    rewrite commit_cons.
    cbn [flush_one db_uploads db_details db_ledger db_approvals db_users].
    rewrite E. rewrite insert_insert_eq. reflexivity.
Qed.

(** The turn of the loop of [approve_uploads], case by case. *)
Lemma approve_one_cases (actor : py_value) (comment : option string)
    (db : database) (id : Z) :
  approve_one int_of_varchar actor comment db id
  = match db_uploads db !! id with
    | None => (db, Failed (Message "404 Not Found: Upload not found"))
    | Some h =>
        if String.eqb (SP_SellOutUploads.Status h) "Draft"
        then
          match active_details (db_details db) id with
          | [] => (db, Failed (Message "No active detail rows to post"))
          | _ :: _ =>
              match approver_id int_of_varchar db actor with
              | Some a =>
                  if unique_index_ok
                       (fold_left ledger_insert (posting_rows_of db id h) (db_ledger db))
                  then (posted_db db id h a comment, Posted)
                  else (db, CommitFailed)
              | None => (db, CommitFailed)
              end
          end
        else (db, Skipped (SP_SellOutUploads.Status h))
    end.
Proof.
  unfold approve_one, _get_upload_or_404.
  destruct (db_uploads db !! id) as [h|] eqn:Hh; [|reflexivity].
  cbn [SP_SellOutUploads.UploadID SP_SellOutUploads.Status].
  unfold claim_draft. rewrite Hh.
  destruct (String.eqb_spec (SP_SellOutUploads.Status h) "Draft") as [Hs|Hs]; [|reflexivity].
  cbn [Z.eqb Pos.eqb negb].
  unfold _post_sellout_running.
  cbn [SP_SellOutUploads.UploadID SP_SellOutUploads.Status db_details].
  rewrite Hs. cbn [String.eqb Ascii.eqb Bool.eqb].
  destruct (active_details (db_details db) id) as [|d ds] eqn:Hdet; [reflexivity|].
  rewrite <- Hdet.
  set (u := SP_SellOutUploads.mk id (SP_SellOutUploads.CustomerID h)
              (SP_SellOutUploads.Brand h) "Draft" (SP_SellOutUploads.ApprovedBy h)).
  rewrite <- (List.map_map (sellout_ledger_row u) AddLedger).
  set (db1 := mk_db _ (db_details db) (db_ledger db) (db_approvals db) (db_users db)).
  rewrite (commit_posting db1 id
             (SP_SellOutUploads.mk (SP_SellOutUploads.UploadID h) (SP_SellOutUploads.CustomerID h)
                (SP_SellOutUploads.Brand h) "Posting" (SP_SellOutUploads.ApprovedBy h))).
  2:{ subst db1. cbn [db_uploads]. apply lookup_insert_eq. }
  2:{ rewrite Hdet. discriminate. }
  unfold approver_id, posted_db, posting_rows_of. rewrite Hs. fold u.
  subst db1. cbn [db_uploads db_details db_ledger db_approvals db_users
                  SP_SellOutUploads.CustomerID SP_SellOutUploads.Brand].
  destruct (Integer_column int_of_varchar (py_or actor "approver")) as [a|]; [|reflexivity].
  destruct (bool_decide (a ∈ db_users db)); cbn [andb]; [|reflexivity].
  destruct (unique_index_ok _); [|reflexivity].
  rewrite insert_insert_eq. reflexivity.
Qed.

(** What a successful posting leaves behind. *)
Lemma approve_one_posted (actor : py_value) (comment : option string)
    (db db' : database) (id : Z) :
  approve_one int_of_varchar actor comment db id = (db', Posted) ->
  exists h a,
    db_uploads db !! id = Some h
    /\ SP_SellOutUploads.Status h = "Draft"%string
    /\ snd (claim_draft db id) = 1
    /\ active_details (db_details db) id <> []
    /\ approver_id int_of_varchar db actor = Some a
    /\ unique_index_ok (db_ledger db') = true
    /\ db' = posted_db db id h a comment.
Proof.
  rewrite approve_one_cases.
  destruct (db_uploads db !! id) as [h|] eqn:Hh; [|discriminate].
  destruct (String.eqb_spec (SP_SellOutUploads.Status h) "Draft") as [Hs|Hs]; [|discriminate].
  destruct (active_details (db_details db) id) as [|d ds] eqn:Hdet; [discriminate|].
  destruct (approver_id int_of_varchar db actor) as [a|]; [|discriminate].
  destruct (unique_index_ok _) eqn:Eu; [|discriminate].
  intros [= <-]. exists h, a. split; [reflexivity|]. split; [exact Hs|].
  split; [unfold claim_draft; rewrite Hh, Hs; reflexivity|].
  split; [discriminate|]. split; [reflexivity|]. split; [exact Eu|reflexivity].
Qed.










End posting_facts.

(** ** The sign of the stored quantities *)

Lemma fold_ledger_insert (rows : list SP_InventoryLedger.row) :
  forall L, exists rows',
    fold_left ledger_insert rows L = L ++ rows'
    /\ Forall2 inserted_as rows rows'.
Proof.
  induction rows as [|r rows IH]; intros L.
  - exists []. split; [symmetry; apply app_nil_r|constructor].
  - cbn [fold_left]. destruct (IH (ledger_insert L r)) as (rows' & Heq & Hall).
    rewrite Heq. unfold ledger_insert. rewrite <- app_assoc.
    eexists. split; [reflexivity|]. constructor; [|exact Hall].
    unfold inserted_as. cbn. repeat split.
Qed.






Lemma Forall2_map_l {A B C : Type} (P : B -> C -> Prop) (f : A -> B) (l : list A) (l' : list C) :
  Forall2 P (List.map f l) l' -> Forall2 (fun x y => P (f x) y) l l'.
Proof.
  revert l'. induction l as [|x l IH]; intros l' H; inversion H; subst; constructor; auto.
Qed.

Lemma Forall2_impl_In {A B : Type} (P R : A -> B -> Prop) (l : list A) (l' : list B) :
  Forall2 P l l' -> (forall x y, In x l -> P x y -> R x y) -> Forall2 R l l'.
Proof.
  induction 1 as [|x y l l' Hxy _ IH]; intros Himp; constructor.
  - apply Himp; [left; reflexivity|exact Hxy].
  - apply IH. intros x' y' Hin. apply Himp. right. exact Hin.
Qed.

Lemma Forall2_In_r {A B : Type} (P : A -> B -> Prop) (l : list A) (l' : list B) (y : B) :
  Forall2 P l l' -> In y l' -> exists x, In x l /\ P x y.
Proof.
  induction 1 as [|x y0 l l' Hxy _ IH]; intros Hin; [destruct Hin|].
  destruct Hin as [<-|Hin].
  - exists x. split; [left; reflexivity|exact Hxy].
  - destruct (IH Hin) as (x' & Hx' & Hp). exists x'. split; [right|]; assumption.
Qed.








(** The posting itself only negates the quantity of the line: on a line
    that did not pass the upload route the stored SELLOUT quantity would be
    positive. *)
Lemma sellout_ledger_row_negates (u : SP_SellOutUploads.row) (d : SP_MCSI_SellOut.row) :
  SP_InventoryLedger.Qty (sellout_ledger_row u d) = Qopp (SP_MCSI_SellOut.SellOutQty d).
Proof. reflexivity. Qed.

(** ** Customer status recompute *)

Lemma elem_of_tags_of (T : gset (Z * Z)) (cid sid : Z) :
  sid ∈ tags_of T cid <-> (cid, sid) ∈ T.
Proof.
  unfold tags_of. rewrite elem_of_map. split.
  - intros ([c x] & -> & Hin). apply elem_of_filter in Hin as [Hc Hin].
    simpl in Hc. subst c. exact Hin.
  - intros Hin. exists (cid, sid). split; [reflexivity|].
    apply elem_of_filter. split; [reflexivity|exact Hin].
Qed.

Lemma elem_of_sync_tags (T : gset (Z * Z)) (cid : Z) (want : gset Z) (c x : Z) :
  (c, x) ∈ _sync_tags T cid want
  <-> (c <> cid /\ (c, x) ∈ T) \/ (c = cid /\ x ∈ want /\ x <> 0).
Proof.
  unfold _sync_tags. rewrite elem_of_union, elem_of_map.
  set (w := filter (fun s : Z => s <> 0) want).
  assert (Hw : forall y, y ∈ w <-> y <> 0 /\ y ∈ want).
  { intros y. unfold w. rewrite elem_of_filter. reflexivity. }
  split.
  - intros [Hin|(y & Heq & Hy)].
    + destruct (decide (w = ∅)) as [He|Hne].
      * apply elem_of_filter in Hin as [Hc Hin]. left. auto.
      * apply elem_of_filter in Hin as [Hc Hin]. simpl in Hc.
        destruct (decide (c = cid)) as [->|Hcc]; [|left; auto].
        right. destruct (decide (x ∈ w)) as [Hx|Hx].
        -- apply Hw in Hx. tauto.
        -- exfalso. apply Hc. auto.
    + injection Heq as -> ->. apply Hw in Hy. right. tauto.
  - intros [[Hc Hin]|(-> & Hx & Hnz)].
    + left. destruct (decide (w = ∅)); apply elem_of_filter; (split; [|exact Hin]); simpl.
      * exact Hc.
      * intros [Heq _]. contradiction.
    + right. exists x. split; [reflexivity|]. apply Hw. auto.
Qed.

Lemma tags_of_sync_other (T : gset (Z * Z)) (cid cid' : Z) (want : gset Z) :
  cid' <> cid -> tags_of (_sync_tags T cid want) cid' = tags_of T cid'.
Proof.
  intros Hne. apply set_eq. intros x.
  rewrite !elem_of_tags_of, elem_of_sync_tags. tauto.
Qed.

Lemma tags_of_sync_self (T : gset (Z * Z)) (cid : Z) (want : gset Z) :
  (forall x, x ∈ want -> x <> 0) ->
  tags_of (_sync_tags T cid want) cid = want.
Proof.
  intros Hnz. apply set_eq. intros x.
  rewrite elem_of_tags_of, elem_of_sync_tags. split.
  - intros [[Hc _]|(_ & Hx & _)]; [contradiction|exact Hx].
  - intros Hx. right. auto.
Qed.

Lemma elem_of_want_tags (cfg : status_config) (ds_in ds_out : Z) (x : Z) :
  x ∈ want_tags cfg ds_in ds_out
  <-> (hib_in_days cfg < ds_in /\ x = tag_in cfg)
      \/ (hib_out_days cfg < ds_out /\ x = tag_out cfg).
Proof.
  unfold want_tags. rewrite elem_of_union.
  destruct (Z.ltb_spec (hib_in_days cfg) ds_in), (Z.ltb_spec (hib_out_days cfg) ds_out);
    rewrite ?elem_of_singleton, ?elem_of_empty; intuition lia.
Qed.

Lemma want_tags_nonzero (cfg : status_config) (ds_in ds_out : Z) (x : Z) :
  status_ids_ok cfg -> x ∈ want_tags cfg ds_in ds_out -> x <> 0.
Proof.
  intros (Hin & Hout & _). rewrite elem_of_want_tags. lia.
Qed.

(** The tags wanted are derived from the two idle times separately. *)
Lemma want_tags_spec (cfg : status_config) (ds_in ds_out : Z) :
  status_ids_ok cfg ->
  (tag_in cfg ∈ want_tags cfg ds_in ds_out <-> hib_in_days cfg < ds_in)
  /\ (tag_out cfg ∈ want_tags cfg ds_in ds_out <-> hib_out_days cfg < ds_out).
Proof.
  intros (_ & _ & Hne & _). rewrite !elem_of_want_tags. split; split; intuition lia.
Qed.

(** DEAD needs both idle times over the dead threshold. *)
Lemma new_primary_spec (cfg : status_config) (ds_in ds_out : Z) :
  sid_active cfg <> sid_dead cfg ->
  (new_primary cfg ds_in ds_out = sid_dead cfg
   <-> dead_days cfg < ds_in /\ dead_days cfg < ds_out)
  /\ (new_primary cfg ds_in ds_out = sid_active cfg
      <-> ~ (dead_days cfg < ds_in /\ dead_days cfg < ds_out)).
Proof.
  intros Hne. unfold new_primary.
  destruct (Z.ltb_spec (dead_days cfg) ds_in), (Z.ltb_spec (dead_days cfg) ds_out);
    cbn [andb]; split; split; intros; try lia; try congruence; try tauto.
Qed.

(** What a turn of the loop does to its own customer and to the others. *)
Lemma recompute_row_other (today : Z) (cfg : status_config) (L : list SP_InventoryLedger.row)
    (st : customer_db * status_tally) (cid : Z) (c : SP_Customer.row) (cid' : Z) :
  cid' <> cid ->
  customers (fst (recompute_row today cfg L st (cid, c))) !! cid' = customers (fst st) !! cid'
  /\ tags_of (status_tags (fst (recompute_row today cfg L st (cid, c)))) cid'
     = tags_of (status_tags (fst st)) cid'.
Proof.
  intros Hne. destruct st as [db tally]. unfold recompute_row. cbn [fst snd].
  destruct (SP_Customer.StatusID c =? sid_disabled cfg); [split; reflexivity|].
  destruct (decide (_ <> _)); destruct (negb _); cbn [fst customers status_tags];
    (split; [|try apply tags_of_sync_other; auto]);
    try reflexivity;
    destruct (customers db !! cid); try reflexivity; apply lookup_insert_ne; auto.
Qed.

Lemma recompute_row_self (today : Z) (cfg : status_config) (L : list SP_InventoryLedger.row)
    (st : customer_db * status_tally) (cid : Z) (c : SP_Customer.row) :
  status_ids_ok cfg ->
  customers (fst st) !! cid = Some c ->
  SP_Customer.StatusID c <> sid_disabled cfg ->
  let ds_in := days_since today (last_movement L "SELLIN" cid) in
  let ds_out := days_since today (last_movement L "SELLOUT" cid) in
  let st' := recompute_row today cfg L st (cid, c) in
  (exists c', customers (fst st') !! cid = Some c'
              /\ SP_Customer.StatusID c' = new_primary cfg ds_in ds_out)
  /\ tags_of (status_tags (fst st')) cid = want_tags cfg ds_in ds_out
  /\ SkippedDisabled (snd st') = SkippedDisabled (snd st).
Proof.
  intros Hids Hc Hnd ds_in ds_out st'. subst st'.
  destruct st as [db tally]. unfold recompute_row. cbn [fst snd] in *.
  destruct (Z.eqb_spec (SP_Customer.StatusID c) (sid_disabled cfg)); [contradiction|].
  fold ds_in ds_out. rewrite Hc.
  destruct (decide (tags_of (status_tags db) cid <> want_tags cfg ds_in ds_out)) as [Hd|Hd];
    destruct (Z.eqb_spec (SP_Customer.StatusID c) (new_primary cfg ds_in ds_out)) as [He|He];
    cbn [negb fst snd customers status_tags SkippedDisabled].
  - split; [exists c; auto|]. split; [|reflexivity].
    apply tags_of_sync_self. intros x. now apply want_tags_nonzero.
  - split; [eexists; split; [apply lookup_insert_eq|reflexivity]|]. split; [|reflexivity].
    apply tags_of_sync_self. intros x. now apply want_tags_nonzero.
  - split; [exists c; auto|]. split; [|reflexivity].
    destruct (decide (tags_of (status_tags db) cid = want_tags cfg ds_in ds_out)); tauto.
  - split; [eexists; split; [apply lookup_insert_eq|reflexivity]|]. split; [|reflexivity].
    destruct (decide (tags_of (status_tags db) cid = want_tags cfg ds_in ds_out)); tauto.
Qed.

Lemma recompute_row_disabled (today : Z) (cfg : status_config) (L : list SP_InventoryLedger.row)
    (st : customer_db * status_tally) (cid : Z) (c : SP_Customer.row) :
  SP_Customer.StatusID c = sid_disabled cfg ->
  fst (recompute_row today cfg L st (cid, c)) = fst st
  /\ SkippedDisabled (snd (recompute_row today cfg L st (cid, c)))
     = SkippedDisabled (snd st) + 1.
Proof.
  intros Hd. destruct st as [db tally]. unfold recompute_row. cbn [fst snd].
  rewrite Hd, Z.eqb_refl. split; reflexivity.
Qed.

Lemma recompute_row_skipped (today : Z) (cfg : status_config) (L : list SP_InventoryLedger.row)
    (st : customer_db * status_tally) (row : Z * SP_Customer.row) :
  SkippedDisabled (snd (recompute_row today cfg L st row))
  = SkippedDisabled (snd st)
    + (if SP_Customer.StatusID row.2 =? sid_disabled cfg then 1 else 0).
Proof.
  destruct st as [db tally]. unfold recompute_row. cbn [fst snd].
  destruct (SP_Customer.StatusID row.2 =? sid_disabled cfg); [reflexivity|].
  destruct (decide (_ <> _)); destruct (negb _); cbn [snd SkippedDisabled]; lia.
Qed.

(** The loop: every customer is visited once, and a turn only touches the
    customer it is for. *)
Lemma recompute_fold (today : Z) (cfg : status_config) (L : list SP_InventoryLedger.row)
    (rows : list (Z * SP_Customer.row)) :
  status_ids_ok cfg ->
  NoDup (List.map fst rows) ->
  forall st,
    let fin := fold_left (recompute_row today cfg L) rows st in
    (forall cid, ~ In cid (List.map fst rows) ->
       customers (fst fin) !! cid = customers (fst st) !! cid
       /\ tags_of (status_tags (fst fin)) cid = tags_of (status_tags (fst st)) cid)
    /\ (forall cid c,
          In (cid, c) rows -> customers (fst st) !! cid = Some c ->
          if SP_Customer.StatusID c =? sid_disabled cfg
          then customers (fst fin) !! cid = Some c
               /\ tags_of (status_tags (fst fin)) cid = tags_of (status_tags (fst st)) cid
          else (exists c', customers (fst fin) !! cid = Some c'
                  /\ SP_Customer.StatusID c'
                     = new_primary cfg
                         (days_since today (last_movement L "SELLIN" cid))
                         (days_since today (last_movement L "SELLOUT" cid)))
               /\ tags_of (status_tags (fst fin)) cid
                  = want_tags cfg
                      (days_since today (last_movement L "SELLIN" cid))
                      (days_since today (last_movement L "SELLOUT" cid)))
    /\ SkippedDisabled (snd fin)
       = SkippedDisabled (snd st)
         + Z.of_nat (length (List.filter
                               (fun r => SP_Customer.StatusID r.2 =? sid_disabled cfg) rows)).
Proof.
  intros Hids. induction rows as [|[cid0 c0] rest IH]; intros Hnd st fin.
  - subst fin. simpl. split; [auto|]. split; [intros ? ? []|lia].
  - apply NoDup_cons in Hnd as [Hnot Hnd]. rewrite list_elem_of_In in Hnot.
    subst fin. cbn [fold_left].
    set (st1 := recompute_row today cfg L st (cid0, c0)).
    destruct (IH Hnd st1) as (Ha & Hb & Hc). clear IH. split; [|split].
    + intros cid Hcid. cbn [List.map fst In] in Hcid.
      assert (Hne : cid <> cid0) by (intros ->; apply Hcid; left; reflexivity).
      destruct (Ha cid) as [H1 H2]; [intros Hin; apply Hcid; right; exact Hin|].
      destruct (recompute_row_other today cfg L st cid0 c0 cid Hne) as [H3 H4].
      fold st1 in H3, H4. split; congruence.
    + intros cid c [Heq|Hin] Hlook.
      * injection Heq as -> ->. destruct (Ha cid Hnot) as [H1 H2]. rewrite H1, H2.
        destruct (Z.eqb_spec (SP_Customer.StatusID c) (sid_disabled cfg)) as [Hd|Hd].
        -- destruct (recompute_row_disabled today cfg L st cid c Hd) as [Hst _].
           fold st1 in Hst. rewrite Hst. auto.
        -- destruct (recompute_row_self today cfg L st cid c Hids Hlook Hd) as (H3 & H4 & _).
           fold st1 in H3, H4. auto.
      * assert (Hne : cid <> cid0).
        { intros ->. apply Hnot. apply in_map_iff. exists (cid0, c). auto. }
        destruct (recompute_row_other today cfg L st cid0 c0 cid Hne) as [H3 H4].
        fold st1 in H3, H4.
        specialize (Hb cid c Hin). rewrite H3 in Hb. specialize (Hb Hlook).
        destruct (SP_Customer.StatusID c =? sid_disabled cfg); [|exact Hb].
        destruct Hb as [Hb1 Hb2]. split; [exact Hb1|congruence].
    + rewrite Hc. unfold st1. rewrite recompute_row_skipped. cbn [List.filter snd].
      destruct (SP_Customer.StatusID c0 =? sid_disabled cfg); cbn [length]; lia.
Qed.

Lemma days_since_never (today : Z) (L : list SP_InventoryLedger.row) (mt : string) (cid : Z) :
  (forall l, In l L -> SP_InventoryLedger.MovementType l = mt ->
             SP_InventoryLedger.CustomerID l <> cid) ->
  days_since today (last_movement L mt cid) = 10 ^ 9.
Proof.
  intros Hno. unfold last_movement.
  destruct (sql_max_latest
              (fun l => String.eqb (SP_InventoryLedger.MovementType l) mt
                        && (SP_InventoryLedger.CustomerID l =? cid)) L) as [_ Hnone].
  rewrite (proj2 Hnone); [reflexivity|].
  intros l Hl. apply andb_false_iff.
  destruct (String.eqb_spec (SP_InventoryLedger.MovementType l) mt) as [Hm|]; [|left; reflexivity].
  right. apply Z.eqb_neq. exact (Hno l Hl Hm).
Qed.

Lemma days_since_latest (today : Z) (L : list SP_InventoryLedger.row) (mt : string) (cid d : Z) :
  is_latest_date (fun l => String.eqb (SP_InventoryLedger.MovementType l) mt
                           && (SP_InventoryLedger.CustomerID l =? cid)) L d ->
  days_since today (last_movement L mt cid) = today - d.
Proof.
  intros Hd. unfold last_movement.
  destruct (sql_max_latest
              (fun l => String.eqb (SP_InventoryLedger.MovementType l) mt
                        && (SP_InventoryLedger.CustomerID l =? cid)) L) as [Hsome _].
  rewrite (proj2 (Hsome d) Hd). reflexivity.
Qed.

(** C10.  For every customer that is not Disabled the recompute leaves the
    primary status DEAD exactly when the days since the last SELLIN and the
    days since the last SELLOUT both exceed the dead threshold, and Active
    otherwise; a movement type that never occurred counts as 10^9 days; the
    sell-in tag is held exactly when the sell-in idle time exceeds its
    threshold and the sell-out tag exactly when the sell-out idle time
    exceeds its own, whatever the primary status; a Disabled customer keeps
    its status and tags and is counted in SkippedDisabled.  Scenario: with
    thresholds 90, 30, 30, a customer whose last sell-in was 40 days ago and
    last sell-out 100 days ago gets the sell-in tag and stays Active. *)
Theorem recompute_statuses_spec (today : Z) (cfg : status_config)
    (L : list SP_InventoryLedger.row) (db : customer_db) :
  status_ids_ok cfg ->
  let res := _recompute_customer_statuses today cfg L db in
  (forall cid c,
     customers db !! cid = Some c ->
     SP_Customer.StatusID c <> sid_disabled cfg ->
     let ds_in := days_since today (last_movement L MOVT_SELLIN cid) in
     let ds_out := days_since today (last_movement L MOVT_SELLOUT cid) in
     (exists c',
        customers (fst res) !! cid = Some c'
        /\ (SP_Customer.StatusID c' = sid_dead cfg
            <-> dead_days cfg < ds_in /\ dead_days cfg < ds_out)
        /\ (SP_Customer.StatusID c' = sid_active cfg
            <-> ~ (dead_days cfg < ds_in /\ dead_days cfg < ds_out)))
     /\ ((cid, tag_in cfg) ∈ status_tags (fst res) <-> hib_in_days cfg < ds_in)
     /\ ((cid, tag_out cfg) ∈ status_tags (fst res) <-> hib_out_days cfg < ds_out))
  /\ (forall cid mt,
        (forall l, In l L -> SP_InventoryLedger.MovementType l = mt ->
                   SP_InventoryLedger.CustomerID l <> cid) ->
        days_since today (last_movement L mt cid) = 10 ^ 9)
  /\ (forall cid mt d,
        is_latest_date (fun l => String.eqb (SP_InventoryLedger.MovementType l) mt
                                 && (SP_InventoryLedger.CustomerID l =? cid)) L d ->
        days_since today (last_movement L mt cid) = today - d)
  /\ (forall cid c,
        customers db !! cid = Some c ->
        SP_Customer.StatusID c = sid_disabled cfg ->
        customers (fst res) !! cid = Some c
        /\ tags_of (status_tags (fst res)) cid = tags_of (status_tags db) cid)
  /\ SkippedDisabled (snd res)
     = Z.of_nat (length (List.filter
                           (fun r => SP_Customer.StatusID r.2 =? sid_disabled cfg)
                           (map_to_list (customers db))))
  /\ (let scenario := _recompute_customer_statuses 1000 status_cfg status_ledger status_db in
      days_since 1000 (last_movement status_ledger MOVT_SELLIN 1) = 40
      /\ days_since 1000 (last_movement status_ledger MOVT_SELLOUT 1) = 100
      /\ customers (fst scenario) !! 1 = Some (SP_Customer.mk (sid_active status_cfg) None)
      /\ (1, tag_in status_cfg) ∈ status_tags (fst scenario)
      /\ SkippedDisabled (snd scenario) = 1).
Proof.
  intros Hids res.
  destruct (recompute_fold today cfg L (map_to_list (customers db)) Hids) with
    (st := (db, mk_tally 0 0 0)) as (_ & Hb & Hc).
  { apply NoDup_fst_map_to_list. }
  fold (_recompute_customer_statuses today cfg L db) in Hb, Hc. fold res in Hb, Hc.
  split; [|split; [|split; [|split; [|split]]]].
  - intros cid c Hlook Hnd ds_in ds_out.
    assert (Hin : In (cid, c) (map_to_list (customers db))).
    { apply list_elem_of_In, elem_of_map_to_list. exact Hlook. }
    specialize (Hb cid c Hin Hlook).
    destruct (Z.eqb_spec (SP_Customer.StatusID c) (sid_disabled cfg)); [contradiction|].
    destruct Hb as ((c' & Hc' & Hprim) & Htags).
    fold ds_in ds_out in Hprim, Htags.
    destruct Hids as (H1 & H2 & H3 & H4 & H5 & H6).
    split.
    + exists c'. split; [exact Hc'|]. rewrite Hprim. now apply new_primary_spec.
    + rewrite <- !elem_of_tags_of, Htags.
      apply want_tags_spec. repeat split; assumption.
  - intros cid mt. apply days_since_never.
  - intros cid mt d. apply days_since_latest.
  - intros cid c Hlook Hd.
    assert (Hin : In (cid, c) (map_to_list (customers db))).
    { apply list_elem_of_In, elem_of_map_to_list. exact Hlook. }
    specialize (Hb cid c Hin Hlook). rewrite Hd, Z.eqb_refl in Hb. exact Hb.
  - rewrite Hc. reflexivity.
  - vm_compute. repeat split.
Qed.

Lemma recompute_statuses_spec_witness :
  status_ids_ok status_cfg
  /\ SkippedDisabled (snd (_recompute_customer_statuses 1000 status_cfg status_ledger status_db))
     = Z.of_nat (length (List.filter
                           (fun r => SP_Customer.StatusID r.2 =? sid_disabled status_cfg)
                           (map_to_list (customers status_db)))).
Proof.
  assert (H : status_ids_ok status_cfg).
  { unfold status_ids_ok. simpl. lia. }
  split; [exact H|].
  destruct (recompute_statuses_spec 1000 status_cfg status_ledger status_db H)
    as (_ & _ & _ & _ & Hskipped & _).
  exact Hskipped.
Defined.

(* ===================================================================== *)
(** * Part III: further properties of the code                            *)
(* ===================================================================== *)

(** ** FIFO aging: layers, buckets and stock on hand *)

Lemma window_scan_In (before : option Q) (rows : list SP_InventoryLedger.row) (r : Receipts.row) :
  In r (window_scan before rows) ->
  exists l, In l rows
    /\ Receipts.lot_date r = SP_InventoryLedger.DocDate l
    /\ Receipts.lot_qty r = SP_InventoryLedger.Qty l.
Proof.
  revert before. induction rows as [|l rows IH]; intros before; simpl; [intros []|].
  intros [<-|Hin].
  - exists l. split; [left|]; split; reflexivity.
  - destruct (IH _ Hin) as (l' & Hl' & Hp). exists l'. split; [right|]; assumption.
Qed.

(** A live layer holds a positive quantity of a lot dated on or before the
    as-of date, so its age is not negative. *)
Lemma LiveLayers_In_spec (a : fifo_args) (L : list SP_InventoryLedger.row) (r : LiveLayers.row) :
  In r (LiveLayers a L) ->
  (0 < LiveLayers.remaining_qty r)%Q
  /\ LiveLayers.age_days r = as_of_date a - LiveLayers.lot_date r
  /\ 0 <= LiveLayers.age_days r.
Proof.
  intros Hr.
  assert (Hg : In r (group_rows live_pair (live_pair r) (LiveLayers a L)))
    by (apply group_rows_In; auto).
  destruct (live_pair r) as [c s] eqn:Hk.
  rewrite LiveLayers_pair_live in Hg. apply in_map_iff in Hg as (x & <- & Hx).
  apply filter_In in Hx as [Hx Hpos]. apply Qltb_lt in Hpos.
  cbn [LiveLayers.remaining_qty LiveLayers.age_days LiveLayers.lot_date].
  split; [exact Hpos|]. split; [reflexivity|].
  rewrite Allocated_pair in Hx. apply in_map_iff in Hx as (r0 & <- & Hr0).
  destruct (Allocated_row_Some r0 (c, s) (pair_movements a L (c, s))) as (_ & Ad & _).
  rewrite Ad. apply window_scan_In in Hr0 as (l & Hl & Hd & _). rewrite Hd.
  apply pair_lots_In in Hl as (HM & _). apply Movements_window_iff in HM.
  destruct HM as (_ & _ & _ & ad & _ & _ & Hhi). lia.
Qed.

Lemma bucket_sum_cons (lo hi : option Z) (r : LiveLayers.row) (g : list LiveLayers.row) :
  (bucket_sum lo hi (r :: g)
   == (if match lo with Some b => b <=? LiveLayers.age_days r | None => true end
          && match hi with Some b => LiveLayers.age_days r <=? b | None => true end
       then LiveLayers.remaining_qty r else 0) + bucket_sum lo hi g)%Q.
Proof. unfold bucket_sum. rewrite !coalesce_sql_sum. reflexivity. Qed.

Lemma bucket_sum_nil (lo hi : option Z) : bucket_sum lo hi [] = 0%Q.
Proof. reflexivity. Qed.

Lemma buckets_cover (g : list LiveLayers.row) :
  (forall r, In r g -> 0 <= LiveLayers.age_days r) ->
  (bucket_sum (Some 0%Z) (Some 30%Z) g + bucket_sum (Some 31%Z) (Some 60%Z) g
   + bucket_sum (Some 61%Z) (Some 90%Z) g + bucket_sum (Some 91%Z) None g
   == Qsum (List.map LiveLayers.remaining_qty g))%Q.
Proof.
  induction g as [|r g IH]; intros Hage.
  - rewrite !bucket_sum_nil. simpl. ring.
  - rewrite !bucket_sum_cons. cbn [List.map Qsum fold_right].
    fold (Qsum (List.map LiveLayers.remaining_qty g)).
    rewrite <- IH by (intros r' Hr'; apply Hage; right; exact Hr').
    specialize (Hage r (or_introl eq_refl)).
    destruct (Z.leb_spec 0 (LiveLayers.age_days r)); [|lia].
    destruct (Z.leb_spec (LiveLayers.age_days r) 30),
             (Z.leb_spec 31 (LiveLayers.age_days r)),
             (Z.leb_spec (LiveLayers.age_days r) 60),
             (Z.leb_spec 61 (LiveLayers.age_days r)),
             (Z.leb_spec (LiveLayers.age_days r) 90),
             (Z.leb_spec 91 (LiveLayers.age_days r)); try lia; cbn [andb]; ring.
Qed.

Lemma Qsum_pos (l : list Q) :
  l <> [] -> Forall (fun q => (0 < q)%Q) l -> (0 < Qsum l)%Q.
Proof.
  intros Hne Hall. destruct l as [|q l]; [contradiction|].
  apply Forall_cons in Hall as [Hq Hall]. simpl.
  assert (0 <= Qsum l)%Q.
  { apply Qsum_nonneg. eapply Forall_impl; [exact Hall|]. intros x Hx. simpl in Hx. lra. }
  lra.
Qed.

(** The rows of a bucket group: live layers of the pair that pass the age
    filters. *)
Lemma Buckets_In (a : fifo_args) (L : list SP_InventoryLedger.row) (b : Buckets.row) :
  In b (Buckets a L) <->
  exists k, b = Buckets_of_group k (group_rows live_pair k (LiveLayersFiltered a L))
            /\ group_rows live_pair k (LiveLayersFiltered a L) <> [].
Proof.
  unfold Buckets. rewrite in_map_iff. split.
  - intros (k & <- & Hk). exists k. split; [reflexivity|].
    intros Hnil. apply group_rows_nil_iff in Hnil. contradiction.
  - intros (k & -> & Hne). exists k. split; [reflexivity|].
    destruct (decide (k ∈ group_keys live_pair (LiveLayersFiltered a L))) as [Hin|Hnot].
    + now apply list_elem_of_In.
    + rewrite list_elem_of_In in Hnot. apply group_rows_nil_iff in Hnot. contradiction.
Qed.

Lemma LiveLayersFiltered_In (a : fifo_args) (L : list SP_InventoryLedger.row) (k : Z * Z)
    (r : LiveLayers.row) :
  In r (group_rows live_pair k (LiveLayersFiltered a L)) ->
  In r (LiveLayers a L).
Proof.
  intros Hr. apply group_rows_In in Hr as [Hr _].
  unfold LiveLayersFiltered in Hr. apply filter_In in Hr. tauto.
Qed.

(** X1.  In every row of the aging summary the four age buckets add up to
    the stock on hand of the row: a layer is never counted twice and never
    left out. *)
Theorem fifo_buckets_add_up_to_soh (a : fifo_args) (L : list SP_InventoryLedger.row)
    (b : Buckets.row) :
  In b (Buckets a L) ->
  (Buckets.b_0_30 b + Buckets.b_31_60 b + Buckets.b_61_90 b + Buckets.b_90p b
   == Buckets.soh_qty b)%Q.
Proof.
  intros Hb. apply Buckets_In in Hb as (k & -> & _).
  cbn [Buckets_of_group Buckets.b_0_30 Buckets.b_31_60 Buckets.b_61_90 Buckets.b_90p
       Buckets.soh_qty].
  rewrite coalesce_sql_sum. apply buckets_cover.
  intros r Hr. apply LiveLayersFiltered_In in Hr.
  destruct (LiveLayers_In_spec a L r Hr) as (_ & _ & H). exact H.
Qed.

Lemma fifo_buckets_add_up_to_soh_witness :
  let b := Buckets_of_group (1, 1)
             (group_rows live_pair (1, 1) (LiveLayersFiltered fifo_day20 fifo_ledger)) in
  In b (Buckets fifo_day20 fifo_ledger)
  /\ (Buckets.b_0_30 b + Buckets.b_31_60 b + Buckets.b_61_90 b + Buckets.b_90p b
      == Buckets.soh_qty b)%Q.
Proof.
  assert (H : In (Buckets_of_group (1, 1)
                    (group_rows live_pair (1, 1) (LiveLayersFiltered fifo_day20 fifo_ledger)))
                (Buckets fifo_day20 fifo_ledger)) by (vm_compute; left; reflexivity).
  split; [exact H|].
  exact (fifo_buckets_add_up_to_soh fifo_day20 fifo_ledger _ H).
Defined.

Lemma Buckets_soh_pos (a : fifo_args) (L : list SP_InventoryLedger.row) (b : Buckets.row) :
  In b (Buckets a L) -> (0 < Buckets.soh_qty b)%Q.
Proof.
  intros Hb. apply Buckets_In in Hb as (k & -> & Hne).
  cbn [Buckets_of_group Buckets.soh_qty]. rewrite coalesce_sql_sum.
  apply Qsum_pos.
  - intros Hnil. apply map_eq_nil in Hnil. contradiction.
  - apply List.Forall_forall. intros q Hq. apply in_map_iff in Hq as (r & <- & Hr).
    apply LiveLayersFiltered_In in Hr.
    destruct (LiveLayers_In_spec a L r Hr) as (H & _). exact H.
Qed.

(** X2.  Every row of the aging summary has a positive stock on hand, so
    the flag only_positive_soh never changes what [bucket_stmt] returns and
    avg_age_days is never NULL. *)
Theorem fifo_only_positive_soh_is_redundant (a : fifo_args) (L : list SP_InventoryLedger.row) :
  (forall b, In b (Buckets a L) -> (0 < Buckets.soh_qty b)%Q /\ is_Some (avg_age_days b))
  /\ bucket_stmt (with_only_positive_soh a true) L
     = bucket_stmt (with_only_positive_soh a false) L.
Proof.
  split.
  - intros b Hb. pose proof (Buckets_soh_pos a L b Hb) as Hpos. split; [exact Hpos|].
    unfold avg_age_days. rewrite (proj2 (Qltb_lt _ _) Hpos). eexists. reflexivity.
  - unfold bucket_stmt.
    change (Buckets (with_only_positive_soh a true) L) with (Buckets a L).
    change (Buckets (with_only_positive_soh a false) L) with (Buckets a L).
    apply List.filter_ext_in. intros b Hb.
    cbn [with_only_positive_soh visible customer_id sku_id only_positive_soh].
    rewrite (proj2 (Qltb_lt _ _) (Buckets_soh_pos a L b Hb)). reflexivity.
Qed.

Lemma clampQ_spec (x total : Q) :
  (0 <= total)%Q ->
  ((x <= 0)%Q /\ clampQ x total = 0%Q)
  \/ ((0 < x)%Q /\ (total <= x)%Q /\ clampQ x total = total)
  \/ ((0 < x)%Q /\ (x < total)%Q /\ clampQ x total = x).
Proof.
  intros Ht. unfold clampQ.
  destruct (Qle_bool x 0) eqn:E1.
  - apply Qle_bool_iff in E1. left. auto.
  - apply Qle_bool_false in E1. destruct (Qle_bool total x) eqn:E2.
    + apply Qle_bool_iff in E2. right. left. auto.
    + apply Qle_bool_false in E2. right. right. auto.
Qed.

(** First in, first out: the lots consume the issues in their order, so
    together they consume all the issues, up to the total of the lots. *)
Lemma consumed_scan_total (ti : Q) (rows : list SP_InventoryLedger.row) :
  Forall (fun l => (0 < SP_InventoryLedger.Qty l)%Q) rows ->
  forall before,
    (Qsum (List.map
             (fun r => coalesce (consumed_expr (Some ti) (Receipts.cum_in_prev r)
                                   (Receipts.lot_qty r)) 0%Q)
             (window_scan before rows))
     == clampQ (ti - coalesce before 0%Q) (Qsum (List.map SP_InventoryLedger.Qty rows)))%Q.
Proof.
  induction 1 as [|l rows Hl Hall IH]; intros before.
  - simpl.
    destruct (clampQ_spec (ti - coalesce before 0%Q) 0%Q) as [[_ ->]|[(_ & _ & ->)|(? & ? & _)]];
      try lra; reflexivity.
  - cbn [window_scan List.map Qsum fold_right Receipts.cum_in_prev Receipts.lot_qty].
    fold (Qsum (List.map SP_InventoryLedger.Qty rows)).
    match goal with
    | |- (_ + fold_right Qplus 0 ?m == _)%Q => change (fold_right Qplus 0%Q m) with (Qsum m)
    end.
    rewrite IH. cbn [coalesce].
    assert (Hrest : (0 <= Qsum (List.map SP_InventoryLedger.Qty rows))%Q).
    { apply Qsum_nonneg, List.Forall_forall. intros q Hq.
      apply in_map_iff in Hq as (x & <- & Hx).
      rewrite List.Forall_forall in Hall. specialize (Hall x Hx). simpl in Hall. lra. }
    set (b := coalesce before 0%Q). set (q := SP_InventoryLedger.Qty l) in *.
    set (T := Qsum (List.map SP_InventoryLedger.Qty rows)) in *.
    destruct (consumed_expr_cases ti before q Hl) as (c & -> & H1 & H2 & H3 & Hc0 & Hcq).
    fold b in H1, H2, H3. cbn [coalesce].
    assert (Hc : (c == clampQ (ti - b) q)%Q).
    { destruct (clampQ_spec (ti - b) q) as [[Hx ->]|[(Hx & Hy & ->)|(Hx & Hy & ->)]];
        [lra|rewrite H1 by lra; reflexivity|rewrite H2 by lra; reflexivity
        |rewrite H3 by lra; reflexivity]. }
    rewrite Hc.
    destruct (clampQ_spec (ti - b) q) as [[Hx ->]|[(Hx & Hy & ->)|(Hx & Hy & ->)]];
      [lra|..];
      destruct (clampQ_spec (ti - (b + q)) T Hrest) as [[Ha ->]|[(Ha & Hb & ->)|(Ha & Hb & ->)]];
      destruct (clampQ_spec (ti - b) (q + T)) as [[Hu ->]|[(Hu & Hv & ->)|(Hu & Hv & ->)]];
      lra.
Qed.

Lemma Qsum_issue_nonneg (g : list SP_InventoryLedger.row) :
  (0 <= Qsum (List.map issue_of g))%Q.
Proof.
  apply Qsum_nonneg, List.Forall_forall. intros q Hq.
  apply in_map_iff in Hq as (l & <- & _). unfold issue_of.
  destruct (Qltb (SP_InventoryLedger.Qty l) 0) eqn:E; [apply Qltb_lt in E|]; lra.
Qed.

Lemma Qsum_receipt_nonneg (g : list SP_InventoryLedger.row) :
  (0 <= Qsum (List.map receipt_of g))%Q.
Proof.
  apply Qsum_nonneg, List.Forall_forall. intros q Hq.
  apply in_map_iff in Hq as (l & <- & _). unfold receipt_of.
  destruct (Qltb 0 (SP_InventoryLedger.Qty l)) eqn:E; [apply Qltb_lt in E|]; lra.
Qed.

(** What the lots of a pair hold after the allocation: the receipts less
    the issues, and nothing when the issues reach the receipts. *)
Lemma pair_live_total (a : fifo_args) (L : list SP_InventoryLedger.row) (c s : Z) :
  let g := pair_movements a L (c, s) in
  let issues := Qsum (List.map issue_of g) in
  let receipts := Qsum (List.map receipt_of g) in
  (Qsum (List.map LiveLayers.remaining_qty (group_rows live_pair (c, s) (LiveLayers a L)))
   == if Qltb issues receipts then receipts - issues else 0)%Q.
Proof.
  intros g issues receipts.
  assert (Hcons :
    (Qsum (List.map LiveLayers.remaining_qty (group_rows live_pair (c, s) (LiveLayers a L)))
     + Qsum (List.map (fun r => coalesce (Allocated.consumed_qty r) 0%Q)
               (group_rows alloc_pair (c, s) (Allocated a L)))
     == receipts)%Q).
  { rewrite LiveLayers_pair_live, List.map_map. cbn [LiveLayers.remaining_qty].
    rewrite live_plus_consumed.
    2:{ intros x Hx. destruct (Allocated_pair_rows a L (c, s) x Hx) as (_ & _ & H). exact H. }
    rewrite Allocated_pair, List.map_map.
    rewrite (List.map_ext _ Receipts.lot_qty) by reflexivity.
    rewrite window_scan_qty. unfold receipts. rewrite <- Qsum_receipts.
    apply Qsum_perm, Permutation_map, pair_lots_perm. }
  assert (Htot :
    (Qsum (List.map (fun r => coalesce (Allocated.consumed_qty r) 0%Q)
             (group_rows alloc_pair (c, s) (Allocated a L)))
     == clampQ issues receipts)%Q).
  { rewrite Allocated_pair, List.map_map.
    rewrite (List.map_ext _
               (fun r => coalesce (consumed_expr (Some issues) (Receipts.cum_in_prev r)
                                     (Receipts.lot_qty r)) 0%Q)).
    2:{ intros r. destruct (Allocated_row_Some r (c, s) g) as (_ & _ & _ & _ & _ & _ & Ac & _).
        fold g. rewrite Ac. reflexivity. }
    rewrite consumed_scan_total.
    2:{ apply List.Forall_forall. intros l Hl. apply pair_lots_In in Hl. tauto. }
    cbn [coalesce].
    assert (Hr : (Qsum (List.map SP_InventoryLedger.Qty (pair_lots a L (c, s))) == receipts)%Q).
    { unfold receipts. rewrite <- Qsum_receipts.
      apply Qsum_perm, Permutation_map, pair_lots_perm. }
    pose proof (Qsum_receipt_nonneg g) as Hrec. fold receipts in Hrec.
    assert (Hrec' : (0 <= Qsum (List.map SP_InventoryLedger.Qty (pair_lots a L (c, s))))%Q) by lra.
    destruct (clampQ_spec (issues - 0) _ Hrec') as [[Ha ->]|[(Ha & Hb & ->)|(Ha & Hb & ->)]];
      destruct (clampQ_spec issues receipts Hrec) as [[Hx ->]|[(Hx & Hy & ->)|(Hx & Hy & ->)]];
      lra. }
  pose proof (Qsum_issue_nonneg g) as Hiss. fold issues in Hiss.
  pose proof (Qsum_receipt_nonneg g) as Hrec. fold receipts in Hrec.
  rewrite Htot in Hcons.
  destruct (clampQ_spec issues receipts Hrec) as [[Hx Hcl]|[(Hx & Hy & Hcl)|(Hx & Hy & Hcl)]];
    rewrite Hcl in Hcons;
    destruct (Qltb issues receipts) eqn:E;
    [apply Qltb_lt in E|apply Qltb_ge in E|apply Qltb_lt in E|apply Qltb_ge in E
    |apply Qltb_lt in E|apply Qltb_ge in E]; lra.
Qed.

Lemma Totals_fields (a : fifo_args) (L : list SP_InventoryLedger.row) (t : Totals.row) :
  In t (Totals a L) ->
  Totals.total_issues t = Qsum (List.map issue_of (pair_movements a L (tot_pair t)))
  /\ Totals.total_receipts t = Qsum (List.map receipt_of (pair_movements a L (tot_pair t)))
  /\ exists l, In l (Movements a L) /\ pair_of l = tot_pair t.
Proof.
  intros Ht. pose proof (Totals_In a L t Ht) as Heq.
  split; [|split].
  - rewrite Heq at 1. cbn [Totals_of_group Totals.total_issues]. apply coalesce_sql_sum.
  - rewrite Heq at 1. cbn [Totals_of_group Totals.total_receipts]. apply coalesce_sql_sum.
  - unfold Totals in Ht. apply in_map_iff in Ht as (k & <- & Hk).
    apply group_keys_In in Hk as (l & Hl & Hp). exists l. split; [exact Hl|].
    rewrite Hp. destruct k. reflexivity.
Qed.

(** X3.  For every pair of the aging computation that the caller may see,
    the layers of the detail statement add up to the receipts of the window
    less its issues, and to nothing when the issues reach the receipts; the
    age filters given to the detail statement have no effect on it. *)
Theorem fifo_detail_layers_total (a : fifo_args) (L : list SP_InventoryLedger.row)
    (t : Totals.row) (mn mx : option Z) :
  In t (Totals a L) ->
  visible a (Totals.CustomerID t) (Totals.SKU_ID t) = true ->
  (0 <= Totals.total_issues t)%Q
  /\ layer_stmt (with_ages a mn mx) L = layer_stmt a L
  /\ (Qsum (List.map LiveLayers.remaining_qty
              (group_rows live_pair (tot_pair t) (layer_stmt (with_ages a mn mx) L)))
      == if Qltb (Totals.total_issues t) (Totals.total_receipts t)
         then Totals.total_receipts t - Totals.total_issues t else 0)%Q.
Proof.
  intros Ht Hvis. destruct (Totals_fields a L t Ht) as (Hi & Hr & l & Hl & Hp).
  split; [rewrite Hi; apply Qsum_issue_nonneg|].
  split; [reflexivity|].
  change (layer_stmt (with_ages a mn mx) L) with (layer_stmt a L).
  unfold layer_stmt. rewrite group_rows_filter_comm, filter_all.
  - rewrite Hi, Hr. destruct (tot_pair t) as [c s]. apply pair_live_total.
  - intros r Hr'. apply group_rows_In in Hr' as [_ Hk].
    apply Movements_window_iff in Hl as (_ & Hs & Hc & _).
    unfold live_pair, tot_pair in Hk. injection Hk as -> ->.
    unfold pair_of, tot_pair in Hp. injection Hp as Hpc Hps.
    rewrite Hpc in Hc. rewrite Hps in Hs. rewrite Hvis, Hc, Hs. reflexivity.
Qed.

Lemma fifo_detail_layers_total_witness :
  let t := Totals_of_group (1, 1) (pair_movements fifo_day20 fifo_ledger (1, 1)) in
  In t (Totals fifo_day20 fifo_ledger)
  /\ (Qsum (List.map LiveLayers.remaining_qty
              (group_rows live_pair (tot_pair t)
                 (layer_stmt (with_ages fifo_day20 (Some 5%Z) (Some 6%Z)) fifo_ledger)))
      == if Qltb (Totals.total_issues t) (Totals.total_receipts t)
         then Totals.total_receipts t - Totals.total_issues t else 0)%Q.
Proof.
  assert (H : In (Totals_of_group (1, 1) (pair_movements fifo_day20 fifo_ledger (1, 1)))
                (Totals fifo_day20 fifo_ledger)) by (left; reflexivity).
  split; [exact H|].
  exact (proj2 (proj2 (fifo_detail_layers_total fifo_day20 fifo_ledger _ (Some 5) (Some 6)
                         H eq_refl))).
Defined.

(** X4.  Without age filters, the aging summary that [build_fifo_ctes]
    returns has a row for a pair exactly when the caller may see the pair
    and its receipts in the window exceed its issues; the rows of the pair
    are all the same, and their stock on hand is the receipts less the
    issues, which are the totals of the pair. *)
Theorem fifo_summary_soh_is_receipts_less_issues (a : fifo_args)
    (L : list SP_InventoryLedger.row) (c s : Z) :
  min_age a = None -> max_age a = None ->
  let g := pair_movements a L (c, s) in
  let issues := Qsum (List.map issue_of g) in
  let receipts := Qsum (List.map receipt_of g) in
  ((exists b, In b (bucket_stmt a L) /\ bucket_pair b = (c, s))
   <-> visible a c s = true /\ (issues < receipts)%Q)
  /\ (forall b, In b (bucket_stmt a L) -> bucket_pair b = (c, s) ->
        (Buckets.soh_qty b == receipts - issues)%Q)
  /\ (forall b b', In b (bucket_stmt a L) -> In b' (bucket_stmt a L) ->
        bucket_pair b = (c, s) -> bucket_pair b' = (c, s) -> b = b')
  /\ (forall t, In t (Totals a L) -> tot_pair t = (c, s) ->
        Totals.total_issues t = issues /\ Totals.total_receipts t = receipts).
Proof.
  intros Hmn Hmx g issues receipts.
  assert (HF : LiveLayersFiltered a L = LiveLayers a L).
  { unfold LiveLayersFiltered. apply filter_all. intros r _.
    unfold live_pred. rewrite Hmn, Hmx. reflexivity. }
  pose proof (pair_live_total a L c s) as Hlive. cbv zeta in Hlive.
  fold g in Hlive. fold issues in Hlive. fold receipts in Hlive.
  pose proof (Qsum_issue_nonneg g) as Hiss. fold issues in Hiss.
  (* a row of the pair in the Buckets CTE *)
  assert (Hrow : forall b, In b (Buckets a L) -> bucket_pair b = (c, s) ->
            b = Buckets_of_group (c, s) (group_rows live_pair (c, s) (LiveLayers a L))
            /\ (issues < receipts)%Q
            /\ (Buckets.soh_qty b == receipts - issues)%Q).
  { intros b Hb Hk. pose proof (Buckets_soh_pos a L b Hb) as Hpos.
    apply Buckets_In in Hb as (k & -> & _). rewrite HF in *.
    assert (k = (c, s)) as -> by (rewrite <- Hk; destruct k; reflexivity).
    split; [reflexivity|].
    cbn [Buckets_of_group Buckets.soh_qty] in *. rewrite coalesce_sql_sum in *.
    rewrite Hlive in *.
    destruct (Qltb issues receipts) eqn:E; [apply Qltb_lt in E|lra].
    split; [exact E|reflexivity]. }
  split; [split|split; [|split]].
  - intros (b & Hb & Hk). unfold bucket_stmt in Hb. apply filter_In in Hb as [Hb Hcond].
    destruct (Hrow b Hb Hk) as (_ & Hlt & _). split; [|exact Hlt].
    unfold bucket_pair in Hk. injection Hk as Hc Hs. rewrite Hc, Hs in Hcond.
    repeat (apply andb_true_iff in Hcond as [Hcond ?]). exact Hcond.
  - intros [Hvis Hlt].
    rewrite (proj2 (Qltb_lt _ _) Hlt) in Hlive.
    set (b := Buckets_of_group (c, s) (group_rows live_pair (c, s) (LiveLayers a L))).
    assert (Hb : In b (Buckets a L)).
    { apply Buckets_In. exists (c, s). rewrite HF. split; [reflexivity|].
      intros Hnil. rewrite Hnil in Hlive. simpl in Hlive. lra. }
    exists b. split; [|reflexivity].
    unfold bucket_stmt. apply filter_In. split; [exact Hb|].
    cbn [b Buckets_of_group Buckets.CustomerID Buckets.SKU_ID Buckets.soh_qty fst snd].
    rewrite Hvis.
    (* the pair has a movement in the window, which passed the filters *)
    assert (Hmov : exists l, In l (Movements a L) /\ pair_of l = (c, s)).
    { destruct g as [|l g'] eqn:Eg.
      - subst issues receipts. simpl in Hlt. lra.
      - exists l. apply group_rows_In. unfold g, pair_movements in Eg. rewrite Eg.
        left. reflexivity. }
    destruct Hmov as (l & Hl & Hp).
    apply Movements_window_iff in Hl as (_ & Hs & Hc & _).
    unfold pair_of in Hp. injection Hp as Hpc Hps. rewrite Hpc in Hc. rewrite Hps in Hs.
    rewrite Hc, Hs. cbn [andb].
    destruct (only_positive_soh a); [|reflexivity].
    apply Qltb_lt. rewrite coalesce_sql_sum, Hlive. lra.
  - intros b Hb Hk. unfold bucket_stmt in Hb. apply filter_In in Hb as [Hb _].
    destruct (Hrow b Hb Hk) as (_ & _ & H). exact H.
  - intros b b' Hb Hb' Hk Hk'. unfold bucket_stmt in Hb, Hb'.
    apply filter_In in Hb as [Hb _]. apply filter_In in Hb' as [Hb' _].
    destruct (Hrow b Hb Hk) as (-> & _). destruct (Hrow b' Hb' Hk') as (-> & _).
    reflexivity.
  - intros t Ht Hk. destruct (Totals_fields a L t Ht) as (Hi & Hr & _).
    rewrite Hk in Hi, Hr. split; assumption.
Qed.

Lemma fifo_summary_soh_is_receipts_less_issues_witness :
  (exists b, In b (bucket_stmt fifo_day20 fifo_ledger) /\ bucket_pair b = (1, 1))
  /\ (forall b, In b (bucket_stmt fifo_day20 fifo_ledger) -> bucket_pair b = (1, 1) ->
        (Buckets.soh_qty b == 30)%Q).
Proof.
  pose proof (fifo_summary_soh_is_receipts_less_issues fifo_day20 fifo_ledger 1 1
                eq_refl eq_refl) as (Hiff & Hsoh & _).
  split.
  - apply Hiff. split; [reflexivity|]. vm_compute. reflexivity.
  - intros b Hb Hk. rewrite (Hsoh b Hb Hk). vm_compute. reflexivity.
Defined.

Lemma weighted_age_bounds (g : list LiveLayers.row) (lo hi : Z) :
  (forall r, In r g -> (0 < LiveLayers.remaining_qty r)%Q
                       /\ lo <= LiveLayers.age_days r <= hi) ->
  let S := Qsum (List.map LiveLayers.remaining_qty g) in
  let W := Qsum (List.map (fun r => (LiveLayers.remaining_qty r
                                     * inject_Z (LiveLayers.age_days r))%Q) g) in
  (inject_Z lo * S <= W)%Q /\ (W <= inject_Z hi * S)%Q.
Proof.
  induction g as [|r g IH]; intros Hall S W; subst S W.
  - simpl. lra.
  - cbn [List.map Qsum fold_right].
    match goal with
    | |- context [fold_right Qplus 0%Q (List.map LiveLayers.remaining_qty g)] =>
        change (fold_right Qplus 0%Q (List.map LiveLayers.remaining_qty g))
          with (Qsum (List.map LiveLayers.remaining_qty g))
    end.
    match goal with
    | |- context [fold_right Qplus 0%Q ?m] => change (fold_right Qplus 0%Q m) with (Qsum m)
    end.
    destruct (IH (fun r' Hr' => Hall r' (or_intror Hr'))) as [IH1 IH2].
    destruct (Hall r (or_introl eq_refl)) as (Hq & Hlo & Hhi).
    assert (H1 : (inject_Z lo <= inject_Z (LiveLayers.age_days r))%Q)
      by (rewrite <- Zle_Qle; exact Hlo).
    assert (H2 : (inject_Z (LiveLayers.age_days r) <= inject_Z hi)%Q)
      by (rewrite <- Zle_Qle; exact Hhi).
    assert (H3 : (0 <= LiveLayers.remaining_qty r
                       * (inject_Z (LiveLayers.age_days r) - inject_Z lo))%Q)
      by (apply Qmult_le_0_compat; lra).
    assert (H4 : (0 <= LiveLayers.remaining_qty r
                       * (inject_Z hi - inject_Z (LiveLayers.age_days r)))%Q)
      by (apply Qmult_le_0_compat; lra).
    split; lra.
Qed.

(** X5.  The average age of a summary row is the average of the ages of its
    layers weighted by what they hold, so it lies between the age of its
    newest lot and the age of its oldest lot. *)
Theorem fifo_avg_age_between_lots (a : fifo_args) (L : list SP_InventoryLedger.row)
    (b : Buckets.row) :
  In b (Buckets a L) ->
  exists oldest newest avg,
    Buckets.oldest_lot_date b = Some oldest
    /\ Buckets.newest_lot_date b = Some newest
    /\ avg_age_days b = Some avg
    /\ oldest <= newest <= as_of_date a
    /\ (inject_Z (as_of_date a - newest) <= avg)%Q
    /\ (avg <= inject_Z (as_of_date a - oldest))%Q.
Proof.
  intros Hb. pose proof (Buckets_soh_pos a L b Hb) as Hpos.
  apply Buckets_In in Hb as (k & -> & Hne).
  set (g := group_rows live_pair k (LiveLayersFiltered a L)) in *.
  assert (Hg : forall r, In r g ->
             (0 < LiveLayers.remaining_qty r)%Q
             /\ LiveLayers.age_days r = as_of_date a - LiveLayers.lot_date r
             /\ 0 <= LiveLayers.age_days r).
  { intros r Hr. unfold g in Hr. apply LiveLayersFiltered_In in Hr.
    exact (LiveLayers_In_spec a L r Hr). }
  cbn [Buckets_of_group Buckets.oldest_lot_date Buckets.newest_lot_date Buckets.soh_qty] in *.
  unfold avg_age_days. cbn [Buckets_of_group Buckets.soh_qty Buckets.weighted_age_sum].
  rewrite !coalesce_sql_sum in *. rewrite (proj2 (Qltb_lt _ _) Hpos).
  destruct (sql_min (List.map LiveLayers.lot_date g)) as [o|] eqn:Eo.
  2:{ destruct g; [contradiction|discriminate]. }
  destruct (sql_max (List.map LiveLayers.lot_date g)) as [n|] eqn:En.
  2:{ destruct g; [contradiction|discriminate]. }
  apply sql_min_Some in Eo as [Ho Hmin]. apply sql_max_Some in En as [Hn Hmax].
  exists o, n. eexists. split; [reflexivity|]. split; [reflexivity|]. split; [reflexivity|].
  assert (Hbounds : forall r, In r g ->
             (0 < LiveLayers.remaining_qty r)%Q
             /\ as_of_date a - n <= LiveLayers.age_days r <= as_of_date a - o).
  { intros r Hr. destruct (Hg r Hr) as (Hq & Hage & _). split; [exact Hq|].
    pose proof (Hmin _ (in_map LiveLayers.lot_date g r Hr)).
    pose proof (Hmax _ (in_map LiveLayers.lot_date g r Hr)). lia. }
  destruct (weighted_age_bounds g _ _ Hbounds) as [Hlo Hhi].
  split.
  - apply in_map_iff in Hn as (r & Hrn & Hr). destruct (Hg r Hr) as (_ & Hage & Hnn).
    split; [apply Hmax; exact Ho|]. lia.
  - split.
    + apply Qle_shift_div_l; [exact Hpos|exact Hlo].
    + apply Qle_shift_div_r; [exact Hpos|exact Hhi].
Qed.

Lemma fifo_avg_age_between_lots_witness :
  exists oldest newest avg,
    Buckets.oldest_lot_date
      (Buckets_of_group (1, 1)
         (group_rows live_pair (1, 1) (LiveLayersFiltered fifo_day20 fifo_ledger))) = Some oldest
    /\ Buckets.newest_lot_date
         (Buckets_of_group (1, 1)
            (group_rows live_pair (1, 1) (LiveLayersFiltered fifo_day20 fifo_ledger)))
       = Some newest
    /\ avg_age_days
         (Buckets_of_group (1, 1)
            (group_rows live_pair (1, 1) (LiveLayersFiltered fifo_day20 fifo_ledger)))
       = Some avg
    /\ oldest <= newest <= as_of_date fifo_day20
    /\ (inject_Z (as_of_date fifo_day20 - newest) <= avg)%Q
    /\ (avg <= inject_Z (as_of_date fifo_day20 - oldest))%Q.
Proof.
  apply (fifo_avg_age_between_lots fifo_day20 fifo_ledger).
  vm_compute. left. reflexivity.
Defined.

(** ** The general report *)

Lemma chunks_nil_iff {A : Type} (l : list A) (size : nat) :
  _chunks l size = [] <-> take size l = [].
Proof.
  funelim (_chunks l size).
  - split; auto.
  - split; [discriminate|]. intros E.
    match goal with Ht : take size l = _ :: _ |- _ => rewrite Ht in E end. discriminate.
Qed.

(** X6.  The chunks of [_chunks] are consecutive pieces of the input that
    together give it back; none is empty or longer than [size], and all but
    the last have exactly [size] items.  With size 0 nothing is yielded. *)
Theorem chunks_cover {A : Type} (l : list A) (size : nat) :
  concat (_chunks l size) = match size with O => [] | S _ => l end
  /\ Forall (fun ch => ch <> [] /\ (length ch <= size)%nat) (_chunks l size)
  /\ (forall (i : nat) (ch : list A),
        _chunks l size !! i = Some ch ->
        (S i < length (_chunks l size))%nat -> length ch = size).
Proof.
  funelim (_chunks l size).
  - split; [|split; [constructor|intros i ch Hi; destruct i; discriminate]].
    simpl. destruct size; [reflexivity|]. destruct l; [reflexivity|discriminate].
  - match goal with
    | Ht : take size l = _ :: _, IH : _ /\ _ /\ _ |- _ =>
        rename Ht into Htake; destruct IH as (IH1 & IH2 & IH3)
    end.
    split; [|split].
    + cbn [concat]. rewrite IH1, <- Htake. destruct size; [discriminate|].
      apply take_drop.
    + constructor; [|exact IH2]. split; [discriminate|].
      rewrite <- Htake, length_take. lia.
    + intros [|i] ch Hi Hlen; cbn in Hi, Hlen.
      * injection Hi as <-. rewrite <- Htake, length_take.
        destruct (Nat.le_gt_cases size (length l)) as [Hle|Hgt]; [lia|].
        exfalso. rewrite drop_ge in Hlen by lia.
        assert (Hn : _chunks (@nil A) size = []).
        { apply chunks_nil_iff. apply take_nil. }
        rewrite Hn in Hlen. simpl in Hlen. lia.
      * apply (IH3 i ch Hi). lia.
Qed.

(** The optional bounds of a date window. *)
Lemma window_filters (start_date end_date : option Z) (p : SP_InventoryLedger.row -> bool)
    (L : list SP_InventoryLedger.row) :
  match end_date with
  | Some d =>
      List.filter (fun l => SP_InventoryLedger.DocDate l <=? d)
        match start_date with
        | Some d0 => List.filter (fun l => d0 <=? SP_InventoryLedger.DocDate l) (List.filter p L)
        | None => List.filter p L
        end
  | None =>
      match start_date with
      | Some d0 => List.filter (fun l => d0 <=? SP_InventoryLedger.DocDate l) (List.filter p L)
      | None => List.filter p L
      end
  end
  = List.filter (fun l => p l && in_window start_date end_date (SP_InventoryLedger.DocDate l)) L.
Proof.
  unfold in_window. destruct start_date as [d0|], end_date as [d|];
    rewrite ?filter_filter_andb; apply List.filter_ext; intros l;
    destruct (p l); simpl; rewrite ?andb_true_r, ?andb_false_r; try reflexivity;
    apply andb_comm.
Qed.

Lemma positive_less_negative (P : SP_InventoryLedger.row -> bool)
    (L : list SP_InventoryLedger.row) :
  let pos := fun l => if Qltb 0 (SP_InventoryLedger.Qty l)
                      then SP_InventoryLedger.Qty l else 0%Q in
  let neg := fun l => P l && Qltb (SP_InventoryLedger.Qty l) 0 in
  (0 <= Qsum (List.map pos (List.filter P L)))%Q
  /\ (0 <= Qsum (List.map (fun l => Qabs (SP_InventoryLedger.Qty l)) (List.filter neg L)))%Q
  /\ (Qsum (List.map pos (List.filter P L))
      - Qsum (List.map (fun l => Qabs (SP_InventoryLedger.Qty l)) (List.filter neg L))
      == Qsum (List.map SP_InventoryLedger.Qty (List.filter P L)))%Q.
Proof.
  intros pos neg. subst pos neg.
  induction L as [|l L (IH1 & IH2 & IH3)]; [simpl; repeat split; lra|].
  cbn [List.filter]. destruct (P l); cbn [andb]; [|auto].
  destruct (Qltb (SP_InventoryLedger.Qty l) 0) eqn:En;
    [apply Qltb_lt in En|apply Qltb_ge in En];
    cbn [List.map]; cbv beta;
    (destruct (Qltb 0 (SP_InventoryLedger.Qty l)) eqn:Ep;
     [apply Qltb_lt in Ep|apply Qltb_ge in Ep]);
    try (exfalso; lra);
    unfold Qsum in *; cbn [fold_right];
    try rewrite (Qabs_neg (SP_InventoryLedger.Qty l)) by lra;
    repeat split; lra.
Qed.

(** X7.  In the general report the sell-in of a pair counts its positive
    SELLIN rows and the returns its negative ones, both in magnitude, so
    that sell-in less returns (the NetSellIn of the export) is the sum of
    the stored quantities of all its SELLIN rows in the window. *)
Theorem net_sellin_is_stored_sum (L : list SP_InventoryLedger.row) (c s : Z)
    (date_from date_to : option Z) :
  (0 <= _sum_movement_abs L c s date_from date_to MOVT_SELLIN)%Q
  /\ (0 <= _sum_returns_abs L c s date_from date_to)%Q
  /\ (_sum_movement_abs L c s date_from date_to MOVT_SELLIN
      - _sum_returns_abs L c s date_from date_to
      == stored_sum c s
           (fun l => String.eqb (SP_InventoryLedger.MovementType l) MOVT_SELLIN
                     && in_window date_from date_to (SP_InventoryLedger.DocDate l)) L)%Q.
Proof.
  unfold _sum_movement_abs, _sum_returns_abs, stored_sum.
  cbv zeta. rewrite !window_filters, !coalesce_sql_sum.
  change (String.eqb MOVT_SELLIN "SELLIN") with true. cbv iota.
  set (P := fun l => (SP_InventoryLedger.CustomerID l =? c)
                     && (SP_InventoryLedger.SKU_ID l =? s)
                     && (String.eqb (SP_InventoryLedger.MovementType l) MOVT_SELLIN
                         && in_window date_from date_to (SP_InventoryLedger.DocDate l))).
  rewrite (List.filter_ext _ P) by (intros l; unfold P; now rewrite andb_assoc).
  rewrite (List.filter_ext
             (fun l => (SP_InventoryLedger.CustomerID l =? c)
                       && (SP_InventoryLedger.SKU_ID l =? s)
                       && String.eqb (SP_InventoryLedger.MovementType l) "SELLIN"
                       && Qltb (SP_InventoryLedger.Qty l) 0
                       && in_window date_from date_to (SP_InventoryLedger.DocDate l))
             (fun l => P l && Qltb (SP_InventoryLedger.Qty l) 0)).
  2:{ intros l. unfold P. change "SELLIN"%string with MOVT_SELLIN.
      destruct (SP_InventoryLedger.CustomerID l =? c), (SP_InventoryLedger.SKU_ID l =? s),
        (String.eqb (SP_InventoryLedger.MovementType l) MOVT_SELLIN),
        (Qltb (SP_InventoryLedger.Qty l) 0),
        (in_window date_from date_to (SP_InventoryLedger.DocDate l)); reflexivity. }
  apply positive_less_negative.
Qed.

Lemma Qsum_abs_nonneg {A : Type} (f : A -> Q) (l : list A) :
  (0 <= Qsum (List.map (fun x => Qabs (f x)) l))%Q.
Proof.
  apply Qsum_nonneg, List.Forall_forall. intros q Hq.
  apply in_map_iff in Hq as (x & <- & _). apply Qabs_nonneg.
Qed.

Lemma sum_consumers_nonneg (L : list SP_InventoryLedger.row) (c s anchor until_incl : Z) :
  (0 <= _sum_consumers_since_anchor L c s anchor until_incl)%Q.
Proof.
  unfold _sum_consumers_since_anchor. rewrite !coalesce_sql_sum.
  pose proof (Qsum_abs_nonneg SP_InventoryLedger.Qty
                (List.filter
                   (fun l => (SP_InventoryLedger.CustomerID l =? c)
                             && (SP_InventoryLedger.SKU_ID l =? s)
                             && String.eqb (SP_InventoryLedger.MovementType l) "SELLOUT"
                             && (anchor <=? SP_InventoryLedger.DocDate l)
                             && (SP_InventoryLedger.DocDate l <=? until_incl)) L)).
  pose proof (Qsum_abs_nonneg SP_InventoryLedger.Qty
                (List.filter
                   (fun l => (SP_InventoryLedger.CustomerID l =? c)
                             && (SP_InventoryLedger.SKU_ID l =? s)
                             && String.eqb (SP_InventoryLedger.MovementType l) "SELLIN"
                             && Qltb (SP_InventoryLedger.Qty l) 0
                             && (anchor <=? SP_InventoryLedger.DocDate l)
                             && (SP_InventoryLedger.DocDate l <=? until_incl)) L)).
  lra.
Qed.

(** X8.  The initial bucket of the general report: without an effective
    anchor every field is empty; with one, what was consumed and what is left
    always add up to the initial total, the balance is never negative, and
    the consumption is the smaller of the initial total and what was sold or
    returned since the anchor. *)
Theorem initial_bucket_adds_up (L : list SP_InventoryLedger.row) (S : list SP_SOH_Detail.row)
    (c s as_of : Z) :
  match _effective_anchor_for_sku L c s as_of with
  | None =>
      _initial_bucket_numbers L S c s as_of = InitialBucket.mk None None None None None
  | Some anchor =>
      exists total consumed balance,
        let sold := _sum_consumers_since_anchor L c s anchor as_of in
        _initial_bucket_numbers L S c s as_of
        = InitialBucket.mk (Some anchor) (Some total) (Some consumed) (Some balance) (Some sold)
        /\ (0 <= sold)%Q
        /\ (consumed + balance == total)%Q
        /\ (0 <= balance)%Q
        /\ (consumed <= sold)%Q
        /\ ((sold <= total)%Q -> consumed = sold)
        /\ ((total < sold)%Q -> consumed = total /\ (balance == 0)%Q)
  end.
Proof.
  unfold _initial_bucket_numbers.
  destruct (_effective_anchor_for_sku L c s as_of) as [anchor|]; [|reflexivity].
  destruct (_snapshot_qty_on_date S c s anchor) as [base_qty had_snap].
  pose proof (sum_consumers_nonneg L c s anchor as_of) as Hsold.
  set (sold := _sum_consumers_since_anchor L c s anchor as_of) in *.
  match goal with
  | |- context [py_min sold ?t] => set (total := t)
  end.
  exists total, (py_min sold total), (py_max 0%Q (total - py_min sold total)%Q).
  cbv zeta. split; [reflexivity|]. split; [exact Hsold|].
  unfold py_min, py_max.
  destruct (Qltb total sold) eqn:E1; [apply Qltb_lt in E1|apply Qltb_ge in E1].
  - destruct (Qltb 0 (total - total)) eqn:E2; [apply Qltb_lt in E2|apply Qltb_ge in E2];
      repeat split; try lra; intros; try lra; exfalso; lra.
  - destruct (Qltb 0 (total - sold)) eqn:E2; [apply Qltb_lt in E2|apply Qltb_ge in E2];
      repeat split; try lra; intros; try reflexivity; try lra; exfalso; lra.
Qed.

Lemma price_row_no_columns (st : price_state) (row : SP_InventoryLedger.row) :
  price_row ledger_UnitPrice ledger_Value st row = st.
Proof. reflexivity. Qed.

Lemma fold_price_row_no_columns (rows : list SP_InventoryLedger.row) (st : price_state) :
  fold_left (price_row ledger_UnitPrice ledger_Value) rows st = st.
Proof.
  induction rows as [|row rows IH]; [reflexivity|].
  cbn [fold_left]. rewrite price_row_no_columns. exact IH.
Qed.

(** X9.  The ledger has neither a UnitPrice nor a Value column, so every
    row of the price loop is skipped: the general report never shows an
    average, highest, lowest or last price, nor a sell-in value, whatever
    the ledger holds. *)
Theorem general_report_has_no_prices (L : list SP_InventoryLedger.row) (cid sid : Z)
    (date_from date_to : option Z) :
  _sellin_price_stats_in_range ledger_UnitPrice ledger_Value L cid sid date_from date_to
  = (None, None, None, None)
  /\ list_rows_prices L cid sid date_from date_to = (None, None, None, None, None).
Proof.
  assert (H : _sellin_price_stats_in_range ledger_UnitPrice ledger_Value L cid sid
                date_from date_to = (None, None, None, None)).
  { unfold _sellin_price_stats_in_range. cbv zeta.
    destruct (merge_sort docdate_le _) as [|r rows]; [reflexivity|].
    rewrite fold_price_row_no_columns. reflexivity. }
  split; [exact H|]. unfold list_rows_prices. rewrite H. reflexivity.
Qed.

(** ** What a posting does to the balances *)

Lemma approve_one_posted_rows (int_of_varchar : string -> option Z) (actor : py_value)
    (comment : option string) (db db' : database) (id : Z) :
  approve_one int_of_varchar actor comment db id = (db', Posted) ->
  exists h rows,
    db_uploads db !! id = Some h
    /\ db_ledger db' = db_ledger db ++ rows
    /\ Forall2 (posted_for (SP_SellOutUploads.CustomerID h))
         (active_details (db_details db) id) rows.
Proof.
  intros Hpost.
  destruct (approve_one_posted _ _ _ _ _ _ Hpost) as (h & a & Hh & _ & _ & _ & _ & _ & ->).
  unfold posted_db, posting_rows_of. cbn [db_ledger].
  destruct (fold_ledger_insert
              (List.map (sellout_ledger_row
                           (SP_SellOutUploads.mk id (SP_SellOutUploads.CustomerID h)
                              (SP_SellOutUploads.Brand h) (SP_SellOutUploads.Status h)
                              (SP_SellOutUploads.ApprovedBy h)))
                 (active_details (db_details db) id))
              (db_ledger db)) as (rows & Heq & Hall).
  exists h, rows. split; [exact Hh|]. split; [exact Heq|].
  apply Forall2_map_l in Hall.
  eapply Forall2_impl_In; [exact Hall|].
  intros d l _ (Hc & Hsku & Hdate & Hmt & _ & Hqty & _).
  cbn in Hc, Hsku, Hdate, Hmt, Hqty. repeat split; assumption.
Qed.

Lemma posted_for_In (cu : Z) (details : list SP_MCSI_SellOut.row)
    (N : list SP_InventoryLedger.row) (l : SP_InventoryLedger.row) :
  Forall2 (posted_for cu) details N -> In l N ->
  SP_InventoryLedger.CustomerID l = cu
  /\ SP_InventoryLedger.MovementType l = MOVT_SELLOUT.
Proof.
  intros Hall Hl. destruct (Forall2_In_r _ _ _ l Hall Hl) as (d & _ & Hc & _ & _ & Hm & _).
  auto.
Qed.

(** The signed sum of the posted rows of a pair over the dates selected. *)
Lemma posted_signed_sum (cu c s : Z) (p : Z -> bool) (f : SP_InventoryLedger.row -> bool)
    (details : list SP_MCSI_SellOut.row) (N : list SP_InventoryLedger.row) :
  Forall2 (posted_for cu) details N ->
  (forall l, In l N ->
     f l = (SP_InventoryLedger.CustomerID l =? c) && (SP_InventoryLedger.SKU_ID l =? s)
           && p (SP_InventoryLedger.DocDate l)) ->
  (Qsum (List.map _signed_qty_expr (List.filter f N))
   == if c =? cu then - upload_sold details s p else 0)%Q.
Proof.
  unfold upload_sold. induction 1 as [|d l details N Hdl Hall IH]; intros Hf.
  - simpl. destruct (c =? cu); reflexivity.
  - specialize (IH (fun l' Hl' => Hf l' (or_intror Hl'))).
    cbn [List.filter]. rewrite (Hf l (or_introl eq_refl)).
    destruct Hdl as (Hc & Hs & Hd & Hm & Hq). rewrite Hc, Hs, Hd.
    rewrite (Z.eqb_sym cu c).
    destruct (c =? cu); cbn [andb]; [|exact IH].
    destruct (SP_MCSI_SellOut.SKU_ID d =? s); cbn [andb]; [|exact IH].
    destruct (p (SP_MCSI_SellOut.DocumentDate d)); [|exact IH].
    cbn [List.map Qsum fold_right].
    fold (Qsum (List.map _signed_qty_expr (List.filter f N))).
    match goal with
    | |- context [fold_right Qplus 0%Q ?m] => change (fold_right Qplus 0%Q m) with (Qsum m)
    end.
    rewrite IH. destruct (signed_qty_convention l) as [Hsgn _]. rewrite (Hsgn Hm), Hq.
    rewrite Qabs_opp. ring.
Qed.

Lemma sum_app_filter {A : Type} (g : A -> Q) (f : A -> bool) (L N : list A) :
  (coalesce (sql_sum (List.map g (List.filter f (L ++ N)))) 0
   == coalesce (sql_sum (List.map g (List.filter f L))) 0
      + Qsum (List.map g (List.filter f N)))%Q.
Proof.
  rewrite !coalesce_sql_sum, List.filter_app, List.map_app. apply Qsum_app.
Qed.

Lemma sql_max_filter_app (f : SP_InventoryLedger.row -> bool)
    (L N : list SP_InventoryLedger.row) :
  (forall l, In l N -> f l = false) ->
  List.filter f (L ++ N) = List.filter f L.
Proof.
  intros HN. rewrite List.filter_app, (proj2 (filter_nil_iff f N) HN). apply app_nil_r.
Qed.

(** Rows that are not ADJUST rows move no anchor. *)
Lemma effective_anchor_app (L N : list SP_InventoryLedger.row) (c s as_of : Z) :
  (forall l, In l N -> SP_InventoryLedger.MovementType l = MOVT_SELLOUT) ->
  _effective_anchor_for_sku (L ++ N) c s as_of = _effective_anchor_for_sku L c s as_of.
Proof.
  intros HN. unfold _effective_anchor_for_sku, _anchor_adjust_date_customer,
    _anchor_adjust_date_sku_only.
  rewrite !sql_max_filter_app; [reflexivity|..];
    intros l Hl; rewrite (HN l Hl); cbn; rewrite ?andb_false_r; reflexivity.
Qed.

Lemma upload_sold_from_anchor (details : list SP_MCSI_SellOut.row) (s anchor as_of : Z) :
  anchor <= as_of ->
  (upload_sold details s (fun d => d =? anchor)
   + upload_sold details s (fun d => (anchor <? d) && (d <=? as_of))
   == upload_sold details s (fun d => (anchor <=? d) && (d <=? as_of)))%Q.
Proof.
  intros Hle. unfold upload_sold. induction details as [|d details IH]; [reflexivity|].
  cbn [List.filter]. destruct (SP_MCSI_SellOut.SKU_ID d =? s); cbn [andb]; [|exact IH].
  destruct (Z.eqb_spec (SP_MCSI_SellOut.DocumentDate d) anchor),
           (Z.ltb_spec anchor (SP_MCSI_SellOut.DocumentDate d)),
           (Z.leb_spec anchor (SP_MCSI_SellOut.DocumentDate d)),
           (Z.leb_spec (SP_MCSI_SellOut.DocumentDate d) as_of); try lia;
    cbn [andb List.map]; unfold Qsum in *; cbn [fold_right]; lra.
Qed.

Lemma effective_anchor_le (L : list SP_InventoryLedger.row) (c s as_of anchor : Z) :
  _effective_anchor_for_sku L c s as_of = Some anchor -> anchor <= as_of.
Proof.
  unfold _effective_anchor_for_sku, _anchor_adjust_date_customer, _anchor_adjust_date_sku_only.
  set (fc := fun l => (SP_InventoryLedger.CustomerID l =? c)
                      && String.eqb (SP_InventoryLedger.MovementType l) "ADJUST"
                      && (SP_InventoryLedger.DocDate l <=? as_of)).
  set (fs := fun l => (SP_InventoryLedger.CustomerID l =? c)
                      && (SP_InventoryLedger.SKU_ID l =? s)
                      && String.eqb (SP_InventoryLedger.MovementType l) "ADJUST"
                      && (SP_InventoryLedger.DocDate l <=? as_of)).
  assert (Hc : forall a, sql_max (List.map SP_InventoryLedger.DocDate (List.filter fc L)) = Some a
                         -> a <= as_of).
  { intros a Ha. apply sql_max_Some in Ha as [Hin _].
    apply in_map_iff in Hin as (l & <- & Hl). apply filter_In in Hl as [_ Hl].
    unfold fc in Hl. apply andb_true_iff in Hl as [_ Hl]. lia. }
  assert (Hs : forall a, sql_max (List.map SP_InventoryLedger.DocDate (List.filter fs L)) = Some a
                         -> a <= as_of).
  { intros a Ha. apply sql_max_Some in Ha as [Hin _].
    apply in_map_iff in Hin as (l & <- & Hl). apply filter_In in Hl as [_ Hl].
    unfold fs in Hl. apply andb_true_iff in Hl as [_ Hl]. lia. }
  destruct (sql_max (List.map SP_InventoryLedger.DocDate (List.filter fc L))) as [a1|];
    destruct (sql_max (List.map SP_InventoryLedger.DocDate (List.filter fs L))) as [a2|];
    intros [= <-]; try (specialize (Hc _ eq_refl)); try (specialize (Hs _ eq_refl)); lia.
Qed.

(** Rewrites the signed sum of the posted rows [N] over the lines selected
    by [p]. *)
Ltac posted_sum cu sku details N Hall HN p :=
  match goal with
  | |- context [Qsum (List.map _signed_qty_expr (List.filter ?f N))] =>
      rewrite (posted_signed_sum cu cu sku p f details N Hall)
        by (let l := fresh "l" in
            let Hl := fresh "Hl" in
            intros l Hl; try rewrite (HN l Hl); cbn [String.eqb Ascii.eqb Bool.eqb andb negb MOVT_SELLOUT];
            rewrite ?andb_true_r, <- ?andb_assoc; reflexivity)
  end.

(** X10.  Posting an upload lowers the closing stock of the report, for the
    customer of the upload and each SKU, by what the active lines sell of the
    SKU between the effective anchor and the as-of date (after the latest
    snapshot when there is no anchor); without anchor and snapshot the
    closing stock is 0 before and after.  The closing stock of every other
    customer is untouched. *)
Theorem posting_lowers_closing_soh (int_of_varchar : string -> option Z) (actor : py_value)
    (comment : option string) (db db' : database) (id : Z) :
  approve_one int_of_varchar actor comment db id = (db', Posted) ->
  exists h,
    db_uploads db !! id = Some h
    /\ (forall (S : list SP_SOH_Detail.row) (sku as_of : Z),
          let c := SP_SellOutUploads.CustomerID h in
          let details := active_details (db_details db) id in
          let before := _closing_soh_anchored (db_ledger db) S c sku as_of in
          let after := _closing_soh_anchored (db_ledger db') S c sku as_of in
          match _effective_anchor_for_sku (db_ledger db) c sku as_of with
          | Some anchor =>
              (after == before
                        - upload_sold details sku (fun d => (anchor <=? d) && (d <=? as_of)))%Q
          | None =>
              match fst (_latest_active_snapshot S c None sku as_of) with
              | Some sd =>
                  (after == before
                            - upload_sold details sku (fun d => (sd <? d) && (d <=? as_of)))%Q
              | None => after = 0%Q /\ before = 0%Q
              end
          end)
    /\ (forall (S : list SP_SOH_Detail.row) (c' sku as_of : Z),
          c' <> SP_SellOutUploads.CustomerID h ->
          _closing_soh_anchored (db_ledger db') S c' sku as_of
          = _closing_soh_anchored (db_ledger db) S c' sku as_of).
Proof.
  intros Hpost.
  destruct (approve_one_posted_rows _ _ _ _ _ _ Hpost) as (h & N & Hh & Hledger & Hall).
  exists h. split; [exact Hh|].
  set (cu := SP_SellOutUploads.CustomerID h) in *.
  assert (HN : forall l, In l N -> SP_InventoryLedger.MovementType l = MOVT_SELLOUT).
  { intros l Hl. destruct (posted_for_In cu _ N l Hall Hl) as [_ H]. exact H. }
  assert (HNc : forall l, In l N -> SP_InventoryLedger.CustomerID l = cu).
  { intros l Hl. destruct (posted_for_In cu _ N l Hall Hl) as [H _]. exact H. }
  rewrite Hledger. split.
  - intros S sku as_of c details before after. subst c before after.
    unfold _closing_soh_anchored. rewrite (effective_anchor_app _ N cu sku as_of HN).
    destruct (_effective_anchor_for_sku (db_ledger db) cu sku as_of) as [anchor|] eqn:Ea.
    + pose proof (effective_anchor_le _ _ _ _ _ Ea) as Hle.
      destruct (_snapshot_qty_on_date S cu sku anchor) as [base had]. destruct had.
      * unfold _sum_signed_on_date_excl_adjust, _sum_signed_after_date.
        rewrite !sum_app_filter.
        posted_sum cu sku details N Hall HN (fun d : Z => d =? anchor).
        posted_sum cu sku details N Hall HN (fun d : Z => (anchor <? d) && (d <=? as_of)).
        rewrite Z.eqb_refl.
        pose proof (upload_sold_from_anchor details sku anchor as_of Hle). lra.
      * unfold _sum_signed_inclusive. rewrite !sum_app_filter.
        posted_sum cu sku details N Hall HN (fun d : Z => (anchor <=? d) && (d <=? as_of)).
        rewrite Z.eqb_refl. lra.
    + destruct (_latest_active_snapshot S cu None sku as_of) as [[sd|] qty]; cbn [fst].
      * rewrite !sum_app_filter.
        posted_sum cu sku details N Hall HN (fun d : Z => (sd <? d) && (d <=? as_of)).
        rewrite Z.eqb_refl. lra.
      * split; reflexivity.
  - intros S c' sku as_of Hne.
    unfold _closing_soh_anchored. rewrite (effective_anchor_app _ N c' sku as_of HN).
    unfold _sum_signed_on_date_excl_adjust, _sum_signed_after_date, _sum_signed_inclusive.
    destruct (_effective_anchor_for_sku (db_ledger db) c' sku as_of) as [anchor|].
    + destruct (_snapshot_qty_on_date S c' sku anchor) as [base had]. destruct had;
        (rewrite !sql_max_filter_app; [reflexivity|..];
         intros l Hl; rewrite (HNc l Hl);
         (destruct (Z.eqb_spec cu c') as [E|_]; [congruence|reflexivity])).
    + destruct (_latest_active_snapshot S c' None sku as_of) as [[sd|] qty]; [|reflexivity].
      rewrite !sql_max_filter_app; [reflexivity|].
      intros l Hl; rewrite (HNc l Hl).
      destruct (Z.eqb_spec cu c') as [E|_]; [congruence|reflexivity].
Qed.

Lemma posting_lowers_closing_soh_witness :
  approve_one no_varchar (PyInt 5) None draft_db 1
  = (fst (approve_one no_varchar (PyInt 5) None draft_db 1), Posted)
  /\ exists h, db_uploads draft_db !! 1 = Some h
               /\ (_closing_soh_anchored
                     (db_ledger (fst (approve_one no_varchar (PyInt 5) None draft_db 1)))
                     preview_snapshots (SP_SellOutUploads.CustomerID h) 3 5 == -2)%Q
               /\ forall c' : Z,
                    c' <> SP_SellOutUploads.CustomerID h ->
                    _closing_soh_anchored
                      (db_ledger (fst (approve_one no_varchar (PyInt 5) None draft_db 1)))
                      preview_snapshots c' 3 5
                    = _closing_soh_anchored (db_ledger draft_db) preview_snapshots c' 3 5.
Proof.
  assert (H : approve_one no_varchar (PyInt 5) None draft_db 1
              = (fst (approve_one no_varchar (PyInt 5) None draft_db 1), Posted))
    by reflexivity.
  split; [exact H|].
  destruct (posting_lowers_closing_soh no_varchar (PyInt 5) None draft_db _ 1 H)
    as (h & Hh & Hsoh & Hother).
  exists h. split; [exact Hh|]. split.
  - specialize (Hsoh preview_snapshots 3 5). cbn zeta in Hsoh.
    injection Hh as <-. exact Hsoh.
  - intros c' Hc'. apply Hother. exact Hc'.
Defined.

(** ** Sell-out approvals: reject and submit *)









Section reject_facts.

Variable int_of_varchar : string -> option Z.



End reject_facts.

Section submit_facts.

Variable int_of_varchar : string -> option Z.







End submit_facts.




Section approve_facts.

Variable int_of_varchar : string -> option Z.





End approve_facts.

Section resubmit_facts.

Variable int_of_varchar : string -> option Z.






End resubmit_facts.


(** The raw sum of the posted rows of a pair over the dates selected. *)
Lemma posted_raw_sum (cu c s : Z) (p : Z -> bool) (f : SP_InventoryLedger.row -> bool)
    (details : list SP_MCSI_SellOut.row) (N : list SP_InventoryLedger.row) :
  Forall2 (posted_for cu) details N ->
  (forall l, In l N ->
     f l = (SP_InventoryLedger.CustomerID l =? c) && (SP_InventoryLedger.SKU_ID l =? s)
           && p (SP_InventoryLedger.DocDate l)) ->
  (Qsum (List.map SP_InventoryLedger.Qty (List.filter f N))
   == if c =? cu then - upload_qty details s p else 0)%Q.
Proof.
  unfold upload_qty. induction 1 as [|d l details N Hdl Hall IH]; intros Hf.
  - simpl. destruct (c =? cu); reflexivity.
  - specialize (IH (fun l' Hl' => Hf l' (or_intror Hl'))).
    cbn [List.filter]. rewrite (Hf l (or_introl eq_refl)).
    destruct Hdl as (Hc & Hsku & Hdate & _ & Hq). rewrite Hc, Hsku, Hdate.
    rewrite (Z.eqb_sym cu c).
    destruct (c =? cu); cbn [andb]; [|exact IH].
    destruct (SP_MCSI_SellOut.SKU_ID d =? s); cbn [andb]; [|exact IH].
    destruct (p (SP_MCSI_SellOut.DocumentDate d)); [|exact IH].
    cbn [List.map]. unfold Qsum in *. cbn [fold_right]. rewrite IH, Hq. ring.
Qed.

Lemma filter_twice {A : Type} (f g : A -> bool) (l : list A) :
  List.filter f (List.filter g l) = List.filter (fun x => g x && f x) l.
Proof.
  induction l as [|x l IH]; [reflexivity|]. cbn [List.filter].
  destruct (g x); cbn [andb List.filter]; [destruct (f x)|]; now rewrite IH.
Qed.

(** X15.  Posting an upload lowers the balance that the sell-out preview
    reads, for the customer of the upload and each SKU, by the quantities
    of the active lines of the SKU dated after the latest snapshot (from
    the start when there is none) and up to the date asked for.  The
    balances of every other customer are untouched. *)
Theorem posting_lowers_preview_balance (int_of_varchar : string -> option Z)
    (actor : py_value) (comment : option string) (db db' : database) (id : Z) :
  approve_one int_of_varchar actor comment db id = (db', Posted) ->
  exists h,
    db_uploads db !! id = Some h
    /\ (forall (S : list SP_SOH_Detail.row) (brand : option string) (sku as_of : Z),
          let c := SP_SellOutUploads.CustomerID h in
          let details := active_details (db_details db) id in
          let since := fst (_latest_active_snapshot S c brand sku as_of) in
          (_balance_as_of (db_ledger db') S c brand sku as_of
           == _balance_as_of (db_ledger db) S c brand sku as_of
              - upload_qty details sku
                  (fun d => match since with
                            | Some sd => (sd <? d) && (d <=? as_of)
                            | None => d <=? as_of
                            end))%Q)
    /\ (forall (S : list SP_SOH_Detail.row) (brand : option string) (c' sku as_of : Z),
          c' <> SP_SellOutUploads.CustomerID h ->
          _balance_as_of (db_ledger db') S c' brand sku as_of
          = _balance_as_of (db_ledger db) S c' brand sku as_of).
Proof.
  intros Hpost.
  destruct (approve_one_posted_rows _ _ _ _ _ _ Hpost) as (h & N & Hh & Hledger & Hall).
  exists h. split; [exact Hh|].
  set (cu := SP_SellOutUploads.CustomerID h) in *.
  assert (HNc : forall l, In l N -> SP_InventoryLedger.CustomerID l = cu).
  { intros l Hl. destruct (posted_for_In cu _ N l Hall Hl) as [H _]. exact H. }
  rewrite Hledger. split.
  - intros S brand sku as_of c details since. subst c details since.
    unfold _balance_as_of, _sum_ledger_between.
    destruct (_latest_active_snapshot S cu brand sku as_of) as [[sd|] q]; cbn [fst].
    + rewrite !filter_twice.
      rewrite sum_app_filter.
      rewrite (posted_raw_sum cu cu sku (fun d => (sd <? d) && (d <=? as_of)) _ _ N Hall).
      * rewrite Z.eqb_refl. ring.
      * intros l _. destruct (SP_InventoryLedger.CustomerID l =? cu),
          (SP_InventoryLedger.SKU_ID l =? sku), (sd <? SP_InventoryLedger.DocDate l),
          (SP_InventoryLedger.DocDate l <=? as_of); reflexivity.
    + rewrite sum_app_filter.
      rewrite (posted_raw_sum cu cu sku (fun d => d <=? as_of) _ _ N Hall).
      * rewrite Z.eqb_refl. ring.
      * intros l _. reflexivity.
  - intros S brand c' sku as_of Hne.
    unfold _balance_as_of, _sum_ledger_between.
    rewrite (sql_max_filter_app _ (db_ledger db) N); [reflexivity|].
    intros l Hl. rewrite (HNc l Hl).
    destruct (Z.eqb_spec cu c') as [E|_]; [congruence|reflexivity].
Qed.

Lemma posting_lowers_preview_balance_witness :
  approve_one no_varchar (PyInt 5) None draft_db 1
  = (fst (approve_one no_varchar (PyInt 5) None draft_db 1), Posted)
  /\ exists h, db_uploads draft_db !! 1 = Some h
               /\ (_balance_as_of
                     (db_ledger (fst (approve_one no_varchar (PyInt 5) None draft_db 1)))
                     preview_snapshots (SP_SellOutUploads.CustomerID h) None 3 5
                   == _balance_as_of (db_ledger draft_db) preview_snapshots
                        (SP_SellOutUploads.CustomerID h) None 3 5
                      - upload_qty (active_details (db_details draft_db) 1) 3
                          (fun d => match fst (_latest_active_snapshot preview_snapshots
                                                 (SP_SellOutUploads.CustomerID h) None 3 5) with
                                    | Some sd => (sd <? d) && (d <=? 5)
                                    | None => d <=? 5
                                    end))%Q.
Proof.
  assert (H : approve_one no_varchar (PyInt 5) None draft_db 1
              = (fst (approve_one no_varchar (PyInt 5) None draft_db 1), Posted))
    by reflexivity.
  split; [exact H|].
  destruct (posting_lowers_preview_balance no_varchar (PyInt 5) None draft_db _ 1 H)
    as (h & Hh & Hbal & _).
  exists h. split; [exact Hh|]. exact (Hbal preview_snapshots None 3 5).
Defined.





(** ** Sell-in: back-fill and deletion *)

Lemma key_exists_app (L N : list SP_InventoryLedger.row) (k : string) :
  key_exists (L ++ N) k = key_exists L k || key_exists N k.
Proof. unfold key_exists. apply existsb_app. Qed.

Lemma key_exists_insert (L : list SP_InventoryLedger.row) (r : SP_InventoryLedger.row)
    (k : string) :
  SP_InventoryLedger.IdempotencyKey r = Some k -> key_exists (ledger_insert L r) k = true.
Proof.
  intros Hk. unfold ledger_insert. rewrite key_exists_app. unfold key_exists at 2.
  cbn [existsb SP_InventoryLedger.IdempotencyKey]. rewrite Hk.
  rewrite bool_decide_eq_true_2 by reflexivity. apply orb_true_r.
Qed.

Lemma key_exists_mono (L N : list SP_InventoryLedger.row) (k : string) :
  key_exists L k = true -> key_exists (L ++ N) k = true.
Proof. intros H. rewrite key_exists_app, H. reflexivity. Qed.

Lemma ledger_insert_app (L : list SP_InventoryLedger.row) (r : SP_InventoryLedger.row) :
  exists l, ledger_insert L r = L ++ [l] /\ inserted_as r l.
Proof.
  unfold ledger_insert. eexists. split; [reflexivity|].
  unfold inserted_as. cbn. repeat split.
Qed.

Lemma andb_negb_false (a b : bool) : a && negb b = false -> a = true -> b = true.
Proof. destruct a, b; simpl; congruence. Qed.

Lemma negb_andb_negb_false (a b : bool) : negb a && negb b = false -> a = false -> b = true.
Proof. destruct a, b; simpl; congruence. Qed.

Lemma key_exists_fold_insert (P L : list SP_InventoryLedger.row) (k : string) :
  key_exists (fold_left ledger_insert P L) k = key_exists (L ++ P) k.
Proof.
  destruct (fold_ledger_insert P L) as (rows & -> & Hall).
  rewrite !key_exists_app. f_equal. unfold key_exists.
  induction Hall as [|r l P rows Hrl Hall IH]; [reflexivity|].
  cbn [existsb]. rewrite IH. f_equal.
  destruct Hrl as (_ & _ & _ & _ & _ & _ & _ & _ & _ & ->). reflexivity.
Qed.

Lemma si_covered_keys (rc rs : string -> option Z) (X Y : list SP_InventoryLedger.row)
    (r : SP_MCSI_SellIn.row) :
  (forall k, key_exists X k = true -> key_exists Y k = true) ->
  si_covered rc rs X r -> si_covered rc rs Y r.
Proof.
  unfold si_covered. intros HXY H Hm. destruct (H Hm) as [H1 H2].
  split; intros Hq; apply HXY; auto.
Qed.

Lemma pending_spec (rc rs : string -> option Z) (L : list SP_InventoryLedger.row)
    (r : SP_MCSI_SellIn.row) :
  let added := fst (_ensure_ledger_for_si_row_pending rc rs L r) in
  let ans := snd (_ensure_ledger_for_si_row_pending rc rs L r) in
  Forall (si_posted r) added
  /\ (fst ans = false -> added = [] /\ ans = si_nothing rc rs r)
  /\ (fst ans = true -> si_unmapped rc rs r = false)
  /\ si_covered rc rs (L ++ added) r
  /\ (si_covered rc rs L r -> added = [] /\ ans = si_nothing rc rs r).
Proof.
  unfold _ensure_ledger_for_si_row_pending, si_nothing, si_covered, si_unmapped.
  destruct (negb (truthy (rc (SP_MCSI_SellIn.SoldToParty r)))
            || negb (truthy (rs (SP_MCSI_SellIn.Article r)))) eqn:Emap.
  { cbn [fst snd]. rewrite app_nil_r. repeat split; auto; discriminate. }
  set (idem := _idempotency_key_for_si _ _ _ _).
  set (qty := coalesce (SP_MCSI_SellIn.GrossSale r) 0%Q).
  set (ret_q := coalesce (SP_MCSI_SellIn.ReturnQty r) 0%Q).
  set (row1 := SP_InventoryLedger.mk 0 _ _ _ "SELLIN" None qty _ _ _ _).
  set (row2 := SP_InventoryLedger.mk 0 _ _ _ "SELLIN" (Some "RETURN"%string) _ _ _ _ _).
  assert (Hp1 : si_posted r row1) by (repeat split).
  assert (Hp2 : si_posted r row2) by (repeat split).
  assert (Hk1 : forall X Y, key_exists (X ++ row1 :: Y) idem = true).
  { intros X Y. rewrite key_exists_app. unfold key_exists at 2. cbn [existsb].
    subst row1. cbn [SP_InventoryLedger.IdempotencyKey].
    rewrite bool_decide_eq_true_2 by reflexivity. apply orb_true_r. }
  assert (Hk2 : forall X, key_exists (X ++ [row2]) (idem +:+ ":RET") = true).
  { intros X. rewrite key_exists_app. unfold key_exists at 2. cbn [existsb].
    subst row2. cbn [SP_InventoryLedger.IdempotencyKey].
    rewrite bool_decide_eq_true_2 by reflexivity. apply orb_true_r. }
  destruct (Qltb 0 qty && negb (key_exists L idem)) eqn:Em;
    destruct (negb (Qeq_bool ret_q 0) && negb (key_exists L (idem +:+ ":RET"))) eqn:Er;
    cbn [fst snd app].
  - split; [constructor; [exact Hp1|constructor; [exact Hp2|constructor]]|].
    split; [discriminate|]. split; [reflexivity|].
    split.
    + intros _. split; intros _; [apply Hk1|].
      replace (L ++ [row1; row2]) with ((L ++ [row1]) ++ [row2])
        by (rewrite <- app_assoc; reflexivity). apply Hk2.
    + intros Hc. destruct (Hc eq_refl) as [Hc1 _].
      apply andb_true_iff in Em. destruct Em as [Eq Ek].
      rewrite (Hc1 Eq) in Ek. discriminate.
  - split; [constructor; [exact Hp1|constructor]|].
    split; [discriminate|]. split; [reflexivity|].
    split.
    + intros _. split; intros H; [apply Hk1|].
      apply key_exists_mono. apply (negb_andb_negb_false _ _ Er). exact H.
    + intros Hc. destruct (Hc eq_refl) as [Hc1 _].
      apply andb_true_iff in Em. destruct Em as [Eq Ek].
      rewrite (Hc1 Eq) in Ek. discriminate.
  - split; [constructor; [exact Hp2|constructor]|].
    split; [discriminate|]. split; [reflexivity|].
    split.
    + intros _. split; intros H; [|apply Hk2].
      apply key_exists_mono. apply (andb_negb_false _ _ Em). exact H.
    + intros Hc. destruct (Hc eq_refl) as [_ Hc2].
      apply andb_true_iff in Er. destruct Er as [Eq Ek].
      apply negb_true_iff in Eq. rewrite (Hc2 Eq) in Ek. discriminate.
  - rewrite app_nil_r. split; [constructor|].
    split; [intros _; split; reflexivity|]. split; [discriminate|].
    split.
    + intros _. split; intros H.
      * apply (andb_negb_false _ _ Em). exact H.
      * apply (negb_andb_negb_false _ _ Er). exact H.
    + intros _. split; reflexivity.
Qed.

Lemma string_append_length (s t : string) :
  String.length (s +:+ t) = (String.length s + String.length t)%nat.
Proof.
  induction s as [|a s IH]; [reflexivity|].
  change (S (String.length (s +:+ t)) = S (String.length s + String.length t)).
  f_equal. exact IH.
Qed.

Lemma string_append_RET (s : string) : s <> s +:+ ":RET".
Proof.
  intros H. apply (f_equal String.length) in H.
  rewrite (string_append_length s ":RET") in H.
  change (String.length ":RET") with 4%nat in H. lia.
Qed.

(** Called on its own, the function gives what its embedding with an
    immediate flush gives: the two keys it looks up differ. *)
Lemma ensure_pending_agree (rc rs : string -> option Z) (L : list SP_InventoryLedger.row)
    (r : SP_MCSI_SellIn.row) :
  _ensure_ledger_for_si_row rc rs L r
  = (fold_left ledger_insert (fst (_ensure_ledger_for_si_row_pending rc rs L r)) L,
     snd (_ensure_ledger_for_si_row_pending rc rs L r)).
Proof.
  unfold _ensure_ledger_for_si_row, _ensure_ledger_for_si_row_pending.
  destruct (negb (truthy (rc (SP_MCSI_SellIn.SoldToParty r)))
            || negb (truthy (rs (SP_MCSI_SellIn.Article r)))); [reflexivity|].
  set (idem := _idempotency_key_for_si _ _ _ _).
  assert (Hne : forall row, SP_InventoryLedger.IdempotencyKey row = Some idem ->
                  key_exists (ledger_insert L row) (idem +:+ ":RET")
                  = key_exists L (idem +:+ ":RET")).
  { intros row Hrow. unfold ledger_insert. rewrite key_exists_app.
    unfold key_exists at 2. cbn [existsb SP_InventoryLedger.IdempotencyKey]. rewrite Hrow.
    rewrite bool_decide_eq_false_2; [rewrite !orb_false_r; reflexivity|].
    intros [= H]. exact (string_append_RET _ H). }
  destruct (Qltb 0 _ && negb (key_exists L idem)).
  - match goal with
    | |- context [key_exists (ledger_insert L ?row) _] => rewrite (Hne row eq_refl)
    end.
    destruct (negb (Qeq_bool _ 0) && negb (key_exists L (idem +:+ ":RET"))); reflexivity.
  - destruct (negb (Qeq_bool _ 0) && negb (key_exists L (idem +:+ ":RET"))); reflexivity.
Qed.

Lemma backfill_step_spec (rc rs : string -> option Z) (L P : list SP_InventoryLedger.row)
    (n : backfill_counts) (r : SP_MCSI_SellIn.row) :
  exists added,
    fst (backfill_step rc rs L (P, n) r) = P ++ added
    /\ Forall (si_posted r) added
    /\ si_covered rc rs (L ++ added) r
    /\ (let n' := snd (backfill_step rc rs L (P, n) r) in
        created n' + skipped n' + missing_mapping n'
        = created n + skipped n + missing_mapping n + 1
        /\ created n <= created n' /\ skipped n <= skipped n'
        /\ missing_mapping n'
           = missing_mapping n + (if si_unmapped rc rs r then 1 else 0))
    /\ (si_covered rc rs L r ->
        backfill_step rc rs L (P, n) r
        = (P, mk_backfill_counts (created n)
                (skipped n + (if si_unmapped rc rs r then 0 else 1))
                (missing_mapping n + (if si_unmapped rc rs r then 1 else 0)))).
Proof.
  pose proof (pending_spec rc rs L r) as H. cbn zeta in H.
  destruct H as (Hall & Hnot & Hmade & Hcov & Hnoop).
  assert (Hmsg : si_nothing rc rs r
                 = (false, if si_unmapped rc rs r then Some "Mapping not found"%string
                           else Some "No rows posted"%string)).
  { unfold si_nothing, si_unmapped. destruct (negb _ || negb _); reflexivity. }
  unfold backfill_step.
  destruct (_ensure_ledger_for_si_row_pending rc rs L r) as [added [made msg]].
  cbn [fst snd] in *. exists added.
  split; [destruct made; [reflexivity|destruct (bool_decide _); reflexivity]|].
  split; [exact Hall|]. split; [exact Hcov|].
  split.
  - destruct made.
    + rewrite (Hmade eq_refl). cbn [snd created skipped missing_mapping]. lia.
    + destruct (Hnot eq_refl) as [_ Hs]. rewrite Hmsg in Hs.
      injection Hs as ->. destruct (si_unmapped rc rs r).
      * rewrite bool_decide_eq_true_2 by reflexivity.
        cbn [snd created skipped missing_mapping]. lia.
      * rewrite bool_decide_eq_false_2 by discriminate.
        cbn [snd created skipped missing_mapping]. lia.
  - intros Hc. destruct (Hnoop Hc) as [-> Hs]. rewrite Hmsg in Hs. injection Hs as Hm1 Hm2.
    subst made msg.
    rewrite app_nil_r. destruct (si_unmapped rc rs r).
    + rewrite bool_decide_eq_true_2 by reflexivity. f_equal. f_equal; lia.
    + rewrite bool_decide_eq_false_2 by discriminate. f_equal. f_equal; lia.
Qed.

Lemma backfill_fold_spec (rc rs : string -> option Z) (L : list SP_InventoryLedger.row)
    (rows : list SP_MCSI_SellIn.row) :
  forall (P : list SP_InventoryLedger.row) (n : backfill_counts),
  exists added,
    fst (fold_left (backfill_step rc rs L) rows (P, n)) = P ++ added
    /\ Forall (fun l => exists r, In r rows /\ si_posted r l) added
    /\ (forall r, In r rows -> si_covered rc rs (L ++ added) r)
    /\ (let n' := snd (fold_left (backfill_step rc rs L) rows (P, n)) in
        created n' + skipped n' + missing_mapping n'
        = created n + skipped n + missing_mapping n + Z.of_nat (length rows)
        /\ created n <= created n' /\ skipped n <= skipped n'
        /\ missing_mapping n'
           = missing_mapping n + Z.of_nat (length (List.filter (si_unmapped rc rs) rows))).
Proof.
  induction rows as [|r rows IH]; intros P n.
  - exists []. cbn [fold_left fst snd length List.filter]. rewrite !app_nil_r.
    split; [reflexivity|]. split; [constructor|]. split; [intros ? []|].
    cbn. lia.
  - cbn [fold_left].
    destruct (backfill_step_spec rc rs L P n r) as (new1 & Hf1 & Ha1 & Hc1 & Hn1 & _).
    destruct (backfill_step rc rs L (P, n) r) as [P1 n1]. cbn [fst snd] in Hf1, Hn1. subst P1.
    destruct (IH (P ++ new1) n1) as (new2 & Hf2 & Ha2 & Hc2 & Hn2).
    exists (new1 ++ new2). rewrite app_assoc.
    split; [exact Hf2|].
    split.
    { apply List.Forall_app. split.
      - eapply List.Forall_impl; [|exact Ha1]. intros l Hl. exists r.
        split; [left; reflexivity|exact Hl].
      - eapply List.Forall_impl; [|exact Ha2]. intros l (r' & Hr' & Hl). exists r'.
        split; [right; exact Hr'|exact Hl]. }
    split.
    { intros r' [<-|Hr'].
      - eapply si_covered_keys; [|exact Hc1]. intros k. rewrite !key_exists_app.
        intros Hk. apply orb_true_iff in Hk. destruct Hk as [-> | ->]; [reflexivity|].
        rewrite orb_true_r. reflexivity.
      - eapply si_covered_keys; [|exact (Hc2 r' Hr')]. intros k. rewrite !key_exists_app.
        intros Hk. apply orb_true_iff in Hk. destruct Hk as [-> | ->]; [reflexivity|].
        rewrite !orb_true_r. reflexivity. }
    cbn zeta in *. cbn [List.filter length].
    destruct Hn1 as (S1 & C1 & K1 & M1). destruct Hn2 as (S2 & C2 & K2 & M2).
    destruct (si_unmapped rc rs r); cbn [length]; lia.
Qed.

Lemma backfill_fold_covered (rc rs : string -> option Z) (rows : list SP_MCSI_SellIn.row)
    (L : list SP_InventoryLedger.row) :
  (forall r, In r rows -> si_covered rc rs L r) ->
  forall P n,
    fold_left (backfill_step rc rs L) rows (P, n)
    = (P, mk_backfill_counts (created n)
            (skipped n + Z.of_nat (length rows)
             - Z.of_nat (length (List.filter (si_unmapped rc rs) rows)))
            (missing_mapping n + Z.of_nat (length (List.filter (si_unmapped rc rs) rows)))).
Proof.
  induction rows as [|r rows IH]; intros Hcov P n.
  - cbn. destruct n. cbn. f_equal. f_equal; lia.
  - cbn [fold_left].
    destruct (backfill_step_spec rc rs L P n r) as (_ & _ & _ & _ & _ & Hnoop).
    rewrite (Hnoop (Hcov r (or_introl eq_refl))).
    rewrite (IH (fun r' Hr' => Hcov r' (or_intror Hr'))).
    cbn [created skipped missing_mapping List.filter length].
    destruct (si_unmapped rc rs r); cbn [length]; f_equal; f_equal; lia.
Qed.

Lemma si_window_In (start end_ : Z) (SI : list SP_MCSI_SellIn.row) (r : SP_MCSI_SellIn.row) :
  In r (si_window start end_ SI)
  <-> In r SI /\ start <= SP_MCSI_SellIn.DocumentDate r <= end_.
Proof.
  unfold si_window. rewrite <- !list_elem_of_In, merge_sort_Permutation, !list_elem_of_In.
  rewrite filter_In. unfold si_in_window. rewrite andb_true_iff, Z.leb_le, Z.leb_le.
  reflexivity.
Qed.

Lemma backfill_ledger_new (resolve_customer resolve_sku : string -> option Z)
    (start end_ : Z) (SI : list SP_MCSI_SellIn.row) (L : list SP_InventoryLedger.row) :
  exists new,
    fst (backfill_ledger resolve_customer resolve_sku start end_ SI true L) = L ++ new
    /\ Forall (fun l => SP_InventoryLedger.MovementType l = MOVT_SELLIN
                        /\ SP_InventoryLedger.RefTable l = Some "SP_MCSI_SellIn"%string
                        /\ SP_InventoryLedger.UploadID l = None
                        /\ start <= SP_InventoryLedger.DocDate l <= end_
                        /\ exists r, In r SI /\ SP_MCSI_SellIn.DocumentDate r
                                                = SP_InventoryLedger.DocDate l) new
    /\ forall r, In r (si_window start end_ SI) ->
                 si_covered resolve_customer resolve_sku (L ++ new) r.
Proof.
  unfold backfill_ledger.
  destruct (backfill_fold_spec resolve_customer resolve_sku L (si_window start end_ SI) []
              (mk_backfill_counts 0 0 0)) as (added & Hfst & Hall & Hcov & _).
  destruct (fold_left _ _ _) as [P n]. cbn [fst app] in *. subst P.
  destruct (fold_ledger_insert added L) as (new & Hnew & Hins).
  exists new. rewrite Hnew. split; [reflexivity|].
  split.
  - apply List.Forall_forall. intros l Hl.
    destruct (Forall2_In_r _ _ _ l Hins Hl) as (a & Ha & Hal).
    rewrite List.Forall_forall in Hall.
    destruct (Hall a Ha) as (r & Hr & Hmt & Hrt & Hd & Hu).
    destruct Hal as (_ & _ & Hd' & Hmt' & _ & _ & Hu' & Hrt' & _).
    apply si_window_In in Hr. destruct Hr as [Hr Hw].
    rewrite Hmt', Hrt', Hu', Hd'.
    split; [exact Hmt|]. split; [exact Hrt|]. split; [exact Hu|].
    split; [rewrite Hd; exact Hw|]. exists r. split; [exact Hr|symmetry; exact Hd].
  - intros r Hr. eapply si_covered_keys; [|exact (Hcov r Hr)].
    intros k. rewrite <- Hnew, key_exists_fold_insert. auto.
Qed.

(** X16.  [backfill_ledger] counts every captured row of the window once,
    as created, skipped or without mapping; it only adds rows to the
    ledger, SELLIN rows of SP_MCSI_SellIn dated as a captured row of the
    window; and it is idempotent: a second run over the same rows creates
    nothing and leaves the ledger as the first run left it.  When the
    commit fails the ledger is as before. *)
Theorem backfill_ledger_is_idempotent (resolve_customer resolve_sku : string -> option Z)
    (start end_ : Z) (SI : list SP_MCSI_SellIn.row) (L : list SP_InventoryLedger.row) :
  let rows := si_window start end_ SI in
  let unmapped := Z.of_nat (length (List.filter (si_unmapped resolve_customer resolve_sku) rows)) in
  let L1 := fst (backfill_ledger resolve_customer resolve_sku start end_ SI true L) in
  backfill_ledger resolve_customer resolve_sku start end_ SI false L = (L, None)
  /\ (exists n,
        snd (backfill_ledger resolve_customer resolve_sku start end_ SI true L) = Some n
        /\ created n + skipped n + missing_mapping n = Z.of_nat (length rows)
        /\ 0 <= created n /\ 0 <= skipped n
        /\ missing_mapping n = unmapped)
  /\ (exists new,
        L1 = L ++ new
        /\ Forall (fun l => SP_InventoryLedger.MovementType l = MOVT_SELLIN
                            /\ SP_InventoryLedger.RefTable l = Some "SP_MCSI_SellIn"%string
                            /\ SP_InventoryLedger.UploadID l = None
                            /\ start <= SP_InventoryLedger.DocDate l <= end_
                            /\ exists r, In r SI /\ SP_MCSI_SellIn.DocumentDate r
                                                    = SP_InventoryLedger.DocDate l) new)
  /\ backfill_ledger resolve_customer resolve_sku start end_ SI true L1
     = (L1, Some (mk_backfill_counts 0 (Z.of_nat (length rows) - unmapped) unmapped)).
Proof.
  intros rows unmapped L1.
  destruct (backfill_ledger_new resolve_customer resolve_sku start end_ SI L)
    as (new & HL1 & Hnew & Hcov).
  fold L1 in HL1. fold rows in Hcov.
  split.
  { unfold backfill_ledger. destruct (fold_left _ _ _). reflexivity. }
  split.
  { unfold backfill_ledger. fold rows.
    destruct (backfill_fold_spec resolve_customer resolve_sku L rows []
                (mk_backfill_counts 0 0 0)) as (_ & _ & _ & _ & Hsum & Hc & Hs & Hm).
    destruct (fold_left _ _ _) as [P n]. cbn [fst snd created skipped missing_mapping] in *.
    exists n. split; [reflexivity|]. fold unmapped in Hm. repeat split; lia. }
  split; [exists new; split; [exact HL1|exact Hnew]|].
  unfold backfill_ledger at 1. fold rows. rewrite <- HL1 in Hcov.
  rewrite (backfill_fold_covered resolve_customer resolve_sku rows L1 Hcov).
  cbn [created skipped missing_mapping fold_left]. fold unmapped.
  rewrite ?Z.add_0_l. reflexivity.
Qed.

Lemma filter_app_none {A : Type} (f : A -> bool) (L N : list A) :
  Forall (fun x => f x = false) N -> List.filter f (L ++ N) = List.filter f L.
Proof.
  intros H. rewrite List.filter_app.
  rewrite (proj2 (filter_nil_iff f N)); [apply app_nil_r|].
  apply List.Forall_forall. exact H.
Qed.

(** X17.  [delete_sellin] undoes [backfill_ledger]: deleting the window
    after a back-fill of the same window leaves the ledger that deleting
    the window without the back-fill leaves, so every row the back-fill
    created is removed again.  The deletion keeps, in their order, the
    ledger rows that are not SELLIN rows of SP_MCSI_SellIn dated inside the
    window; so a ledger without such rows, whatever sell-out postings,
    stock uploads and manual sell-in entries it holds, is left as it is. *)
Theorem delete_sellin_undoes_backfill (resolve_customer resolve_sku : string -> option Z)
    (start end_ : Z) (SI : list SP_MCSI_SellIn.row) (commit_ok : bool)
    (L : list SP_InventoryLedger.row) :
  snd (delete_sellin start end_
         (SI, fst (backfill_ledger resolve_customer resolve_sku start end_ SI commit_ok L)))
  = snd (delete_sellin start end_ (SI, L))
  /\ (Forall (fun l => SP_InventoryLedger.MovementType l <> MOVT_SELLIN
                       \/ SP_InventoryLedger.RefTable l <> Some "SP_MCSI_SellIn"%string
                       \/ SP_InventoryLedger.DocDate l < start
                       \/ end_ < SP_InventoryLedger.DocDate l) L ->
      snd (delete_sellin start end_ (SI, L)) = L
      /\ snd (delete_sellin start end_
                (SI, fst (backfill_ledger resolve_customer resolve_sku start end_ SI
                            commit_ok L))) = L)
  /\ fst (delete_sellin start end_ (SI, L))
     = List.filter (fun r => negb (si_in_window start end_ r)) SI
  /\ si_window start end_ (fst (delete_sellin start end_ (SI, L))) = [].
Proof.
  assert (Hundo : snd (delete_sellin start end_
                         (SI, fst (backfill_ledger resolve_customer resolve_sku start end_ SI
                                     commit_ok L)))
                  = snd (delete_sellin start end_ (SI, L))).
  { destruct commit_ok;
      [|unfold backfill_ledger; destruct (fold_left _ _ _); reflexivity].
    destruct (backfill_ledger_new resolve_customer resolve_sku start end_ SI L)
      as (new & -> & Hall & _).
    unfold delete_sellin. cbn [fst snd]. apply filter_app_none.
    eapply List.Forall_impl; [|exact Hall].
    intros l (Hmt & Hrt & _ & [Hlo Hhi] & _). unfold from_sellin_in_window.
    rewrite Hmt, Hrt. rewrite bool_decide_eq_true_2 by reflexivity.
    apply Z.leb_le in Hlo, Hhi. rewrite Hlo, Hhi. reflexivity. }
  split; [exact Hundo|].
  assert (Hkeep : Forall (fun l => SP_InventoryLedger.MovementType l <> MOVT_SELLIN
                       \/ SP_InventoryLedger.RefTable l <> Some "SP_MCSI_SellIn"%string
                       \/ SP_InventoryLedger.DocDate l < start
                       \/ end_ < SP_InventoryLedger.DocDate l) L ->
                  snd (delete_sellin start end_ (SI, L)) = L).
  { clear Hundo. intros Hall. unfold delete_sellin. cbn [fst snd].
    induction L as [|l L IH]; [reflexivity|].
    apply List.Forall_cons_iff in Hall. destruct Hall as [Hl Hall].
    cbn [List.filter].
    assert (Hf : from_sellin_in_window start end_ l = false).
    { unfold from_sellin_in_window.
      destruct (String.eqb_spec (SP_InventoryLedger.MovementType l) "SELLIN") as [Hm|Hm];
        [|reflexivity].
      destruct (decide (SP_InventoryLedger.RefTable l = Some "SP_MCSI_SellIn"%string))
        as [Hr|Hr].
      2:{ rewrite bool_decide_eq_false_2 by exact Hr. reflexivity. }
      rewrite bool_decide_eq_true_2 by exact Hr. cbn [andb].
      destruct Hl as [Hl|[Hl|[Hl|Hl]]]; try contradiction.
      - apply Z.leb_gt in Hl. rewrite Hl. reflexivity.
      - apply Z.leb_gt in Hl. rewrite Hl.
        destruct (start <=? SP_InventoryLedger.DocDate l); reflexivity. }
    rewrite Hf. cbn [negb]. f_equal. apply IH, Hall. }
  split.
  { intros Hall. split; [apply Hkeep, Hall|]. rewrite Hundo. apply Hkeep, Hall. }
  split; [reflexivity|].
  unfold delete_sellin, si_window. cbn [fst].
  rewrite (proj2 (filter_nil_iff _ _)); [reflexivity|].
  intros r Hr. apply filter_In in Hr. destruct Hr as [_ Hr].
  apply negb_true_iff in Hr. exact Hr.
Qed.

(** ** Customer statuses: a second recompute *)

Lemma recompute_row_settled (today : Z) (cfg : status_config) (L : list SP_InventoryLedger.row)
    (db : customer_db) (t : status_tally) (row : Z * SP_Customer.row) :
  status_settled today cfg L db row ->
  recompute_row today cfg L (db, t) row
  = (db, mk_tally (PrimaryUpdated t) (TagsUpdated t)
           (SkippedDisabled t + (if is_disabled cfg row then 1 else 0))).
Proof.
  intros Hs. unfold recompute_row, is_disabled.
  destruct (Z.eqb_spec (SP_Customer.StatusID row.2) (sid_disabled cfg)) as [Hd|Hd];
    [reflexivity|].
  destruct Hs as [Hs|[Hp Ht]]; [contradiction|].
  rewrite <- Hp, Z.eqb_refl. cbn [negb].
  destruct (decide (tags_of (status_tags db) row.1 <> _)) as [Hne|_]; [contradiction|].
  destruct db, t. cbn. rewrite Z.add_0_r. reflexivity.
Qed.

Lemma recompute_fold_settled (today : Z) (cfg : status_config) (L : list SP_InventoryLedger.row)
    (db : customer_db) (rows : list (Z * SP_Customer.row)) :
  (forall row, In row rows -> status_settled today cfg L db row) ->
  forall t,
    fold_left (recompute_row today cfg L) rows (db, t)
    = (db, mk_tally (PrimaryUpdated t) (TagsUpdated t)
             (SkippedDisabled t + Z.of_nat (length (List.filter (is_disabled cfg) rows)))).
Proof.
  induction rows as [|row rows IH]; intros Hall t.
  - destruct t. cbn. rewrite Z.add_0_r. reflexivity.
  - cbn [fold_left]. rewrite (recompute_row_settled _ _ _ _ _ _ (Hall row (or_introl eq_refl))).
    rewrite (IH (fun r Hr => Hall r (or_intror Hr))).
    cbn [PrimaryUpdated TagsUpdated SkippedDisabled List.filter].
    destruct (is_disabled cfg row); cbn [length]; f_equal; f_equal; lia.
Qed.

(** After a recompute every customer is settled, and is Disabled exactly
    when it was. *)
Lemma recompute_settles (today : Z) (cfg : status_config) (L : list SP_InventoryLedger.row)
    (db : customer_db) :
  status_ids_ok cfg ->
  let db1 := fst (_recompute_customer_statuses today cfg L db) in
  forall cid c1,
    customers db1 !! cid = Some c1 ->
    status_settled today cfg L db1 (cid, c1)
    /\ exists c, customers db !! cid = Some c
                 /\ is_disabled cfg (cid, c1) = is_disabled cfg (cid, c).
Proof.
  intros Hids db1 cid c1 Hc1.
  destruct (recompute_fold today cfg L (map_to_list (customers db)) Hids) with
    (st := (db, mk_tally 0 0 0)) as (Ha & Hb & _).
  { apply NoDup_fst_map_to_list. }
  fold (_recompute_customer_statuses today cfg L db) in Ha, Hb. fold db1 in Ha, Hb.
  cbn [fst] in Ha, Hb.
  destruct (customers db !! cid) as [c|] eqn:Hc.
  2:{ destruct (Ha cid) as [Hx _].
      - intros Hin. apply in_map_iff in Hin. destruct Hin as ([k v] & Hk & Hin).
        cbn in Hk. subst k. apply list_elem_of_In, elem_of_map_to_list in Hin. congruence.
      - rewrite Hx, Hc in Hc1. discriminate. }
  assert (Hin : In (cid, c) (map_to_list (customers db))).
  { apply list_elem_of_In, elem_of_map_to_list. exact Hc. }
  specialize (Hb cid c Hin Hc). unfold status_settled, is_disabled. cbn [fst snd].
  destruct (Z.eqb_spec (SP_Customer.StatusID c) (sid_disabled cfg)) as [Hd|Hd].
  - destruct Hb as [Hb _]. rewrite Hb in Hc1. injection Hc1 as <-.
    split; [left; exact Hd|]. exists c. split; [reflexivity|].
    rewrite Hd, Z.eqb_refl. reflexivity.
  - destruct Hb as ((c' & Hc' & Hp) & Ht). rewrite Hc' in Hc1. injection Hc1 as <-.
    split; [right; split; assumption|]. exists c. split; [reflexivity|].
    destruct Hids as (_ & _ & _ & _ & Hda & Hdd).
    rewrite (proj2 (Z.eqb_neq _ _) Hd).
    destruct (Z.eqb_spec (SP_Customer.StatusID c') (sid_disabled cfg)) as [E|_];
      [|reflexivity].
    exfalso. rewrite Hp in E. unfold new_primary in E.
    destruct (_ && _); congruence.
Qed.

Lemma NoDup_fst_filter {A B : Type} (f : A * B -> bool) (l : list (A * B)) :
  NoDup (List.map fst l) -> NoDup (List.map fst (List.filter f l)).
Proof.
  induction l as [|x l IH]; intros Hnd; [exact Hnd|].
  cbn [List.map] in Hnd. apply NoDup_cons in Hnd as [Hx Hnd]. cbn [List.filter].
  destruct (f x); [|exact (IH Hnd)].
  cbn [List.map]. apply NoDup_cons. split; [|exact (IH Hnd)].
  intros Hin. apply Hx. apply list_elem_of_In in Hin. apply list_elem_of_In.
  apply in_map_iff in Hin. destruct Hin as (y & Hy & Hin). apply filter_In in Hin.
  apply in_map_iff. exists y. tauto.
Qed.

Lemma disabled_count_same (cfg : status_config) (m m1 : gmap Z SP_Customer.row) :
  (forall cid c1, m1 !! cid = Some c1 ->
     exists c, m !! cid = Some c /\ is_disabled cfg (cid, c1) = is_disabled cfg (cid, c)) ->
  (forall cid c, m !! cid = Some c ->
     exists c1, m1 !! cid = Some c1 /\ is_disabled cfg (cid, c1) = is_disabled cfg (cid, c)) ->
  length (List.filter (is_disabled cfg) (map_to_list m1))
  = length (List.filter (is_disabled cfg) (map_to_list m)).
Proof.
  intros H1 H2.
  rewrite <- (length_map fst (List.filter _ (map_to_list m1))).
  rewrite <- (length_map fst (List.filter _ (map_to_list m))).
  apply Permutation_length. apply NoDup_Permutation.
  - apply NoDup_fst_filter. apply NoDup_fst_map_to_list.
  - apply NoDup_fst_filter. apply NoDup_fst_map_to_list.
  - intros cid. rewrite !list_elem_of_In, !in_map_iff. split.
    + intros ([k c1] & Hk & Hin). cbn in Hk. subst k.
      apply filter_In in Hin. destruct Hin as [Hin Hd].
      apply list_elem_of_In, elem_of_map_to_list in Hin.
      destruct (H1 cid c1 Hin) as (c & Hc & Hsame).
      exists (cid, c). split; [reflexivity|]. apply filter_In.
      split; [apply list_elem_of_In, elem_of_map_to_list; exact Hc|congruence].
    + intros ([k c] & Hk & Hin). cbn in Hk. subst k.
      apply filter_In in Hin. destruct Hin as [Hin Hd].
      apply list_elem_of_In, elem_of_map_to_list in Hin.
      destruct (H2 cid c Hin) as (c1 & Hc1 & Hsame).
      exists (cid, c1). split; [reflexivity|]. apply filter_In.
      split; [apply list_elem_of_In, elem_of_map_to_list; exact Hc1|congruence].
Qed.

Lemma recompute_keeps_customers (today : Z) (cfg : status_config)
    (L : list SP_InventoryLedger.row) (db : customer_db) :
  status_ids_ok cfg ->
  let db1 := fst (_recompute_customer_statuses today cfg L db) in
  forall cid c,
    customers db !! cid = Some c ->
    exists c1, customers db1 !! cid = Some c1
               /\ is_disabled cfg (cid, c1) = is_disabled cfg (cid, c).
Proof.
  intros Hids db1 cid c Hc.
  destruct (recompute_fold today cfg L (map_to_list (customers db)) Hids) with
    (st := (db, mk_tally 0 0 0)) as (_ & Hb & _).
  { apply NoDup_fst_map_to_list. }
  fold (_recompute_customer_statuses today cfg L db) in Hb. fold db1 in Hb.
  cbn [fst] in Hb.
  assert (Hin : In (cid, c) (map_to_list (customers db))).
  { apply list_elem_of_In, elem_of_map_to_list. exact Hc. }
  specialize (Hb cid c Hin Hc).
  destruct (Z.eqb_spec (SP_Customer.StatusID c) (sid_disabled cfg)) as [Hd|Hd].
  - destruct Hb as [Hb _]. exists c. split; [exact Hb|reflexivity].
  - destruct Hb as ((c' & Hc' & _) & _). exists c'. split; [exact Hc'|].
    destruct (recompute_settles today cfg L db Hids cid c' Hc') as (_ & c0 & Hc0 & Hsame).
    rewrite Hc in Hc0. injection Hc0 as <-. exact Hsame.
Qed.

(** X18.  The recompute of the customer statuses is idempotent: run again
    on the same day over the same ledger, it changes no status and no tag,
    and its tally shows no update and the same number of Disabled customers
    skipped. *)
Theorem recompute_statuses_is_idempotent (today : Z) (cfg : status_config)
    (L : list SP_InventoryLedger.row) (db : customer_db) :
  status_ids_ok cfg ->
  let first := _recompute_customer_statuses today cfg L db in
  _recompute_customer_statuses today cfg L (fst first)
  = (fst first, mk_tally 0 0 (SkippedDisabled (snd first))).
Proof.
  intros Hids first.
  assert (Hskip : SkippedDisabled (snd first)
                  = Z.of_nat (length (List.filter (is_disabled cfg)
                                        (map_to_list (customers db))))).
  { destruct (recompute_fold today cfg L (map_to_list (customers db)) Hids) with
      (st := (db, mk_tally 0 0 0)) as (_ & _ & Hc).
    { apply NoDup_fst_map_to_list. }
    exact Hc. }
  unfold _recompute_customer_statuses at 1.
  rewrite recompute_fold_settled.
  - cbn [PrimaryUpdated TagsUpdated SkippedDisabled]. rewrite Hskip. f_equal. f_equal.
    rewrite Z.add_0_l. f_equal.
    apply disabled_count_same.
    + intros cid c1 Hc1.
      destruct (recompute_settles today cfg L db Hids cid c1 Hc1) as [_ H]. exact H.
    + apply recompute_keeps_customers. exact Hids.
  - intros [cid c1] Hin. apply list_elem_of_In, elem_of_map_to_list in Hin.
    destruct (recompute_settles today cfg L db Hids cid c1 Hin) as [H _]. exact H.
Qed.

Lemma recompute_statuses_is_idempotent_witness :
  status_ids_ok status_cfg
  /\ _recompute_customer_statuses 1000 status_cfg status_ledger
       (fst (_recompute_customer_statuses 1000 status_cfg status_ledger status_db))
     = (fst (_recompute_customer_statuses 1000 status_cfg status_ledger status_db),
        mk_tally 0 0
          (SkippedDisabled (snd (_recompute_customer_statuses 1000 status_cfg status_ledger
                                   status_db)))).
Proof.
  assert (H : status_ids_ok status_cfg) by (unfold status_ids_ok, status_cfg; cbn; lia).
  split; [exact H|].
  exact (recompute_statuses_is_idempotent 1000 status_cfg status_ledger status_db H).
Defined.

(** ** The ids of the five statuses *)

Lemma next_StatusID_above (T : list SP_Status.row) (s : SP_Status.row) :
  In s T -> SP_Status.StatusID s < next_StatusID T.
Proof.
  unfold next_StatusID. induction T as [|x T IH]; [intros []|].
  intros [->|Hin]; cbn [List.map fold_right]; [lia|]. specialize (IH Hin). lia.
Qed.

Lemma next_StatusID_pos (T : list SP_Status.row) : 0 < next_StatusID T.
Proof.
  unfold next_StatusID. induction T as [|x T IH]; cbn [List.map fold_right]; lia.
Qed.

Lemma find_app_l {A : Type} (f : A -> bool) (l l' : list A) (x : A) :
  List.find f l = Some x -> List.find f (l ++ l') = Some x.
Proof.
  induction l as [|y l IH]; [discriminate|]. cbn [List.find app].
  destruct (f y); [auto|exact IH].
Qed.

Lemma find_app_r {A : Type} (f : A -> bool) (l l' : list A) :
  List.find f l = None -> List.find f (l ++ l') = List.find f l'.
Proof.
  induction l as [|y l IH]; [reflexivity|]. cbn [List.find app].
  destruct (f y); [discriminate|exact IH].
Qed.

Lemma get_status_id_spec (T : list SP_Status.row) (name : string) :
  status_table_ok T ->
  let T' := fst (_get_status_id T name) in
  let id := snd (_get_status_id T name) in
  status_table_ok T'
  /\ (exists new, T' = T ++ new)
  /\ status_named T' name id
  /\ (forall name' id', status_named T name' id' -> status_named T' name' id')
  /\ (status_named T name id -> T' = T).
Proof.
  intros [Hnd Hpos]. unfold _get_status_id, status_named.
  destruct (List.find _ T) as [s|] eqn:E; cbn [fst snd].
  - split; [split; assumption|]. split; [exists []; symmetry; apply app_nil_r|].
    split; [exists s; auto|]. auto.
  - split.
    { split.
      - rewrite List.map_app. cbn [List.map]. apply NoDup_app. split; [exact Hnd|].
        split; [|apply NoDup_singleton].
        intros x Hx Hx'. apply list_elem_of_In in Hx, Hx'. destruct Hx' as [<-|[]].
        apply in_map_iff in Hx. destruct Hx as (s & Hs & Hin).
        cbn [SP_Status.StatusID] in Hs.
        pose proof (next_StatusID_above T s Hin). lia.
      - apply List.Forall_app. split; [exact Hpos|].
        constructor; [apply next_StatusID_pos|constructor]. }
    split; [eexists; reflexivity|].
    split.
    { exists (SP_Status.mk (next_StatusID T) name). split; [|reflexivity].
      rewrite (find_app_r _ _ _ E). cbn [List.find SP_Status.StatusName].
      rewrite String.eqb_refl. reflexivity. }
    split.
    { intros name' id' (s & Hs & Hid). exists s. split; [|exact Hid].
      apply find_app_l. exact Hs. }
    intros (s & Hs & _). discriminate.
Qed.

Lemma status_named_In (T : list SP_Status.row) (name : string) (id : Z) :
  status_named T name id ->
  exists s, In s T /\ SP_Status.StatusName s = name /\ SP_Status.StatusID s = id.
Proof.
  intros (s & Hs & Hid). apply find_some in Hs. destruct Hs as [Hin Hn].
  apply String.eqb_eq in Hn. exists s. auto.
Qed.

Lemma NoDup_map_inj_In {A B : Type} (f : A -> B) (l : list A) (x y : A) :
  NoDup (List.map f l) -> In x l -> In y l -> f x = f y -> x = y.
Proof.
  induction l as [|z l IH]; [intros _ []|].
  cbn [List.map]. intros Hnd. apply NoDup_cons in Hnd as [Hz Hnd].
  rewrite list_elem_of_In in Hz.
  intros [->|Hx] [->|Hy] Heq; try reflexivity.
  - exfalso. apply Hz. rewrite Heq. apply in_map. exact Hy.
  - exfalso. apply Hz. rewrite <- Heq. apply in_map. exact Hx.
  - exact (IH Hnd Hx Hy Heq).
Qed.

Lemma status_named_differ (T : list SP_Status.row) (n1 n2 : string) (i1 i2 : Z) :
  status_table_ok T -> status_named T n1 i1 -> status_named T n2 i2 ->
  n1 <> n2 -> i1 <> i2.
Proof.
  intros [Hnd _] H1 H2 Hne Heq.
  destruct (status_named_In _ _ _ H1) as (s1 & Hin1 & Hn1 & Hi1).
  destruct (status_named_In _ _ _ H2) as (s2 & Hin2 & Hn2 & Hi2).
  assert (s1 = s2); [|subst; congruence].
  apply (NoDup_map_inj_In SP_Status.StatusID T s1 s2 Hnd); [assumption..|congruence].
Qed.

Lemma status_named_pos (T : list SP_Status.row) (n : string) (i : Z) :
  status_table_ok T -> status_named T n i -> 0 < i.
Proof.
  intros [_ Hpos] H. destruct (status_named_In _ _ _ H) as (s & Hin & _ & <-).
  rewrite List.Forall_forall in Hpos. exact (Hpos s Hin).
Qed.

Lemma get_status_id_named (T : list SP_Status.row) (name : string) (id : Z) :
  status_named T name id -> _get_status_id T name = (T, id).
Proof.
  intros (s & Hs & <-). unfold _get_status_id. rewrite Hs. reflexivity.
Qed.

(** X19.  The five status ids that the recompute works with are positive
    and differ from one another, whatever SP_Status held before: a status
    that is missing is created once, at the end of the table, and looking
    the five up again creates nothing and gives the same ids. *)
Theorem recompute_config_ids_ok (dead hib_in hib_out : Z) (T : list SP_Status.row) :
  status_table_ok T ->
  let res := recompute_config dead hib_in hib_out T in
  status_ids_ok (snd res)
  /\ 0 < sid_active (snd res) /\ 0 < sid_dead (snd res) /\ 0 < sid_disabled (snd res)
  /\ status_table_ok (fst res)
  /\ (exists new, fst res = T ++ new)
  /\ recompute_config dead hib_in hib_out (fst res) = res.
Proof.
  intros H0 res. subst res. unfold recompute_config.
  pose proof (get_status_id_spec T "Active" H0) as S1. cbn zeta in S1.
  destruct (_get_status_id T "Active") as [T1 a]. cbn [fst snd] in S1.
  destruct S1 as (H1 & (n1 & E1) & N1 & M1 & _).
  pose proof (get_status_id_spec T1 "DEAD" H1) as S2. cbn zeta in S2.
  destruct (_get_status_id T1 "DEAD") as [T2 d]. cbn [fst snd] in S2.
  destruct S2 as (H2 & (n2 & E2) & N2 & M2 & _).
  pose proof (get_status_id_spec T2 "Disabled" H2) as S3. cbn zeta in S3.
  destruct (_get_status_id T2 "Disabled") as [T3 x]. cbn [fst snd] in S3.
  destruct S3 as (H3 & (n3 & E3) & N3 & M3 & _).
  pose proof (get_status_id_spec T3 "Hibernating-Sell-in" H3) as S4. cbn zeta in S4.
  destruct (_get_status_id T3 "Hibernating-Sell-in") as [T4 i]. cbn [fst snd] in S4.
  destruct S4 as (H4 & (n4 & E4) & N4 & M4 & _).
  pose proof (get_status_id_spec T4 "Hibernating-Sell-out" H4) as S5. cbn zeta in S5.
  destruct (_get_status_id T4 "Hibernating-Sell-out") as [T5 o]. cbn [fst snd] in S5.
  destruct S5 as (H5 & (n5 & E5) & N5 & M5 & _).
  assert (A5 : status_named T5 "Active" a) by (apply M5, M4, M3, M2, N1).
  assert (D5 : status_named T5 "DEAD" d) by (apply M5, M4, M3, N2).
  assert (X5 : status_named T5 "Disabled" x) by (apply M5, M4, N3).
  assert (I5 : status_named T5 "Hibernating-Sell-in" i) by (apply M5, N4).
  cbn [fst snd].
  split.
  { unfold status_ids_ok. cbn [tag_in tag_out sid_active sid_dead sid_disabled].
    split; [exact (status_named_pos _ _ _ H5 I5)|].
    split; [exact (status_named_pos _ _ _ H5 N5)|].
    split; [apply (status_named_differ T5 _ _ _ _ H5 I5 N5); discriminate|].
    split; [apply (status_named_differ T5 _ _ _ _ H5 A5 D5); discriminate|].
    split; [apply (status_named_differ T5 _ _ _ _ H5 X5 A5); discriminate|].
    apply (status_named_differ T5 _ _ _ _ H5 X5 D5); discriminate. }
  cbn [sid_active sid_dead sid_disabled].
  split; [exact (status_named_pos _ _ _ H5 A5)|].
  split; [exact (status_named_pos _ _ _ H5 D5)|].
  split; [exact (status_named_pos _ _ _ H5 X5)|].
  split; [exact H5|].
  split.
  { exists (n1 ++ n2 ++ n3 ++ n4 ++ n5). subst T5 T4 T3 T2 T1.
    rewrite <- !app_assoc. reflexivity. }
  rewrite (get_status_id_named _ _ _ A5), (get_status_id_named _ _ _ D5),
    (get_status_id_named _ _ _ X5), (get_status_id_named _ _ _ I5),
    (get_status_id_named _ _ _ N5). reflexivity.
Qed.

Lemma recompute_config_ids_ok_witness :
  status_table_ok [SP_Status.mk 1 "Active"; SP_Status.mk 2 "DEAD"]
  /\ status_ids_ok
       (snd (recompute_config 90 30 30 [SP_Status.mk 1 "Active"; SP_Status.mk 2 "DEAD"])).
Proof.
  assert (H : status_table_ok [SP_Status.mk 1 "Active"; SP_Status.mk 2 "DEAD"]).
  { split; [|repeat constructor].
    cbn [List.map SP_Status.StatusID].
    apply NoDup_cons_2; [|apply NoDup_singleton].
    intros Hin. apply list_elem_of_In in Hin. destruct Hin as [Hin|[]]. lia. }
  split; [exact H|].
  exact (proj1 (recompute_config_ids_ok 90 30 30 _ H)).
Defined.

(** ** The customer hierarchy *)

Lemma is_ho_insert (H : gmap Z SP_CustomerNode.row) (c : Z) (r : SP_CustomerNode.row)
    (p : option Z) (x : Z) :
  H !! c = Some r ->
  _is_ho (<[c := SP_CustomerNode.mk (SP_CustomerNode.LevelType r) p]> H) x = _is_ho H x.
Proof.
  intros Hc. unfold _is_ho. destruct (decide (x = c)) as [->|Hne].
  - rewrite lookup_insert_eq, Hc. reflexivity.
  - rewrite lookup_insert_ne by congruence. reflexivity.
Qed.

(** X20.  [set_parent] keeps the hierarchy sound: when every parent is an
    HO customer and no customer is its own parent, both still hold after
    the call, whatever it is asked.  Only the child is changed; it gets the
    parent asked for, or none for null, when the answer is 200, and nothing
    changes otherwise. *)
Theorem set_parent_keeps_hierarchy (H : gmap Z SP_CustomerNode.row) (child_id : Z)
    (parent_id : option Z) :
  parents_are_HO H -> no_self_parent H ->
  let H' := fst (set_parent H child_id parent_id) in
  parents_are_HO H'
  /\ no_self_parent H'
  /\ (forall c, c <> child_id -> H' !! c = H !! c)
  /\ (snd (set_parent H child_id parent_id) = TreeOk None ->
      exists r, H !! child_id = Some r
                /\ H' !! child_id = Some (SP_CustomerNode.mk (SP_CustomerNode.LevelType r)
                                            parent_id))
  /\ (snd (set_parent H child_id parent_id) <> TreeOk None -> H' = H).
Proof.
  intros Hho Hself H'. subst H'. unfold set_parent.
  assert (Hsame : parents_are_HO H /\ no_self_parent H
                  /\ (forall c, c <> child_id -> H !! c = H !! c)) by auto.
  destruct (H !! child_id) as [child|] eqn:Hc; cbn [fst snd].
  2:{ destruct Hsame as (A & B & C). repeat split; auto. discriminate. }
  destruct parent_id as [p|].
  - destruct (Z.eqb_spec p child_id) as [->|Hne]; cbn [fst snd].
    { destruct Hsame as (A & B & C). repeat split; auto. discriminate. }
    destruct (_is_ho H p) eqn:Hp; cbn [negb fst snd].
    2:{ destruct Hsame as (A & B & C). repeat split; auto. discriminate. }
    split.
    { intros c r q Hr Hq. rewrite (is_ho_insert H child_id child (Some p) q Hc).
      destruct (decide (c = child_id)) as [->|Hcc].
      - rewrite lookup_insert_eq in Hr. injection Hr as <-. cbn in Hq.
        injection Hq as <-. exact Hp.
      - rewrite lookup_insert_ne in Hr by congruence. exact (Hho c r q Hr Hq). }
    split.
    { intros c r Hr. destruct (decide (c = child_id)) as [->|Hcc].
      - rewrite lookup_insert_eq in Hr. injection Hr as <-. cbn. congruence.
      - rewrite lookup_insert_ne in Hr by congruence. exact (Hself c r Hr). }
    split; [intros c Hcc; apply lookup_insert_ne; congruence|].
    split; [intros _; exists child; split; [reflexivity|apply lookup_insert_eq]|].
    intros Hx. exfalso. apply Hx. reflexivity.
  - cbn [fst snd]. split.
    { intros c r q Hr Hq. rewrite (is_ho_insert H child_id child None q Hc).
      destruct (decide (c = child_id)) as [->|Hcc].
      - rewrite lookup_insert_eq in Hr. injection Hr as <-. discriminate.
      - rewrite lookup_insert_ne in Hr by congruence. exact (Hho c r q Hr Hq). }
    split.
    { intros c r Hr. destruct (decide (c = child_id)) as [->|Hcc].
      - rewrite lookup_insert_eq in Hr. injection Hr as <-. discriminate.
      - rewrite lookup_insert_ne in Hr by congruence. exact (Hself c r Hr). }
    split; [intros c Hcc; apply lookup_insert_ne; congruence|].
    split; [intros _; exists child; split; [reflexivity|apply lookup_insert_eq]|].
    intros Hx. exfalso. apply Hx. reflexivity.
Qed.

Lemma set_parent_keeps_hierarchy_witness :
  parents_are_HO sample_tree /\ no_self_parent sample_tree
  /\ parents_are_HO (fst (set_parent sample_tree 2 (Some 4)))
  /\ no_self_parent (fst (set_parent sample_tree 2 (Some 4))).
Proof.
  assert (A : parents_are_HO sample_tree).
  { intros c r p Hr Hp. unfold sample_tree in Hr.
    repeat (apply lookup_insert_Some in Hr as [[<- <-]|[_ Hr]];
            [cbn in Hp; try discriminate; injection Hp as <-; reflexivity|]).
    rewrite lookup_empty in Hr. discriminate. }
  assert (B : no_self_parent sample_tree).
  { intros c r Hr. unfold sample_tree in Hr.
    repeat (apply lookup_insert_Some in Hr as [[<- <-]|[_ Hr]]; [cbn; congruence|]).
    rewrite lookup_empty in Hr. discriminate. }
  split; [exact A|]. split; [exact B|].
  destruct (set_parent_keeps_hierarchy sample_tree 2 (Some 4) A B) as (C & D & _).
  split; [exact C|exact D].
Defined.

Lemma is_ho_reparent (H : gmap Z SP_CustomerNode.row) (old_pid new_pid x : Z) :
  _is_ho (fmap (fun r => if child_of old_pid r
                         then SP_CustomerNode.mk (SP_CustomerNode.LevelType r) (Some new_pid)
                         else r) H) x
  = _is_ho H x.
Proof.
  unfold _is_ho. rewrite lookup_fmap. destruct (H !! x) as [r|]; [|reflexivity].
  cbn. destruct (child_of old_pid r); reflexivity.
Qed.

(** X21.  [reparent_children] answers 400 and changes nothing unless both
    ids are given, differ and are HO customers.  Otherwise every child of
    the old parent, and no other customer, moves to the new parent, their
    number is the answer, the old parent is left without children, and
    every parent is still an HO customer.  A customer can end as its own
    parent: this happens exactly when the new parent was a child of the old
    one. *)
Theorem reparent_children_moves_children (H : gmap Z SP_CustomerNode.row)
    (old_parent_id new_parent_id : option Z) :
  parents_are_HO H -> no_self_parent H ->
  let H' := fst (reparent_children H old_parent_id new_parent_id) in
  let old_pid := coalesce old_parent_id 0 in
  let new_pid := coalesce new_parent_id 0 in
  parents_are_HO H'
  /\ ((truthy old_parent_id && truthy new_parent_id = false
       \/ old_pid = new_pid \/ _is_ho H old_pid = false \/ _is_ho H new_pid = false) ->
      H' = H
      /\ exists e, snd (reparent_children H old_parent_id new_parent_id) = TreeBadRequest e)
  /\ (truthy old_parent_id && truthy new_parent_id = true ->
      old_pid <> new_pid -> _is_ho H old_pid = true -> _is_ho H new_pid = true ->
      snd (reparent_children H old_parent_id new_parent_id)
      = TreeOk (Some (Z.of_nat (length (List.filter (fun kr => child_of old_pid kr.2)
                                          (map_to_list H)))))
      /\ (forall c r, H !! c = Some r ->
             H' !! c = Some (if child_of old_pid r
                             then SP_CustomerNode.mk (SP_CustomerNode.LevelType r)
                                    (Some new_pid)
                             else r))
      /\ (forall c, H !! c = None -> H' !! c = None)
      /\ (forall c r, H' !! c = Some r -> SP_CustomerNode.ParentCustID r <> Some old_pid)
      /\ (no_self_parent H'
          <-> ~ exists r, H !! new_pid = Some r
                          /\ SP_CustomerNode.ParentCustID r = Some old_pid)).
Proof.
  intros Hho Hself H' old_pid new_pid. subst H'. unfold reparent_children.
  fold old_pid new_pid.
  destruct (truthy old_parent_id && truthy new_parent_id) eqn:Et; cbn [negb fst snd].
  2:{ split; [exact Hho|]. split; [intros _; split; [reflexivity|eexists; reflexivity]|].
      discriminate. }
  destruct (Z.eqb_spec old_pid new_pid) as [Heq|Hne]; cbn [fst snd].
  { split; [exact Hho|]. split; [intros _; split; [reflexivity|eexists; reflexivity]|].
    intros _ Hx. contradiction. }
  destruct (_is_ho H old_pid) eqn:Eo; cbn [negb orb fst snd].
  2:{ split; [exact Hho|]. split; [intros _; split; [reflexivity|eexists; reflexivity]|].
      discriminate. }
  destruct (_is_ho H new_pid) eqn:En; cbn [negb orb fst snd].
  2:{ split; [exact Hho|]. split; [intros _; split; [reflexivity|eexists; reflexivity]|].
      discriminate. }
  set (f := fun r => if child_of old_pid r
                     then SP_CustomerNode.mk (SP_CustomerNode.LevelType r) (Some new_pid)
                     else r).
  assert (Hlook : forall c r, H !! c = Some r -> (f <$> H) !! c = Some (f r)).
  { intros c r Hr. rewrite lookup_fmap, Hr. reflexivity. }
  assert (Hback : forall c r', (f <$> H) !! c = Some r' ->
                    exists r, H !! c = Some r /\ r' = f r).
  { intros c r' Hr'. rewrite lookup_fmap in Hr'. destruct (H !! c) as [r|]; [|discriminate].
    injection Hr' as <-. exists r. auto. }
  split.
  { intros c r' p Hr' Hp. unfold f. rewrite is_ho_reparent.
    destruct (Hback c r' Hr') as (r & Hr & ->). unfold f in Hp.
    destruct (child_of old_pid r).
    - cbn in Hp. injection Hp as <-. exact En.
    - exact (Hho c r p Hr Hp). }
  split.
  { intros [Hx|[Hx|[Hx|Hx]]]; congruence. }
  intros _ _ _ _. split; [reflexivity|]. split; [exact Hlook|].
  split; [intros c Hc; rewrite lookup_fmap, Hc; reflexivity|].
  split.
  { intros c r' Hr'. destruct (Hback c r' Hr') as (r & Hr & ->). unfold f, child_of.
    destruct (bool_decide_reflect (SP_CustomerNode.ParentCustID r = Some old_pid)) as [E|E].
    - cbn. congruence.
    - exact E. }
  split.
  - intros Hself' (r & Hr & Hp). apply (Hself' new_pid (f r) (Hlook _ _ Hr)).
    unfold f, child_of. rewrite bool_decide_eq_true_2 by exact Hp. reflexivity.
  - intros Hno c r' Hr'. destruct (Hback c r' Hr') as (r & Hr & ->). unfold f, child_of.
    destruct (bool_decide_reflect (SP_CustomerNode.ParentCustID r = Some old_pid)) as [E|E].
    + cbn. intros [= <-]. apply Hno. exists r. auto.
    + exact (Hself c r Hr).
Qed.

Lemma reparent_children_moves_children_witness :
  parents_are_HO sample_tree /\ no_self_parent sample_tree
  /\ parents_are_HO (fst (reparent_children sample_tree (Some 1) (Some 4)))
  /\ ~ no_self_parent (fst (reparent_children sample_tree (Some 1) (Some 4))).
Proof.
  assert (A : parents_are_HO sample_tree).
  { intros c r p Hr Hp. unfold sample_tree in Hr.
    repeat (apply lookup_insert_Some in Hr as [[<- <-]|[_ Hr]];
            [cbn in Hp; try discriminate; injection Hp as <-; reflexivity|]).
    rewrite lookup_empty in Hr. discriminate. }
  assert (B : no_self_parent sample_tree).
  { intros c r Hr. unfold sample_tree in Hr.
    repeat (apply lookup_insert_Some in Hr as [[<- <-]|[_ Hr]]; [cbn; congruence|]).
    rewrite lookup_empty in Hr. discriminate. }
  split; [exact A|]. split; [exact B|].
  destruct (reparent_children_moves_children sample_tree (Some 1) (Some 4) A B)
    as (C & _ & D).
  split; [exact C|].
  destruct (D eq_refl ltac:(cbn; lia) eq_refl eq_refl) as (_ & _ & _ & _ & E).
  intros Hs. apply (proj1 E Hs). exists (SP_CustomerNode.mk "HO" (Some 1)).
  split; reflexivity.
Defined.

(** ** SOH upload: one brand of the file *)

Lemma next_SOHUploadID_above (U : list SP_SOH_Uploads.row) (h : SP_SOH_Uploads.row) :
  In h U -> SP_SOH_Uploads.SOHUploadID h < next_SOHUploadID U.
Proof.
  unfold next_SOHUploadID. induction U as [|x U IH]; [intros []|].
  intros [->|Hin]; cbn [List.map fold_right]; [lia|]. specialize (IH Hin). lia.
Qed.

Lemma col_eq_str_Some (col : option string) (b : string) :
  col_eq_str col (Some b) = true <-> col = Some b.
Proof.
  unfold col_eq_str. destruct col as [x|]; [|split; discriminate].
  rewrite String.eqb_eq. split; congruence.
Qed.

(** After step 2a no active detail of the customer, the brand and the date
    is left, so the quantity read back is 0. *)
Lemma prior_qty_is_zero (db : soh_db) (c d : Z) (brand : string) (sku : Z) :
  soh_consistent db ->
  let ids := List.map SP_SOH_Uploads.SOHUploadID
               (List.filter (prior_header c d brand) (soh_uploads db)) in
  _get_prior_active_qty_for_day
    (List.map (fun r => if prior_detail ids d r then deactivate r else r) (soh_details db))
    c (Some brand) sku d = 0%Q.
Proof.
  intros Hcons ids. unfold _get_prior_active_qty_for_day.
  match goal with
  | |- match first_by _ ?q with _ => _ end = _ => assert (Hq : q = [])
  end.
  2:{ rewrite Hq. reflexivity. }
  apply filter_nil_iff. intros r Hr. apply filter_In in Hr. destruct Hr as [Hr Hact].
  apply in_map_iff in Hr. destruct Hr as (r0 & <- & Hr0).
  destruct (col_eq_str _ (Some brand)) eqn:Eb; [exfalso|reflexivity].
  apply col_eq_str_Some in Eb.
  destruct (prior_detail ids d r0) eqn:Ep.
  { cbn in Hact. rewrite !andb_false_r in Hact. discriminate. }
  apply andb_true_iff in Hact. destruct Hact as [Hact Ha].
  apply andb_true_iff in Hact. destruct Hact as [Hact Hd].
  apply andb_true_iff in Hact. destruct Hact as [Hc Hs].
  apply Z.eqb_eq in Hc, Hd.
  destruct (Hcons r0 Hr0) as (h & Hh & Hid & Hhc & Hhb & Hhd).
  assert (Hprior : prior_header c d brand h = true).
  { unfold prior_header. rewrite Hhc, Hhd, Hhb, Hc, Hd, !Z.eqb_refl.
    apply col_eq_str_Some. exact Eb. }
  unfold prior_detail in Ep. rewrite Hd, Z.eqb_refl, Ha, !andb_true_r in Ep.
  assert (Hex : existsb (Z.eqb (SP_SOH_Detail.SOHUploadID r0)) ids = true).
  { apply existsb_exists. exists (SP_SOH_Uploads.SOHUploadID h). split.
    - unfold ids. apply in_map. apply filter_In. auto.
    - rewrite Hid. apply Z.eqb_refl. }
  congruence.
Qed.

Lemma soh_ledger_fold (c d hdr : Z) (mt : string) (old : soh_record -> Q)
    (records : list soh_record) :
  (forall rec, In rec records -> old rec = 0%Q) ->
  forall L,
  exists new,
    fold_left (fun L rec => _post_ledger_adjust L c (rec_SKU_ID rec) d (rec_SOHQty rec)
                              (old rec) hdr (rec_RowNumber rec) mt) records L
    = L ++ new
    /\ Forall2 (fun rec l => SP_InventoryLedger.CustomerID l = c
                             /\ SP_InventoryLedger.SKU_ID l = rec_SKU_ID rec
                             /\ SP_InventoryLedger.DocDate l = d
                             /\ SP_InventoryLedger.MovementType l = mt
                             /\ (SP_InventoryLedger.Qty l == rec_SOHQty rec)%Q) records new.
Proof.
  induction records as [|rec records IH]; intros Hold L.
  - exists []. split; [symmetry; apply app_nil_r|constructor].
  - cbn [fold_left].
    destruct (IH (fun r Hr => Hold r (or_intror Hr))
                (_post_ledger_adjust L c (rec_SKU_ID rec) d (rec_SOHQty rec) (old rec) hdr
                   (rec_RowNumber rec) mt)) as (new & -> & Hall).
    unfold _post_ledger_adjust at 1. unfold ledger_insert. rewrite <- app_assoc.
    eexists. split; [reflexivity|]. constructor; [|exact Hall].
    cbn. rewrite (Hold rec (or_introl eq_refl)). repeat split. ring.
Qed.

(** X22.  One brand of an SOH upload, on tables where every detail is dated
    as its header: each record posts one ledger row of the movement type of
    the upload whose quantity is the quantity of the file, never a
    difference to the snapshot it replaces, because the details of the
    earlier headers are deactivated before the previous quantity is read;
    this holds for a Supersede upload as for an Initial one.  Afterwards the
    only active details of the customer, the brand and the date are those
    of the new header, and every detail is still dated as its header. *)
Theorem soh_upload_posts_full_quantity (customer_id : Z) (snapshot_type : string)
    (the_date : Z) (movement_type : string) (db : soh_db) (brand : string)
    (brand_records : list soh_record) :
  soh_consistent db ->
  let db' := fst (soh_brand_turn customer_id snapshot_type the_date movement_type db brand
                    brand_records) in
  (exists new,
     soh_ledger db' = soh_ledger db ++ new
     /\ Forall2 (fun rec l => SP_InventoryLedger.CustomerID l = customer_id
                              /\ SP_InventoryLedger.SKU_ID l = rec_SKU_ID rec
                              /\ SP_InventoryLedger.DocDate l = the_date
                              /\ SP_InventoryLedger.MovementType l = movement_type
                              /\ (SP_InventoryLedger.Qty l == rec_SOHQty rec)%Q)
          brand_records new)
  /\ soh_consistent db'
  /\ (brand_records <> [] ->
      forall r, In r (soh_details db') ->
        SP_SOH_Detail.CustomerID r = customer_id ->
        SP_SOH_Detail.Brand r = Some brand ->
        SP_SOH_Detail.SOHDate r = the_date ->
        SP_SOH_Detail.IsActive r = true ->
        Some (SP_SOH_Detail.SOHUploadID r)
        = turn_hdr_id (snd (soh_brand_turn customer_id snapshot_type the_date movement_type
                              db brand brand_records))
        /\ exists rec, In rec brand_records
                       /\ SP_SOH_Detail.SKU_ID r = rec_SKU_ID rec
                       /\ SP_SOH_Detail.SOHQty r = rec_SOHQty rec).
Proof.
  intros Hcons db'. subst db'. unfold soh_brand_turn.
  destruct brand_records as [|rec0 recs].
  { cbn [fst snd]. split; [exists []; split; [symmetry; apply app_nil_r|constructor]|].
    split; [exact Hcons|]. intros H. contradiction. }
  set (records := rec0 :: recs).
  set (ids := List.map SP_SOH_Uploads.SOHUploadID
                (List.filter (prior_header customer_id the_date brand) (soh_uploads db))).
  set (hdr := next_SOHUploadID (soh_uploads db)).
  cbn [fst snd soh_ledger soh_details soh_uploads turn_hdr_id].
  split.
  { apply (soh_ledger_fold customer_id the_date hdr movement_type
             (fun rec => _get_prior_active_qty_for_day
                           (List.map (fun r => if prior_detail ids the_date r
                                               then deactivate r else r) (soh_details db))
                           customer_id (Some brand) (rec_SKU_ID rec) the_date)).
    intros rec _. apply prior_qty_is_zero. exact Hcons. }
  split.
  { intros r Hr. cbn [soh_details soh_uploads] in *. apply in_app_or in Hr.
    destruct Hr as [Hr|Hr].
    - apply in_map_iff in Hr. destruct Hr as (r0 & <- & Hr0).
      destruct (Hcons r0 Hr0) as (h & Hh & Hid & Hc & Hb & Hd).
      exists (if prior_header customer_id the_date brand h then supersede hdr h else h).
      split.
      { apply in_or_app. left.
        apply (in_map (fun h => if prior_header customer_id the_date brand h
                                then supersede hdr h else h)). exact Hh. }
      destruct (prior_header customer_id the_date brand h),
               (prior_detail ids the_date r0); cbn; auto.
    - apply in_map_iff in Hr. destruct Hr as (rec & <- & Hrec).
      eexists. split; [apply in_or_app; right; left; reflexivity|]. cbn. auto. }
  intros _ r Hr Hc Hb Hd Ha. apply in_app_or in Hr. destruct Hr as [Hr|Hr].
  - exfalso. apply in_map_iff in Hr. destruct Hr as (r0 & <- & Hr0).
    destruct (prior_detail ids the_date r0) eqn:Ep; [cbn in Ha; discriminate|].
    destruct (Hcons r0 Hr0) as (h & Hh & Hid & Hhc & Hhb & Hhd).
    assert (Hprior : prior_header customer_id the_date brand h = true).
    { unfold prior_header. rewrite Hhc, Hhd, Hhb, Hc, Hd, !Z.eqb_refl.
      apply col_eq_str_Some. exact Hb. }
    unfold prior_detail in Ep. rewrite Hd, Z.eqb_refl, Ha, !andb_true_r in Ep.
    assert (Hex : existsb (Z.eqb (SP_SOH_Detail.SOHUploadID r0)) ids = true).
    { apply existsb_exists. exists (SP_SOH_Uploads.SOHUploadID h). split.
      - unfold ids. apply in_map. apply filter_In. auto.
      - rewrite Hid. apply Z.eqb_refl. }
    congruence.
  - apply in_map_iff in Hr. destruct Hr as (rec & <- & Hrec). cbn.
    split; [reflexivity|]. exists rec. auto.
Qed.

Lemma soh_upload_posts_full_quantity_witness :
  soh_consistent sample_soh_db
  /\ exists new,
       soh_ledger (fst (soh_brand_turn 7 "Supersede" 5 "SUPERCEED" sample_soh_db "B"
                          [mk_soh_record 3 15 1]))
       = soh_ledger sample_soh_db ++ new
       /\ Forall2 (fun rec l => SP_InventoryLedger.CustomerID l = 7
                                /\ SP_InventoryLedger.SKU_ID l = rec_SKU_ID rec
                                /\ SP_InventoryLedger.DocDate l = 5
                                /\ SP_InventoryLedger.MovementType l = "SUPERCEED"%string
                                /\ (SP_InventoryLedger.Qty l == rec_SOHQty rec)%Q)
            [mk_soh_record 3 15 1] new.
Proof.
  assert (H : soh_consistent sample_soh_db).
  { intros r [<-|[<-|[]]].
    - eexists. split; [left; reflexivity|]. cbn. auto.
    - eexists. split; [right; left; reflexivity|]. cbn. auto. }
  split; [exact H|].
  exact (proj1 (soh_upload_posts_full_quantity 7 "Supersede" 5 "SUPERCEED" sample_soh_db "B"
                  [mk_soh_record 3 15 1] H)).
Defined.

Lemma soh_turn_details (customer_id : Z) (snapshot_type : string) (the_date : Z)
    (movement_type : string) (db : soh_db) (brand : string) (rec0 : soh_record)
    (recs : list soh_record) :
  soh_consistent db ->
  let db' := fst (soh_brand_turn customer_id snapshot_type the_date movement_type db brand
                    (rec0 :: recs)) in
  let hdr := next_SOHUploadID (soh_uploads db) in
  forall r, In r (soh_details db') ->
    (SP_SOH_Detail.SOHUploadID r < hdr)
    \/ exists rec, In rec (rec0 :: recs)
                   /\ r = SP_SOH_Detail.mk hdr customer_id (Some brand) (rec_SKU_ID rec)
                            (rec_RowNumber rec) the_date (rec_SOHQty rec) true.
Proof.
  intros Hcons db' hdr r Hr. subst db'. unfold soh_brand_turn in Hr.
  cbn [fst soh_details] in Hr. apply in_app_or in Hr. destruct Hr as [Hr|Hr].
  - left. apply in_map_iff in Hr. destruct Hr as (r0 & <- & Hr0).
    destruct (Hcons r0 Hr0) as (h & Hh & Hid & _).
    pose proof (next_SOHUploadID_above _ h Hh) as Hlt. fold hdr in Hlt.
    destruct (prior_detail _ the_date r0); cbn; lia.
  - right. apply in_map_iff in Hr. destruct Hr as (rec & <- & Hrec).
    exists rec. split; [exact Hrec|reflexivity].
Qed.

(** X23.  What an SOH upload declares is what the reports read back: after
    the turn of a brand, the snapshot quantity of the customer and a SKU of
    the file on the date of the upload is the quantity of the file, whatever
    snapshots were there before, provided the file gives the SKU one
    quantity. *)
Theorem soh_upload_is_read_back (customer_id : Z) (snapshot_type : string)
    (the_date : Z) (movement_type : string) (db : soh_db) (brand : string)
    (brand_records : list soh_record) (rec : soh_record) :
  soh_consistent db ->
  In rec brand_records ->
  (forall rec', In rec' brand_records -> rec_SKU_ID rec' = rec_SKU_ID rec ->
                rec_SOHQty rec' = rec_SOHQty rec) ->
  let db' := fst (soh_brand_turn customer_id snapshot_type the_date movement_type db brand
                    brand_records) in
  _snapshot_qty_on_date (soh_details db') customer_id (rec_SKU_ID rec) the_date
  = (rec_SOHQty rec, true).
Proof.
  intros Hcons Hrec Huniq db'.
  destruct brand_records as [|rec0 recs]; [destruct Hrec|].
  pose proof (soh_turn_details customer_id snapshot_type the_date movement_type db brand
                rec0 recs Hcons) as Hdet. cbn zeta in Hdet. fold db' in Hdet.
  set (hdr := next_SOHUploadID (soh_uploads db)) in *.
  set (y0 := SP_SOH_Detail.mk hdr customer_id (Some brand) (rec_SKU_ID rec)
               (rec_RowNumber rec) the_date (rec_SOHQty rec) true).
  assert (Hy0 : In y0 (soh_details db')).
  { subst db'. unfold soh_brand_turn. cbn [fst soh_details]. apply in_or_app. right.
    apply (in_map (fun rec => SP_SOH_Detail.mk hdr customer_id (Some brand) (rec_SKU_ID rec)
                                (rec_RowNumber rec) the_date (rec_SOHQty rec) true)).
    exact Hrec. }
  unfold _snapshot_qty_on_date.
  set (rows := List.filter _ (soh_details db')).
  assert (Hy0r : In y0 rows).
  { apply filter_In. split; [exact Hy0|]. cbn. rewrite !Z.eqb_refl. reflexivity. }
  destruct (first_by upload_desc rows) as [x|] eqn:Ex.
  2:{ apply first_by_None in Ex. rewrite Ex in Hy0r. destruct Hy0r. }
  destruct (first_by_Some upload_desc rows x Ex) as [Hx Hmax].
  specialize (Hmax y0 Hy0r). unfold upload_desc in Hmax. apply Z.leb_le in Hmax.
  cbn [SP_SOH_Detail.SOHUploadID y0] in Hmax. subst y0. cbn in Hmax.
  apply filter_In in Hx. destruct Hx as [Hx Hf].
  destruct (Hdet x Hx) as [Hlt|(rec' & Hrec' & ->)]; [lia|].
  cbn in Hf. cbn [SP_SOH_Detail.SOHQty].
  apply andb_true_iff in Hf. destruct Hf as [Hf _].
  apply andb_true_iff in Hf. destruct Hf as [Hf _].
  apply andb_true_iff in Hf. destruct Hf as [_ Hs]. apply Z.eqb_eq in Hs.
  rewrite (Huniq rec' Hrec' Hs). reflexivity.
Qed.

Lemma soh_upload_is_read_back_witness :
  soh_consistent sample_soh_db
  /\ _snapshot_qty_on_date
       (soh_details (fst (soh_brand_turn 7 "Supersede" 5 "SUPERCEED" sample_soh_db "B"
                            [mk_soh_record 3 15 1]))) 7 3 5
     = (15%Q, true).
Proof.
  assert (H : soh_consistent sample_soh_db).
  { intros r [<-|[<-|[]]].
    - eexists. split; [left; reflexivity|]. cbn. auto.
    - eexists. split; [right; left; reflexivity|]. cbn. auto. }
  split; [exact H|].
  apply (soh_upload_is_read_back 7 "Supersede" 5 "SUPERCEED" sample_soh_db "B"
           [mk_soh_record 3 15 1] (mk_soh_record 3 15 1) H).
  - left. reflexivity.
  - intros rec' [<-|[]] _. reflexivity.
Defined.

(** ** The articles of the sell-out template *)

#[global] Instance string_le_total : Total string_le.
Proof. intros x y. unfold string_le. apply String.leb_total. Qed.

Section merge_items_facts.

Variable strip : string -> string.

Lemma put_mapping_fold (items : list ArticleItem.row) :
  forall (m : gmap string ArticleItem.row) (ac : string),
    fold_left (put_mapping strip) items m !! ac
    = match List.find (has_article strip ac) (rev items) with
      | Some it => if String.eqb ac EmptyString then m !! ac
                   else Some (merged_entry it ac)
      | None => m !! ac
      end.
Proof.
  induction items as [|it items IH]; intros m ac; [reflexivity|].
  cbn [fold_left rev]. rewrite IH.
  destruct (List.find (has_article strip ac) (rev items)) as [it'|] eqn:E.
  - rewrite (find_app_l _ _ _ _ E).
    destruct (String.eqb_spec ac EmptyString) as [->|Hne]; [|reflexivity].
    unfold put_mapping. destruct (String.eqb_spec (item_article strip it) EmptyString) as [He|He];
      [reflexivity|]. apply lookup_insert_ne. exact He.
  - rewrite (find_app_r _ _ _ E). cbn [List.find]. unfold has_article, put_mapping.
    destruct (String.eqb_spec (item_article strip it) ac) as [<-|Hne].
    + destruct (String.eqb_spec (item_article strip it) EmptyString) as [He|He];
        [reflexivity|]. apply lookup_insert_eq.
    + destruct (String.eqb_spec (item_article strip it) EmptyString) as [He|He];
        [reflexivity|]. apply lookup_insert_ne. exact Hne.
Qed.

Lemma put_if_absent_fold (items : list ArticleItem.row) :
  forall (m : gmap string ArticleItem.row) (ac : string),
    fold_left (put_if_absent strip) items m !! ac
    = match m !! ac with
      | Some v => Some v
      | None =>
          match List.find (has_article strip ac) items with
          | Some it => if String.eqb ac EmptyString then None
                       else Some (merged_entry it ac)
          | None => None
          end
      end.
Proof.
  induction items as [|it items IH]; intros m ac.
  - cbn. destruct (m !! ac); reflexivity.
  - cbn [fold_left List.find]. rewrite IH. unfold put_if_absent.
    change (has_article strip ac it) with (String.eqb (item_article strip it) ac).
    destruct (String.eqb_spec (item_article strip it) EmptyString) as [He|He]; cbn [orb].
    + destruct (String.eqb_spec (item_article strip it) ac) as [Hac|Hac]; [|reflexivity].
      rewrite <- Hac, He. cbn. destruct (m !! EmptyString); [reflexivity|].
      destruct (List.find _ items); reflexivity.
    + destruct (m !! item_article strip it) as [v|] eqn:Ev.
      * rewrite bool_decide_eq_true_2 by (eexists; reflexivity).
        destruct (String.eqb_spec (item_article strip it) ac) as [Hac|Hac]; [|reflexivity].
        rewrite <- Hac, Ev. reflexivity.
      * rewrite bool_decide_eq_false_2 by (intros [? ?]; discriminate).
        destruct (String.eqb_spec (item_article strip it) ac) as [Hac|Hac].
        -- rewrite <- Hac. rewrite lookup_insert_eq, Ev.
           rewrite (proj2 (String.eqb_neq _ _) He). reflexivity.
        -- rewrite lookup_insert_ne by exact Hac. reflexivity.
Qed.

Lemma merged_by_article_lookup (mapping_items sellin_items soh_items : list ArticleItem.row)
    (ac : string) :
  merged_by_article strip mapping_items sellin_items soh_items !! ac
  = if String.eqb ac EmptyString then None
    else match chosen_item strip mapping_items sellin_items soh_items ac with
         | Some it => Some (merged_entry it ac)
         | None => None
         end.
Proof.
  unfold merged_by_article, chosen_item.
  rewrite put_if_absent_fold, put_if_absent_fold, put_mapping_fold, lookup_empty.
  destruct (String.eqb ac EmptyString);
    destruct (List.find (has_article strip ac) (rev mapping_items));
    destruct (List.find (has_article strip ac) sellin_items);
    destruct (List.find (has_article strip ac) soh_items); reflexivity.
Qed.

End merge_items_facts.

Lemma omap_lookup_articles (m : gmap string ArticleItem.row) (keys : list string) :
  (forall k, In k keys -> exists r, m !! k = Some r /\ out_article r = k) ->
  List.map out_article (omap (fun k => m !! k) keys) = keys.
Proof.
  induction keys as [|k keys IH]; intros Hall; [reflexivity|].
  destruct (Hall k (or_introl eq_refl)) as (r & Hr & Hk).
  change (omap (fun k => m !! k) (k :: keys))
    with (match m !! k with
          | Some y => y :: omap (fun k => m !! k) keys
          | None => omap (fun k => m !! k) keys
          end).
  rewrite Hr.
  cbn [List.map]. rewrite Hk. f_equal. apply IH. intros k' Hk'. apply Hall. right. exact Hk'.
Qed.

(** X24.  The article list of the sell-out template: the merged list is
    sorted by article code and holds each article once; an article is in it
    exactly when its stripped code is not empty and one of the three lists
    has it; and its entry comes from the mapping when the mapping has the
    article (from the last such item), else from the first such item of the
    sell-in, else from the first such item of the SOH. *)
Theorem merge_items_prefers_mapping (strip : string -> string)
    (mapping_items sellin_items soh_items : list ArticleItem.row) :
  let out := _merge_items_preferring_mapping strip mapping_items sellin_items soh_items in
  Sorted string_le (List.map out_article out)
  /\ NoDup (List.map out_article out)
  /\ (forall r, In r out
        <-> exists ac it,
              ac <> EmptyString
              /\ chosen_item strip mapping_items sellin_items soh_items ac = Some it
              /\ r = merged_entry it ac)
  /\ (forall ac, In ac (List.map out_article out)
        <-> ac <> EmptyString
            /\ exists it, In it (mapping_items ++ sellin_items ++ soh_items)
                          /\ item_article strip it = ac).
Proof.
  intros out. subst out. unfold _merge_items_preferring_mapping.
  set (m := merged_by_article strip mapping_items sellin_items soh_items).
  set (keys := merge_sort string_le (List.map fst (map_to_list m))).
  assert (Hlook : forall ac, m !! ac
                  = if String.eqb ac EmptyString then None
                    else match chosen_item strip mapping_items sellin_items soh_items ac with
                         | Some it => Some (merged_entry it ac)
                         | None => None
                         end).
  { intros ac. apply merged_by_article_lookup. }
  assert (Hkeys : forall k, In k keys <-> exists r, m !! k = Some r).
  { intros k. unfold keys. rewrite <- list_elem_of_In, merge_sort_Permutation, list_elem_of_In.
    rewrite in_map_iff. split.
    - intros ([k' r] & <- & Hin). exists r.
      apply list_elem_of_In, elem_of_map_to_list in Hin. exact Hin.
    - intros (r & Hr). exists (k, r). split; [reflexivity|].
      apply list_elem_of_In, elem_of_map_to_list. exact Hr. }
  assert (Hart : forall k r, m !! k = Some r -> out_article r = k).
  { intros k r Hr. rewrite Hlook in Hr. destruct (String.eqb k EmptyString); [discriminate|].
    destruct (chosen_item _ _ _ _ k); [|discriminate]. injection Hr as <-. reflexivity. }
  assert (Hmap : List.map out_article (omap (fun k => m !! k) keys) = keys).
  { apply omap_lookup_articles. intros k Hk. apply Hkeys in Hk. destruct Hk as (r & Hr).
    exists r. split; [exact Hr|exact (Hart k r Hr)]. }
  assert (Hchosen : forall ac,
            (exists it, chosen_item strip mapping_items sellin_items soh_items ac = Some it)
            <-> exists it, In it (mapping_items ++ sellin_items ++ soh_items)
                           /\ item_article strip it = ac).
  { intros ac. unfold chosen_item. split.
    - intros (it & Hit).
      destruct (List.find (has_article strip ac) (rev mapping_items)) as [i1|] eqn:E1.
      { apply find_some in E1. destruct E1 as [Hin Hh]. exists i1.
        split; [apply in_or_app; left; apply in_rev; exact Hin|].
        apply String.eqb_eq. exact Hh. }
      destruct (List.find (has_article strip ac) sellin_items) as [i2|] eqn:E2.
      { apply find_some in E2. destruct E2 as [Hin Hh]. exists i2.
        split; [apply in_or_app; right; apply in_or_app; left; exact Hin|].
        apply String.eqb_eq. exact Hh. }
      apply find_some in Hit. destruct Hit as [Hin Hh]. exists it.
      split; [apply in_or_app; right; apply in_or_app; right; exact Hin|].
      apply String.eqb_eq. exact Hh.
    - intros (it & Hin & Hk).
      assert (Hh : has_article strip ac it = true) by (apply String.eqb_eq; exact Hk).
      destruct (List.find (has_article strip ac) (rev mapping_items)) as [i1|] eqn:E1;
        [eexists; reflexivity|].
      destruct (List.find (has_article strip ac) sellin_items) as [i2|] eqn:E2;
        [eexists; reflexivity|].
      destruct (List.find (has_article strip ac) soh_items) as [i3|] eqn:E3;
        [eexists; reflexivity|].
      exfalso. apply in_app_or in Hin. destruct Hin as [Hin|Hin].
      + apply in_rev in Hin. pose proof (find_none _ _ E1 it Hin). congruence.
      + apply in_app_or in Hin. destruct Hin as [Hin|Hin].
        * pose proof (find_none _ _ E2 it Hin). congruence.
        * pose proof (find_none _ _ E3 it Hin). congruence. }
  split.
  { rewrite Hmap. apply Sorted_merge_sort. apply _. }
  split.
  { rewrite Hmap. unfold keys. rewrite merge_sort_Permutation. apply NoDup_fst_map_to_list. }
  split.
  { intros r. rewrite <- list_elem_of_In, list_elem_of_omap. split.
    - intros (k & Hk & Hr). rewrite Hlook in Hr.
      destruct (String.eqb_spec k EmptyString) as [|Hne]; [discriminate|].
      destruct (chosen_item strip mapping_items sellin_items soh_items k) as [it|] eqn:Ec;
        [|discriminate].
      injection Hr as <-. exists k, it. auto.
    - intros (ac & it & Hne & Hc & ->). exists ac.
      assert (Hm : m !! ac = Some (merged_entry it ac)).
      { rewrite Hlook, Hc. rewrite (proj2 (String.eqb_neq _ _) Hne). reflexivity. }
      split; [|exact Hm]. apply list_elem_of_In, Hkeys. eexists. exact Hm. }
  intros ac. rewrite Hmap, Hkeys, <- Hchosen. rewrite Hlook.
  destruct (String.eqb_spec ac EmptyString) as [->|Hne].
  - split; [intros (r & Hr); discriminate|intros [Hx _]; contradiction].
  - destruct (chosen_item strip mapping_items sellin_items soh_items ac) as [it|].
    + split; [intros _; split; [exact Hne|eexists; reflexivity]|intros _; eexists; reflexivity].
    + split; [intros (r & Hr); discriminate|intros (_ & it & Hit); discriminate].
Qed.

(** ** The pages of the general report *)

Lemma py_slice_nonneg {A : Type} (l : list A) (s e : nat) :
  py_slice l (Z.of_nat s) (Z.of_nat e) = take (e - s) (drop s l).
Proof.
  unfold py_slice, py_slice_bound.
  destruct (Z.ltb_spec (Z.of_nat s) 0) as [H|_]; [lia|].
  destruct (Z.ltb_spec (Z.of_nat e) 0) as [H|_]; [lia|].
  destruct (le_lt_dec (length l) s) as [Hs|Hs].
  - rewrite !drop_ge by lia. rewrite !take_nil. reflexivity.
  - replace (Z.to_nat (Z.min (Z.of_nat s) (Z.of_nat (length l)))) with s by lia.
    destruct (le_lt_dec e (length l)) as [He|He].
    + f_equal. lia.
    + rewrite !take_ge; [reflexivity|rewrite length_drop; lia|rewrite length_drop; lia].
Qed.

Lemma concat_pages {A : Type} (l : list A) (ps : nat) (k : nat) :
  concat (List.map (fun p => take ps (drop (p * ps) l)) (seq 0 k)) = take (k * ps) l.
Proof.
  induction k as [|k IH]; [reflexivity|].
  rewrite seq_S, List.map_app, concat_app, IH. cbn [List.map concat Nat.add].
  rewrite app_nil_r. rewrite take_take_drop. f_equal. lia.
Qed.

Lemma page_items_eq {A : Type} (page_size : option Z) (rows : list A) (page : nat) :
  0 < Z.min 500 (py_or_Z page_size 100) ->
  page_items page_size rows (S page)
  = take (Z.to_nat (Z.min 500 (py_or_Z page_size 100)))
      (drop (page * Z.to_nat (Z.min 500 (py_or_Z page_size 100))) rows).
Proof.
  intros Hps. unfold page_items, list_rows_page. cbn [snd].
  set (ps := Z.min 500 (py_or_Z page_size 100)) in *.
  assert (Hp : Z.max 1 (py_or_Z (Some (Z.of_nat (S page))) 1) = Z.of_nat (S page)).
  { unfold py_or_Z, truthy. cbn [coalesce].
    destruct (Z.eqb_spec (Z.of_nat (S page)) 0); cbn [negb]; lia. }
  rewrite Hp.
  replace ((Z.of_nat (S page) - 1) * ps) with (Z.of_nat (page * Z.to_nat ps)) by nia.
  replace (Z.of_nat (page * Z.to_nat ps) + ps)
    with (Z.of_nat (page * Z.to_nat ps + Z.to_nat ps)) by nia.
  rewrite py_slice_nonneg. f_equal. lia.
Qed.

(** X25.  The pages of the general report: the page size answered is never
    above 500 and the page never below 1; with a positive page size a page
    holds at most that many rows, and the pages, read in order, give every
    row of the report once and in its order.  A negative page size is not
    refused: page 1 then holds all the rows but the last ones, as many as
    the size says. *)
Theorem report_pages_partition {A : Type} (page_size : option Z) (rows : list A) :
  let ps := Z.min 500 (py_or_Z page_size 100) in
  (forall page, list_rows_page page page_size rows
                = (Z.of_nat (length rows), Z.max 1 (py_or_Z page 1), ps,
                   snd (list_rows_page page page_size rows))
                /\ ps <= 500 /\ 1 <= Z.max 1 (py_or_Z page 1))
  /\ (0 < ps ->
      (forall page, Z.of_nat (length (page_items page_size rows page)) <= ps)
      /\ (forall k, (length rows <= k * Z.to_nat ps)%nat ->
                    concat (List.map (page_items page_size rows) (seq 1 k)) = rows))
  /\ (ps < 0 ->
      page_items page_size rows 1 = take (Z.to_nat (Z.of_nat (length rows) + ps)) rows).
Proof.
  intros ps. split; [|split].
  - intros page. split; [reflexivity|]. subst ps. lia.
  - intros Hps. split.
    + intros [|page].
      * assert (H0 : page_items page_size rows 0 = page_items page_size rows 1) by reflexivity.
        rewrite H0, page_items_eq by exact Hps. rewrite length_take. fold ps. lia.
      * rewrite page_items_eq by exact Hps. rewrite length_take. fold ps. lia.
    + intros k Hk. rewrite <- seq_shift, List.map_map.
      rewrite (List.map_ext _ (fun p => take (Z.to_nat ps) (drop (p * Z.to_nat ps) rows)))
        by (intros p; apply page_items_eq; exact Hps).
      rewrite concat_pages. apply take_ge. exact Hk.
  - intros Hps. unfold page_items, list_rows_page. cbn [snd]. fold ps.
    change (Z.max 1 (py_or_Z (Some (Z.of_nat 1)) 1)) with 1.
    replace ((1 - 1) * ps) with 0 by lia. rewrite Z.add_0_l.
    unfold py_slice, py_slice_bound.
    destruct (Z.ltb_spec ps 0) as [_|H]; [|lia]. cbn [Z.ltb Z.compare].
    replace (Z.to_nat (Z.min 0 (Z.of_nat (length rows)))) with 0%nat by lia.
    rewrite drop_0. f_equal. lia.
Qed.

(** ** The routes of the approvals blueprint and their guards *)

(** X26.  The route that approves uploads checks no role: [require_role]
    stands above [bp.route] there, so the view of the rule is the bare
    function, and every logged-in user gets the answer of the function,
    whatever the role of the session; the wrapper that checks the role is
    bound to the name of the function only.  The routes that reject and
    submit answer 403 and change nothing unless the role is one of the four
    named.  Without login the three routes change nothing: the guard that
    runs before every request answers 401 to a client that likes JSON best,
    and redirects any other client to the login page. *)
Theorem approve_route_checks_no_role (int_of_varchar : string -> option Z)
    (req : request) (db : database) :
  let url_map := fst (approvals_module int_of_varchar) in
  let approve_uploads_name := snd (fst (snd (approvals_module int_of_varchar))) in
  let approve := "/sell-out-approvals/approvals/approve"%string in
  let reject := "/sell-out-approvals/approvals/reject"%string in
  let submit := "/sell-out-approvals/approvals/submit-bulk"%string in
  (is_authenticated req = true ->
     dispatch url_map approve req db
     = view_call (approve_uploads_body int_of_varchar) req db
     /\ (role_in approval_roles (session_role req) = false ->
         view_call approve_uploads_name req db = (db, Forbidden403)
         /\ dispatch url_map reject req db = (db, Forbidden403)
         /\ dispatch url_map submit req db = (db, Forbidden403))
     /\ (role_in approval_roles (session_role req) = true ->
         dispatch url_map reject req db
         = view_call (reject_uploads_body int_of_varchar) req db
         /\ dispatch url_map submit req db
            = view_call (submit_bulk_body int_of_varchar) req db))
  /\ (is_authenticated req = false ->
      forall path, In path [approve; reject; submit] ->
        dispatch url_map path req db
        = (db, if best_is_json req then Unauthorized401 else Redirect302)).
Proof.
  intros url_map approve_uploads_name approve reject submit.
  subst url_map approve_uploads_name approve reject submit. split.
  - intros Ha.
    assert (Hguard : forall ep path,
              require_login_globally ep path req
              = match ep with
                | None => None
                | Some e =>
                    if String.eqb e "static" then None
                    else if startswith path "/static/" || startswith path "/favicon.ico"
                            || startswith path "/robots.txt" then None
                    else None
                end).
    { intros [e|] path; [|reflexivity]. unfold require_login_globally. rewrite Ha.
      cbn [negb].
      repeat match goal with
             | |- context [if ?b then _ else _] => destruct b
             end; reflexivity. }
    unfold dispatch. rewrite !Hguard.
    split; [reflexivity|]. split.
    + intros Hr.
      assert (H403 : forall fn, view_call (require_role approval_roles fn) req db
                                = (db, Forbidden403)).
      { intros fn. unfold require_role. cbn [view_call]. rewrite Ha, Hr. reflexivity. }
      split; [apply H403|]. split; [apply H403|apply H403].
    + intros Hr.
      assert (Hok : forall fn, view_call (require_role approval_roles fn) req db
                               = view_call fn req db).
      { intros fn. unfold require_role. cbn [view_call]. rewrite Ha, Hr. reflexivity. }
      split; apply Hok.
  - intros Ha path Hpath. unfold dispatch.
    destruct Hpath as [<-|[<-|[<-|[]]]];
      cbn; unfold require_login_globally, _unauth; cbn; rewrite Ha; cbn;
      rewrite orb_false_r; reflexivity.
Qed.

(** ** The export of the general report *)

(** X27.  The export of the general report asks for one page of a million
    rows, but [list_rows] caps the page size at 500: the export holds the
    first 500 rows of the report and never a row after them. *)
Theorem export_csv_holds_500_rows {A : Type} (rows : list A) :
  export_csv_items rows = take 500 rows
  /\ (length (export_csv_items rows) <= 500)%nat
  /\ (forall (i : nat) (r : A), (500 <= i)%nat -> rows !! i = Some r ->
        export_csv_items rows !! i = None)
  /\ ((length rows <= 500)%nat -> export_csv_items rows = rows).
Proof.
  assert (H : export_csv_items rows = take 500 rows).
  { unfold export_csv_items.
    change (snd (list_rows_page (Some 1) (Some 1000000) rows))
      with (page_items (Some 1000000) rows 1).
    rewrite page_items_eq by (vm_compute; reflexivity).
    change (Z.to_nat (Z.min 500 (py_or_Z (Some 1000000) 100))) with 500%nat.
    rewrite drop_0. reflexivity. }
  split; [exact H|]. rewrite H. split; [rewrite length_take; lia|].
  split.
  - intros i r Hi _. apply lookup_take_ge. exact Hi.
  - intros Hle. apply take_ge. exact Hle.
Qed.

(** ** The tags of a customer *)

(** X28.  [_sync_tags] makes the tags of the customer exactly the wanted
    status ids, an id 0 left out as Python takes it for false; it touches
    the tags of no other customer; and it is idempotent. *)
Theorem sync_tags_exact (T : gset (Z * Z)) (customer_id : Z) (want_ids : gset Z) :
  tags_of (_sync_tags T customer_id want_ids) customer_id
  = filter (fun s : Z => s <> 0) want_ids
  /\ (forall c, c <> customer_id ->
        tags_of (_sync_tags T customer_id want_ids) c = tags_of T c)
  /\ _sync_tags (_sync_tags T customer_id want_ids) customer_id want_ids
     = _sync_tags T customer_id want_ids
  /\ (tags_of T customer_id = filter (fun s : Z => s <> 0) want_ids ->
      _sync_tags T customer_id want_ids = T).
Proof.
  split.
  { apply set_eq. intros x. rewrite elem_of_tags_of, elem_of_sync_tags, elem_of_filter.
    split.
    - intros [[Hc _]|(_ & Hx & Hnz)]; [contradiction|auto].
    - intros [Hnz Hx]. right. auto. }
  split; [intros c Hc; apply tags_of_sync_other; exact Hc|].
  split.
  { apply set_eq. intros [c x]. rewrite !elem_of_sync_tags. tauto. }
  intros Hsame. apply set_eq. intros [c x]. rewrite elem_of_sync_tags.
  destruct (decide (c = customer_id)) as [->|Hne].
  - assert (Hx : (customer_id, x) ∈ T <-> x ∈ tags_of T customer_id).
    { rewrite elem_of_tags_of. tauto. }
    rewrite Hx, Hsame, elem_of_filter. tauto.
  - tauto.
Qed.
